(** * Stock-analysis dashboard: a shallow embedding of the client logic

    The repository is a React single-page application.  Every component is
    modelled the same way: its [useState] cells become the fields of a
    [State] record, the things that can happen to it (a click, a prop
    change, a timer firing, the arrival of an HTTP response) become the
    constructors of an [Event] type, and the code that runs on each of them
    becomes a total [step] function.  Promises that are still pending are
    kept in the state as the closures they captured, so every order in
    which responses may arrive is a list of events.

    Numbers.  JavaScript numbers are IEEE-754 doubles.  The model keeps the
    special values the code can observe ([NaN], the two infinities, and the
    fact that [0] and [NaN] are falsy); a finite value is a canonical
    rational.  Products and quotients are rounded to the nearest double,
    ties to even, with gradual underflow and with overflow to an infinity,
    and so are decimal literals.  Sums and differences are kept exact:
    the code looks at the sign of a difference, which rounding does not
    change, and nothing proved below depends on the last bit of one.  The
    sign of zero is not modelled. *)

From Stdlib Require Import ZArith QArith Qcanon Qabs Qround Qpower Lqa.
From stdpp Require Import gmap strings list numbers pretty sorting.

Local Open Scope Z_scope.
Local Open Scope string_scope.
Local Open Scope list_scope.

(** ** JavaScript numbers *)

Inductive number : Type :=
  | Fin (q : Qc)
  | PosInf
  | NegInf
  | NaN.

Definition num (z : Z) : number := Fin (Q2Qc (inject_Z z)).

Inductive sign : Type := Neg | Zero | Pos.

Definition Qc_sign (q : Qc) : sign :=
  match (this q ?= 0)%Q with
  | Lt => Neg
  | Eq => Zero
  | Gt => Pos
  end.

Definition is_finite (x : number) : bool :=
  match x with Fin _ => true | _ => false end.

Definition is_nan (x : number) : bool :=
  match x with NaN => true | _ => false end.

(** [ToBoolean] on a number: [0] and [NaN] are falsy. *)
Definition truthy (x : number) : bool :=
  match x with
  | Fin q => match Qc_sign q with Zero => false | _ => true end
  | PosInf | NegInf => true
  | NaN => false
  end.

Definition num_neg (x : number) : number :=
  match x with
  | Fin q => Fin (- q)%Qc
  | PosInf => NegInf
  | NegInf => PosInf
  | NaN => NaN
  end.

Definition num_add (x y : number) : number :=
  match x, y with
  | NaN, _ | _, NaN => NaN
  | Fin a, Fin b => Fin (a + b)%Qc
  | PosInf, NegInf | NegInf, PosInf => NaN
  | PosInf, _ | _, PosInf => PosInf
  | NegInf, _ | _, NegInf => NegInf
  end.

Definition num_sub (x y : number) : number := num_add x (num_neg y).

Definition signed_inf (s : sign) : number :=
  match s with Neg => NegInf | Zero => NaN | Pos => PosInf end.

Definition sign_of (x : number) : sign :=
  match x with
  | Fin q => Qc_sign q
  | PosInf => Pos
  | NegInf => Neg
  | NaN => Zero
  end.

Definition sign_mul (s t : sign) : sign :=
  match s, t with
  | Zero, _ | _, Zero => Zero
  | Pos, Pos | Neg, Neg => Pos
  | Pos, Neg | Neg, Pos => Neg
  end.

(** *** Rounding to a double

    [2^e], for an exponent of either sign. *)
Definition pow2 (e : Z) : Q := (2 ^ e)%Q.

(** The integer [k] with [2^k <= x < 2^(k+1)], for [x > 0]. *)
Definition ilog2 (x : Q) : Z :=
  let k := (Z.log2 (Qnum x) - Z.log2 (Zpos (Qden x)))%Z in
  if Qle_bool (pow2 k) x then k else (k - 1)%Z.

(** The nearest integer, the even one of two that are equally near. *)
Definition round_half_even (y : Q) : Z :=
  let f := Qfloor y in
  match Qcompare (y - inject_Z f) (1 # 2) with
  | Lt => f
  | Gt => (f + 1)%Z
  | Eq => if Z.even f then f else (f + 1)%Z
  end.

(** The exponent of the last of the 53 bits of a double near [x]; it is
    [-1074] throughout the subnormal range. *)
Definition exponent (x : Q) : Z := Z.max (ilog2 (Qabs x) - 52) (-1074).

(** The multiple of [2^(exponent x)] nearest to [x]. *)
Definition nearest (x : Q) : Q :=
  (inject_Z (round_half_even (x / pow2 (exponent x))) * pow2 (exponent x))%Q.

(** The double that stands for the real number [x]: the nearest one, or
    an infinity from [2^1024 - 2^970] on. *)
Definition binary64 (x : Qc) : number :=
  match Qc_sign x with
  | Zero => Fin x
  | sgn =>
      if Qle_bool (pow2 1024) (Qabs (nearest x)) then signed_inf sgn
      else Fin (Q2Qc (nearest x))
  end.
Arguments binary64 : simpl never.

(** A decimal literal such as [0.92], for [n/d]. *)
Definition frac (n : Z) (d : positive) : number := binary64 (Q2Qc (n # d)).

Definition num_mul (x y : number) : number :=
  match x, y with
  | NaN, _ | _, NaN => NaN
  | Fin a, Fin b => binary64 (a * b)%Qc
  | _, _ => signed_inf (sign_mul (sign_of x) (sign_of y))
  end.

(** Division: a finite non-zero value over zero is an infinity, [0/0] and
    [inf/inf] are [NaN], a finite value over an infinity is [0]. *)
Definition num_div (x y : number) : number :=
  match x, y with
  | NaN, _ | _, NaN => NaN
  | Fin a, Fin b =>
      match Qc_sign b with
      | Zero => signed_inf (Qc_sign a)
      | _ => binary64 (a / b)%Qc
      end
  | Fin _, _ => num 0
  | _, Fin b =>
      match Qc_sign b with
      | Neg => num_neg x
      | _ => x
      end
  | _, _ => NaN
  end.

Declare Scope js_scope.
Delimit Scope js_scope with js.
Infix "+" := num_add : js_scope.
Infix "-" := num_sub : js_scope.
Infix "*" := num_mul : js_scope.
Infix "/" := num_div : js_scope.

(** [x > 0], [x < 0] and [x >= 0] as JavaScript evaluates them ([NaN]
    compares false with everything). *)
Definition gt0 (x : number) : bool :=
  match sign_of x with Pos => true | _ => false end.

Definition lt0 (x : number) : bool :=
  match sign_of x with Neg => true | _ => false end.

Definition num_le (x y : number) : Prop :=
  match x, y with
  | NaN, _ | _, NaN => False
  | NegInf, _ | _, PosInf => True
  | Fin a, Fin b => (a <= b)%Qc
  | _, _ => False
  end.


(** *** Tolerance

    Each rounding of a value in the normal range moves it by at most the
    fraction [2^-53] of itself. *)
Definition rounding_unit : Q := pow2 (-53).

(** [x] is finite and differs from [y] by at most the fraction [tol] of
    [y]. *)
Definition within (tol : Q) (x y : number) : bool :=
  match x, y with
  | Fin p, Fin q => Qle_bool (Qabs (p - q)) (tol * Qabs q)
  | _, _ => false
  end.

(** [x] is finite and its magnitude lies between [2^lo] and [2^hi]. *)
Definition magnitude_within (lo hi : Z) (x : number) : bool :=
  match x with
  | Fin q => Qle_bool (pow2 lo) (Qabs q) && Qle_bool (Qabs q) (pow2 hi)
  | _ => false
  end.

(** A value between [2^-1022] and [2^1023] in magnitude is rounded as a
    normal double, without underflow or overflow.  An amount that is to
    come back from a conversion needs one binade of room more at either
    end: between [2^-1021] and [2^1022]. *)
Definition normal (x : number) : bool := magnitude_within (-1022) 1023 x.
Definition roomy (x : number) : bool := magnitude_within (-1021) 1022 x.

(** A value between [2^-500] and [2^500] in magnitude: every amount and
    rate other than [0] that a price or an exchange rate can be. *)
Definition ordinary (x : number) : bool := magnitude_within (-500) 500 x.
(** ** Shared vocabulary of the components *)

(** How an awaited [fetch(...).then(r => r.json())] can end: with the
    parsed body, or by throwing (network failure, body that is not JSON). *)
Inductive Settled (A : Type) : Type :=
  | Fulfilled (v : A)
  | Rejected.
Arguments Fulfilled {A} v.
Arguments Rejected {A}.

(** [useEffect(f, deps)]: after the first render the effect runs again
    exactly when some dependency differs from its previous value. *)
Definition deps_changed `{EqDecision D} (prev next : D) : bool :=
  bool_decide (prev ≠ next).

(** [xs[xs.length - 1]] and [xs[0]]. *)
Definition last_item {A} (xs : list A) : option A := xs !! (length xs - 1)%nat.
Definition first_item {A} (xs : list A) : option A := xs !! 0%nat.

(** ** PriceChart.tsx *)

Module PriceChart.

Record HistoryItem : Type := {
  time : string;
  full_date : string;
  price : number;
  volume : number;
}.

(** The six entries of the [PERIODS] table; the buttons hand these very
    objects to [setPeriod], so reference equality is equality of entries. *)
Inductive Period : Type := P_1d | P_5d | P_1mo | P_1y | P_5y | P_max.

#[global] Instance Period_eq_dec : EqDecision Period.
Proof. solve_decision. Defined.

Definition id (p : Period) : string :=
  match p with
  | P_1d => "1d" | P_5d => "5d" | P_1mo => "1mo"
  | P_1y => "1y" | P_5y => "5y" | P_max => "max"
  end.

Definition label (p : Period) : string :=
  match p with
  | P_1d => "1D" | P_5d => "5D" | P_1mo => "1M"
  | P_1y => "1Y" | P_5y => "5Y" | P_max => "MAX"
  end.

Definition interval (p : Period) : string :=
  match p with
  | P_1d => "5m" | P_5d => "15m" | P_1mo => "1d"
  | P_1y => "1wk" | P_5y => "1mo" | P_max => "1mo"
  end.

Definition PERIODS : list Period := [P_1d; P_5d; P_1mo; P_1y; P_5y; P_max].

Record Stats : Type := { change : number; changePct : number }.

(** One call of [fetchHistory]: the request it sent and the [period] its
    closure captured. *)
Record Call : Type := { url : string; captured : Period }.

(** What the component does to the outside world. *)
Inductive Output : Type :=
  | Fetch (u : string)
  | StatsUpdate (s : Stats) (periodLabel : string).

(** The [indicators] cell (a sine wave plus [Math.random] noise drawn for
    the RSI/MACD overlays) is written from [histData.length] only and read
    by no other cell; it is not part of the model. *)
Record State : Type := {
  ticker : string;                (* prop *)
  data : list HistoryItem;
  loading : bool;
  period : Period;
  stats : Stats;
  pending : list Call;            (* fetches still awaiting a response *)
  out : list Output;              (* newest last *)
}.

Definition history_url (t : string) (p : Period) : string :=
  "/api/history/" ++ t ++ "?period=" ++ id p ++ "&interval=" ++ interval p.

(** State after the first render, before the mount effect. *)
Definition initial (t : string) : State :=
  {| ticker := t; data := []; loading := true; period := P_1mo;
     stats := {| change := num 0; changePct := num 0 |};
     pending := []; out := [] |}.

(** The effect body up to the first [await]. *)
Definition fetchHistory (s : State) : State :=
  let u := history_url (ticker s) (period s) in
  {| ticker := ticker s; data := data s; loading := true;
     period := period s; stats := stats s;
     pending := pending s ++ [ {| url := u; captured := period s |} ];
     out := out s ++ [Fetch u] |}.

Definition compute_stats (histData : list HistoryItem) : option Stats :=
  if bool_decide (1 < length histData)%nat then
    match first_item histData, last_item histData with
    | Some f, Some l =>
        let first := price f in
        let last := price l in
        let change := (last - first)%js in
        let changePct := ((change / first) * num 100)%js in
        Some {| change := change; changePct := changePct |}
    | _, _ => None
    end
  else None.

(** The rest of [fetchHistory], run when the awaited response settles. *)
Definition resume (c : Call) (r : Settled (list HistoryItem)) (s : State) : State :=
  match r with
  | Fulfilled histData =>
      let st := compute_stats histData in
      {| ticker := ticker s; data := histData; loading := false;
         period := period s;
         stats := default (stats s) st;
         pending := pending s;
         out := out s ++
                match st with
                | Some x => [StatsUpdate x (label (captured c))]
                | None => []
                end |}
  | Rejected =>
      {| ticker := ticker s; data := data s; loading := false;
         period := period s; stats := stats s;
         pending := pending s; out := out s |}
  end.

Inductive Event : Type :=
  | Mount
  | SetPeriod (p : Period)                         (* a period button *)
  | SetTicker (t : string)                         (* the parent passes a new prop *)
  | Settle (n : nat) (r : Settled (list HistoryItem)). (* n-th pending fetch *)

Definition with_deps (t : string) (p : Period) (s : State) : State :=
  {| ticker := t; data := data s; loading := loading s; period := p;
     stats := stats s; pending := pending s; out := out s |}.

Definition step (s : State) (e : Event) : State :=
  match e with
  | Mount => fetchHistory s
  | SetPeriod p =>
      if deps_changed (ticker s, period s) (ticker s, p)
      then fetchHistory (with_deps (ticker s) p s)
      else s
  | SetTicker t =>
      if deps_changed (ticker s, period s) (t, period s)
      then fetchHistory (with_deps t (period s) s)
      else s
  | Settle n r =>
      match pending s !! n with
      | Some c =>
          resume c r
            {| ticker := ticker s; data := data s; loading := loading s;
               period := period s; stats := stats s;
               pending := delete n (pending s); out := out s |}
      | None => s
      end
  end.

Definition run (s : State) (es : list Event) : State := foldl step s es.

(** The fetches issued between two states of one run. *)
Definition fetches (os : list Output) : list string :=
  omap (fun o => match o with Fetch u => Some u | _ => None end) os.

End PriceChart.

(** ** PortfolioPerformance.tsx *)

Module PortfolioPerformance.

Record PerformanceItem : Type := { time : string; price : number }.

Inductive Period : Type := P_1d | P_1mo | P_1y | P_max.

#[global] Instance Period_eq_dec : EqDecision Period.
Proof. solve_decision. Defined.

Definition id (p : Period) : string :=
  match p with P_1d => "1d" | P_1mo => "1mo" | P_1y => "1y" | P_max => "max" end.

Definition label (p : Period) : string :=
  match p with P_1d => "1D" | P_1mo => "1M" | P_1y => "1Y" | P_max => "MAX" end.

Definition PERIODS : list Period := [P_1d; P_1mo; P_1y; P_max].

Record Stats : Type := { change : number; changePct : number }.

Record State : Type := {
  portfolioId : string;           (* prop *)
  refreshKey : nat;               (* prop, default 0 *)
  data : list PerformanceItem;
  loading : bool;
  period : Period;
  stats : Stats;
  pending : list string;          (* URLs still awaiting a response *)
  out : list string;              (* URLs fetched, newest last *)
}.

Definition history_url (pid : string) (p : Period) : string :=
  "/api/portfolio/" ++ pid ++ "/history?period=" ++ id p.

Definition initial (pid : string) (key : nat) : State :=
  {| portfolioId := pid; refreshKey := key; data := []; loading := true;
     period := P_1mo; stats := {| change := num 0; changePct := num 0 |};
     pending := []; out := [] |}.

Definition fetchHistory (s : State) : State :=
  let u := history_url (portfolioId s) (period s) in
  {| portfolioId := portfolioId s; refreshKey := refreshKey s;
     data := data s; loading := true; period := period s; stats := stats s;
     pending := pending s ++ [u]; out := out s ++ [u] |}.

(** [if (portfolioId) fetchHistory()]: the empty string is falsy. *)
Definition effect (s : State) : State :=
  if bool_decide (portfolioId s = "") then s else fetchHistory s.

Definition compute_stats (histData : list PerformanceItem) : option Stats :=
  if bool_decide (1 < length histData)%nat then
    match first_item histData, last_item histData with
    | Some f, Some l =>
        let first := price f in
        let last := price l in
        let change := (last - first)%js in
        let changePct := ((change / first) * num 100)%js in
        Some {| change := change; changePct := changePct |}
    | _, _ => None
    end
  else None.

Definition resume (r : Settled (list PerformanceItem)) (s : State) : State :=
  match r with
  | Fulfilled histData =>
      {| portfolioId := portfolioId s; refreshKey := refreshKey s;
         data := histData; loading := false; period := period s;
         stats := default (stats s) (compute_stats histData);
         pending := pending s; out := out s |}
  | Rejected =>
      {| portfolioId := portfolioId s; refreshKey := refreshKey s;
         data := data s; loading := false; period := period s;
         stats := stats s; pending := pending s; out := out s |}
  end.

Inductive Event : Type :=
  | Mount
  | SetPeriod (p : Period)
  | SetProps (pid : string) (key : nat)
  | Settle (n : nat) (r : Settled (list PerformanceItem)).

Definition with_deps (pid : string) (key : nat) (p : Period) (s : State) : State :=
  {| portfolioId := pid; refreshKey := key; data := data s;
     loading := loading s; period := p; stats := stats s;
     pending := pending s; out := out s |}.

Definition step (s : State) (e : Event) : State :=
  match e with
  | Mount => effect s
  | SetPeriod p =>
      if deps_changed (portfolioId s, period s, refreshKey s)
                      (portfolioId s, p, refreshKey s)
      then effect (with_deps (portfolioId s) (refreshKey s) p s)
      else s
  | SetProps pid key =>
      if deps_changed (portfolioId s, period s, refreshKey s)
                      (pid, period s, key)
      then effect (with_deps pid key (period s) s)
      else with_deps pid key (period s) s
  | Settle n r =>
      match pending s !! n with
      | Some _ =>
          resume r
            {| portfolioId := portfolioId s; refreshKey := refreshKey s;
               data := data s; loading := loading s; period := period s;
               stats := stats s; pending := delete n (pending s);
               out := out s |}
      | None => s
      end
  end.

Definition run (s : State) (es : list Event) : State := foldl step s es.

End PortfolioPerformance.

(** ** JavaScript strings

    Strings are sequences of 8-bit code units; [length] is
    [String.length]. *)

(** The white space and line terminators that [trim] removes, among the
    code units below 256: TAB, LF, VT, FF, CR, SP and NBSP. *)
Definition is_space (a : Ascii.ascii) : bool :=
  let n := Ascii.nat_of_ascii a in
  (Nat.leb 9 n && Nat.leb n 13) || Nat.eqb n 32 || Nat.eqb n 160.

Fixpoint trim_start (s : string) : string :=
  match s with
  | String a rest => if is_space a then trim_start rest else s
  | EmptyString => EmptyString
  end.

Fixpoint trim_end (s : string) : string :=
  match s with
  | String a rest =>
      match trim_end rest with
      | EmptyString => if is_space a then EmptyString else String a EmptyString
      | kept => String a kept
      end
  | EmptyString => EmptyString
  end.

(** [s.trim()] *)
Definition trim (s : string) : string := trim_end (trim_start s).

(** [s.toUpperCase()] on the letters a-z; other code units are kept. *)
Definition upper_ascii (a : Ascii.ascii) : Ascii.ascii :=
  let n := Ascii.nat_of_ascii a in
  if Nat.leb 97 n && Nat.leb n 122 then Ascii.ascii_of_nat (n - 32) else a.

Fixpoint toUpperCase (s : string) : string :=
  match s with
  | String a rest => String (upper_ascii a) (toUpperCase rest)
  | EmptyString => EmptyString
  end.

(** A string is truthy when it is not empty. *)
Definition nonempty (s : string) : bool := negb (bool_decide (s = "")).

(** ** parseFloat and number inputs *)

Definition is_digit (a : Ascii.ascii) : bool :=
  let n := Ascii.nat_of_ascii a in Nat.leb 48 n && Nat.leb n 57.

Definition digit_value (a : Ascii.ascii) : Z := Z.of_nat (Ascii.nat_of_ascii a - 48).

Definition is_char (c : string) (a : Ascii.ascii) : bool :=
  match c with
  | String b EmptyString => Ascii.eqb a b
  | _ => false
  end.

(** The leading decimal digits of a string, and what follows them. *)
Fixpoint digits (s : string) : list Z * string :=
  match s with
  | String a rest =>
      if is_digit a
      then let '(ds, tail) := digits rest in (digit_value a :: ds, tail)
      else ([], s)
  | EmptyString => ([], EmptyString)
  end.

Definition decimal (ds : list Z) : Z := fold_left (fun acc d => 10 * acc + d)%Z ds 0%Z.

(** An optional sign: whether it was a minus, and what follows. *)
Definition read_sign (s : string) : bool * string :=
  match s with
  | String a rest =>
      if is_char "-" a then (true, rest)
      else if is_char "+" a then (false, rest)
      else (false, s)
  | EmptyString => (false, s)
  end.

(** An exponent part, [e] or [E] with an optional sign and at least one
    digit: its value and what follows.  Anything else is no exponent. *)
Definition read_exponent (s : string) : Z * string :=
  match s with
  | String a rest =>
      if is_char "e" a || is_char "E" a then
        let '(neg, rest) := read_sign rest in
        match digits rest with
        | ([], _) => (0%Z, s)
        | (ds, tail) => ((if neg then - decimal ds else decimal ds)%Z, tail)
        end
      else (0%Z, s)
  | EmptyString => (0%Z, s)
  end.

(** The fraction after a decimal point, if there is a point. *)
Definition read_fraction (s : string) : option (list Z) * string :=
  match s with
  | String a rest =>
      if is_char "." a
      then let '(fp, tail) := digits rest in (Some fp, tail)
      else (None, s)
  | EmptyString => (None, s)
  end.

(** [mantissa * 10^exponent] with [mantissa = ip.fp]. *)
Definition decimal_value (neg : bool) (ip fp : list Z) (exponent : Z) : Qc :=
  let m := (inject_Z (decimal (ip ++ fp))
            / inject_Z (10 ^ Z.of_nat (length fp)))%Q in
  let v := (m * Qpower (inject_Z 10) exponent)%Q in
  Q2Qc (if neg then - v else v)%Q.

(** [parseFloat(s)]: leading white space is skipped, the longest prefix
    that is a decimal literal is converted to the nearest double, and a
    string without such a prefix gives [NaN]. *)
Definition parseFloat (s : string) : number :=
  let s := trim_start s in
  let '(neg, s) := read_sign s in
  if String.prefix "Infinity" s then (if neg then NegInf else PosInf)
  else
    let '(ip, s1) := digits s in
    let '(frac_part, s2) := read_fraction s1 in
    let fp := default [] frac_part in
    match ip, fp with
    | [], [] => NaN
    | _, _ => binary64 (decimal_value neg ip fp (fst (read_exponent s2)))
    end.

(** The strings an [<input type="number">] can report as its [value]:
    the empty string, which stands for every entry the browser does not
    accept as a number, or a valid floating-point number in the sense of
    the HTML standard (an optional minus, digits and/or a point followed
    by digits, an optional exponent). *)
Definition valid_floating_point_number (s : string) : bool :=
  let s := match s with
           | String a rest => if is_char "-" a then rest else s
           | EmptyString => s
           end in
  let '(ip, s1) := digits s in
  let '(frac_part, s2) := read_fraction s1 in
  let mantissa_ok :=
    match frac_part with
    | Some fp => negb (bool_decide (fp = []))
    | None => negb (bool_decide (ip = []))
    end in
  let exponent_ok :=
    match s2 with
    | EmptyString => true
    | _ => match read_exponent s2 with
           | (_, EmptyString) => true
           | _ => false
           end
    end in
  mantissa_ok && exponent_ok.

Definition number_input_value (s : string) : Prop :=
  s = "" \/ valid_floating_point_number s = true.

(** Whether a number starts at the beginning of [s]: digits, or a point
    followed by digits. *)
Definition mantissa_found (s : string) : bool :=
  let '(ip, s1) := digits s in
  match fst (read_fraction s1) with
  | Some fp => negb (bool_decide (fp = []))
  | None => negb (bool_decide (ip = []))
  end.

(** ** JSON values and the browser *)

#[local] Set Warnings "-register-all".

(** What [JSON.parse] returns.  An object is its list of own properties. *)
Inductive json : Type :=
  | JNull
  | JBool (b : bool)
  | JNum (x : number)
  | JStr (s : string)
  | JArr (items : list json)
  | JObj (fields : list (string * json)).

(** [ToBoolean]. *)
Definition json_truthy (v : json) : bool :=
  match v with
  | JNull => false
  | JBool b => b
  | JNum x => truthy x
  | JStr s => negb (bool_decide (s = ""))
  | JArr _ | JObj _ => true
  end.

(** The outcome of an expression or of an awaited promise: a value, or a
    thrown [Error], of which the code only ever reads [message]. *)
Inductive Completion (A : Type) : Type :=
  | Normal (v : A)
  | Throw (message : string).
Arguments Normal {A} v.
Arguments Throw {A} message.

(** Builtins of the runtime that the code calls and that are not part of
    the repository. *)
Record Browser : Type := {
  JSON_parse : string -> option json;      (* [None]: SyntaxError *)
  JSON_stringify : json -> string;
  ToString : json -> string;               (* [String(v)], as [new Error(v)] applies it *)
  syntax_error_message : string;
  property_of_null_message : string;
  (* message of the TypeError raised by reading a body a second time *)
  body_used_message : string;
}.

(** [v.key] on a parsed value; [None] is [undefined]. *)
Definition get_property (B : Browser) (v : json) (key : string)
  : Completion (option json) :=
  match v with
  | JNull => Throw (property_of_null_message B)
  | JObj fields =>
      Normal (snd <$> List.find (fun kv => bool_decide (fst kv = key)) fields)
  | _ => Normal None
  end.

(** [x || fallback] where [x] may be [undefined]. *)
Definition or_else {A} (truth : A -> bool) (x : option A) (fallback : A) : A :=
  match x with
  | Some v => if truth v then v else fallback
  | None => fallback
  end.

(** *** fetch *)

Record Response : Type := {
  ok : bool;
  status : nat;
  statusText : string;
  body : string;
}.

(** A [Response] object in the page: the body can be read once. *)
Record ResponseObj : Type := { response : Response; bodyUsed : bool }.

Definition received (r : Response) : ResponseObj :=
  {| response := r; bodyUsed := false |}.

Definition consume (r : ResponseObj) : ResponseObj :=
  {| response := response r; bodyUsed := true |}.

(** [await response.text()] *)
Definition Response_text (B : Browser) (r : ResponseObj)
  : ResponseObj * Completion string :=
  if bodyUsed r then (r, Throw (body_used_message B))
  else (consume r, Normal (body (response r))).

(** [await response.json()]: reads the whole body, then parses it. *)
Definition Response_json (B : Browser) (r : ResponseObj)
  : ResponseObj * Completion json :=
  if bodyUsed r then (r, Throw (body_used_message B))
  else (consume r,
        match JSON_parse B (body (response r)) with
        | Some v => Normal v
        | None => Throw (syntax_error_message B)
        end).

(** How [await fetch(url)] ends: with a response of any status, or by
    throwing when the request could not be made. *)
Inductive FetchResult : Type :=
  | Http (r : Response)
  | NetworkError (message : string).

(** ** context/CurrencyContext (part_007) *)

Module CurrencyContext.

Inductive Currency : Type := USD | EUR.

#[global] Instance Currency_eq_dec : EqDecision Currency.
Proof. solve_decision. Defined.

Definition code (c : Currency) : string :=
  match c with USD => "USD" | EUR => "EUR" end.

(** The [currency] cell is initialised from storage through an unchecked
    cast, so it is kept as the string it is at run time. *)
Record State : Type := {
  currency : string;
  exchangeRate : number;          (* 1 USD = X EUR *)
}.

(** [(localStorage.getItem("preferred_currency") as Currency) || "USD"] *)
Definition initial (localStorage : gmap string string) : State :=
  {| currency := or_else (fun s => negb (bool_decide (s = "")))
                         (localStorage !! "preferred_currency") "USD";
     exchangeRate := frac 92 100 |}.

Definition setCurrency (c : Currency) (s : State) : State :=
  {| currency := code c; exchangeRate := exchangeRate s |}.

(** [fetchRate] after its awaits: [data.rate], when the response was
    JSON and carried a truthy one, replaces the stored rate. *)
Definition fetchRate_resume (r : Settled (option number)) (s : State) : State :=
  match r with
  | Fulfilled (Some rate) =>
      if truthy rate
      then {| currency := currency s; exchangeRate := rate |}
      else s
  | Fulfilled None | Rejected => s
  end.

Definition convert (s : State) (amount : number) (from : Currency) : number :=
  if negb (truthy amount) then num 0
  else if bool_decide (currency s = code from) then amount
  else if bool_decide (from = USD) && bool_decide (currency s = "EUR")
       then (amount * exchangeRate s)%js
  else if bool_decide (from = EUR) && bool_decide (currency s = "USD")
       then (amount / exchangeRate s)%js
  else amount.

(** The hourly timer and the mount effect both call [fetchRate]; the
    toggle in the header calls [setCurrency]. *)
Inductive Event : Type :=
  | SetCurrency (c : Currency)
  | RateSettled (r : Settled (option number)).

Definition step (s : State) (e : Event) : State :=
  match e with
  | SetCurrency c => setCurrency c s
  | RateSettled r => fetchRate_resume r s
  end.

Definition run (s : State) (es : list Event) : State := foldl step s es.

(** The backend sent a finite rate, or none. *)
Definition finite_rate (e : Event) : Prop :=
  match e with
  | RateSettled (Fulfilled (Some rate)) => is_finite rate = true
  | _ => True
  end.

End CurrencyContext.

(** ** App (part_006): AppContent inside CurrencyProvider *)

Module App.

Inductive Tab : Type := analyze | discovery | portfolio.

Definition Tab_name (t : Tab) : string :=
  match t with
  | analyze => "analyze" | discovery => "discovery" | portfolio => "portfolio"
  end.

Record State : Type := {
  activeTab : string;             (* read from storage through a cast *)
  analysis : json;                (* [JNull] is [null] *)
  loading : bool;
  error : option string;
  isChatOpen : bool;
  provider : CurrencyContext.State;
  localStorage : gmap string string;
  pending : list string;          (* tickers whose analysis is awaited *)
  out : list string;              (* URLs fetched, newest last *)
}.

Definition set_storage (k v : string) (s : State) : State :=
  {| activeTab := activeTab s; analysis := analysis s; loading := loading s;
     error := error s; isChatOpen := isChatOpen s; provider := provider s;
     localStorage := <[k := v]> (localStorage s);
     pending := pending s; out := out s |}.

Section WithBrowser.
Context (B : Browser).

(** The [useState] initialisers. *)
Definition initial (ls : gmap string string) : Completion State :=
  let tab := or_else (fun s => negb (bool_decide (s = "")))
                     (ls !! "activeTab") "analyze" in
  let saved :=
    match ls !! "lastAnalysis" with
    | Some text =>
        if bool_decide (text = "") then Normal JNull
        else match JSON_parse B text with
             | Some v => Normal v
             | None => Throw (syntax_error_message B)
             end
    | None => Normal JNull
    end in
  match saved with
  | Normal a =>
      Normal {| activeTab := tab; analysis := a; loading := false;
                error := None; isChatOpen := false;
                provider := CurrencyContext.initial ls;
                localStorage := ls; pending := []; out := [] |}
  | Throw m => Throw m
  end.

(** The three storage effects. *)
Definition effect_activeTab (s : State) : State :=
  set_storage "activeTab" (activeTab s) s.

Definition effect_analysis (s : State) : State :=
  if json_truthy (analysis s)
  then set_storage "lastAnalysis" (JSON_stringify B (analysis s)) s
  else s.

Definition effect_currency (s : State) : State :=
  set_storage "preferred_currency" (CurrencyContext.currency (provider s)) s.

Definition setActiveTab (t : string) (s : State) : State :=
  let s' := {| activeTab := t; analysis := analysis s; loading := loading s;
               error := error s; isChatOpen := isChatOpen s;
               provider := provider s; localStorage := localStorage s;
               pending := pending s; out := out s |} in
  if deps_changed (activeTab s) t then effect_activeTab s' else s'.

(** [setAnalysis(v)].  A parsed response is a fresh value, so the
    effect on [analysis] runs after every call; for [null] and the
    other falsy values its guard keeps it from writing. *)
Definition setAnalysis (v : json) (s : State) : State :=
  effect_analysis
    {| activeTab := activeTab s; analysis := v; loading := loading s;
       error := error s; isChatOpen := isChatOpen s;
       provider := provider s; localStorage := localStorage s;
       pending := pending s; out := out s |}.

Definition setProvider (p : CurrencyContext.State) (s : State) : State :=
  let s' := {| activeTab := activeTab s; analysis := analysis s;
               loading := loading s; error := error s;
               isChatOpen := isChatOpen s; provider := p;
               localStorage := localStorage s;
               pending := pending s; out := out s |} in
  if deps_changed (CurrencyContext.currency (provider s))
                  (CurrencyContext.currency p)
  then effect_currency s' else s'.

Definition setLoading (b : bool) (s : State) : State :=
  {| activeTab := activeTab s; analysis := analysis s; loading := b;
     error := error s; isChatOpen := isChatOpen s; provider := provider s;
     localStorage := localStorage s; pending := pending s; out := out s |}.

Definition setError (e : option string) (s : State) : State :=
  {| activeTab := activeTab s; analysis := analysis s; loading := loading s;
     error := e; isChatOpen := isChatOpen s; provider := provider s;
     localStorage := localStorage s; pending := pending s; out := out s |}.

Definition setIsChatOpen (b : bool) (s : State) : State :=
  {| activeTab := activeTab s; analysis := analysis s; loading := loading s;
     error := error s; isChatOpen := b; provider := provider s;
     localStorage := localStorage s; pending := pending s; out := out s |}.

Definition analyze_url (ticker : string) : string := "/api/analyze/" ++ ticker.

(** [handleSearch] up to [await fetch(...)]. *)
Definition handleSearch (ticker : string) (s : State) : State :=
  let s := setLoading true s in
  let s := setError None s in
  let s := setAnalysis JNull s in
  let s := setActiveTab "analyze" s in
  {| activeTab := activeTab s; analysis := analysis s; loading := loading s;
     error := error s; isChatOpen := isChatOpen s; provider := provider s;
     localStorage := localStorage s;
     pending := pending s ++ [ticker];
     out := out s ++ [analyze_url ticker] |}.

(** The [if (!response.ok)] block: what it throws.  The inner [try]
    covers [response.json()] and the read of [detail]; the inner
    [catch] reads the body as text before it builds the generic
    message. *)
Definition error_of_response (r0 : ResponseObj) : string :=
  let errorMsg := "Failed to fetch analysis" in
  let '(r1, parsed) := Response_json B r0 in
  let tried : Completion string :=
    match parsed with
    | Normal errData =>
        match get_property B errData "detail" with
        | Normal detail =>
            Normal (match detail with
                    | Some d => if json_truthy d then ToString B d else errorMsg
                    | None => errorMsg
                    end)
        | Throw m => Throw m
        end
    | Throw m => Throw m
    end in
  match tried with
  | Normal msg => msg
  | Throw _ =>
      let '(_, text) := Response_text B r1 in
      match text with
      | Normal _ =>
          "Server Error: " ++ pretty (status (response r1)) ++ " "
            ++ statusText (response r1)
      | Throw m => m
      end
  end.

(** The rest of [handleSearch], once [fetch] has settled. *)
Definition handleSearch_resume (r : FetchResult) (s : State) : State :=
  let s :=
    match r with
    | NetworkError m => setError (Some m) s
    | Http resp =>
        if ok resp then
          match snd (Response_json B (received resp)) with
          | Normal data => setAnalysis data s
          | Throw m => setError (Some m) s
          end
        else setError (Some (error_of_response (received resp))) s
    end in
  setLoading false s.

Inductive Event : Type :=
  | Mount
  | ClickTab (t : Tab)
  | ClickCurrency (c : CurrencyContext.Currency)
  | RateSettled (r : Settled (option number))
  | OpenChat (b : bool)
  | Search (ticker : string)
  | AnalyzeStock (ticker : string)          (* from the portfolio view *)
  | AnalyzeSettled (n : nat) (r : FetchResult).

Definition step (s : State) (e : Event) : State :=
  match e with
  | Mount => effect_currency (effect_analysis (effect_activeTab s))
  | ClickTab t => setActiveTab (Tab_name t) s
  | ClickCurrency c =>
      setProvider (CurrencyContext.setCurrency c (provider s)) s
  | RateSettled r =>
      setProvider (CurrencyContext.fetchRate_resume r (provider s)) s
  | OpenChat b => setIsChatOpen b s
  | Search ticker => handleSearch ticker s
  | AnalyzeStock ticker => handleSearch ticker (setActiveTab "analyze" s)
  | AnalyzeSettled n r =>
      match pending s !! n with
      | Some _ =>
          handleSearch_resume r
            {| activeTab := activeTab s; analysis := analysis s;
               loading := loading s; error := error s;
               isChatOpen := isChatOpen s; provider := provider s;
               localStorage := localStorage s;
               pending := delete n (pending s); out := out s |}
      | None => s
      end
  end.

Definition run (s : State) (es : list Event) : State := foldl step s es.

End WithBrowser.

(** The keys the application stores under. *)
Definition storage_keys : gset string :=
  {[ "activeTab"; "lastAnalysis"; "preferred_currency" ]}.

(** [s'] differs from [s] in storage at most under those keys. *)
Definition frames (s s' : State) : Prop :=
  forall k, k ∉ storage_keys -> localStorage s' !! k = localStorage s !! k.

End App.

(** *** What the storage holds about a state of the application *)

(** The stored tab and currency are the current ones, and when an
    analysis is shown the stored blob is its serialisation. *)
Definition storage_mirrors (B : Browser) (s : App.State) : Prop :=
  App.localStorage s !! "activeTab" = Some (App.activeTab s) /\
  App.localStorage s !! "preferred_currency" =
    Some (CurrencyContext.currency (App.provider s)) /\
  (json_truthy (App.analysis s) = true ->
   App.localStorage s !! "lastAnalysis" = Some (JSON_stringify B (App.analysis s))).

(** Tab and currency are never the empty string. *)
Definition named (s : App.State) : Prop :=
  App.activeTab s <> "" /\ CurrencyContext.currency (App.provider s) <> "".

(** ** hooks/usePortfolios (part_006) *)

Module usePortfolios.

Record Holding : Type := {
  ticker : string;
  shares : number;
  buyPrice : option number;         (* [None] is [undefined] *)
}.

Inductive Method : Type := GET | POST | DELETE.

#[global] Instance Method_eq_dec : EqDecision Method.
Proof. solve_decision. Defined.

(** The object handed to [JSON.stringify] for the request body. *)
Inductive Payload : Type :=
  | NewPortfolio (name : string)
  | NewHolding (ticker : string) (shares : number) (buy_price : option number).

Record Request : Type := {
  method : Method;
  url : string;
  payload : option Payload;
}.

(** How [await fetch(...)], followed where the code does so by
    [await response.json()], ends.  [Answer None] is a response whose body
    is not JSON; the status is never looked at. *)
Inductive Reply : Type :=
  | NetworkFailure
  | Answer (parsed : option json).

(** The four places where the hook waits for the network. *)
Inductive Continuation : Type :=
  | InFetchPortfolios
  | InCreatePortfolio
  | InDeletePortfolio (id : string)
  | InHoldingChange.                (* addHolding and removeHolding *)

(** The portfolios are kept as the parsed JSON they arrived as. *)
Record State : Type := {
  portfolios : list json;
  loading : bool;
  pending : list Continuation;
  out : list Request;               (* newest last *)
}.

Definition initial : State :=
  {| portfolios := []; loading := true; pending := []; out := [] |}.

Definition send (r : Request) (k : Continuation) (s : State) : State :=
  {| portfolios := portfolios s; loading := loading s;
     pending := pending s ++ [k]; out := out s ++ [r] |}.

Definition setPortfolios (ps : list json) (s : State) : State :=
  {| portfolios := ps; loading := loading s;
     pending := pending s; out := out s |}.

Definition setLoading (b : bool) (s : State) : State :=
  {| portfolios := portfolios s; loading := b;
     pending := pending s; out := out s |}.

Definition list_request : Request :=
  {| method := GET; url := "/api/portfolios"; payload := None |}.

Definition fetchPortfolios (s : State) : State := send list_request InFetchPortfolios s.

Definition createPortfolio (name : string) (s : State) : State :=
  send {| method := POST; url := "/api/portfolios";
          payload := Some (NewPortfolio name) |}
       InCreatePortfolio s.

Definition deletePortfolio (id : string) (s : State) : State :=
  send {| method := DELETE; url := "/api/portfolios/" ++ id; payload := None |}
       (InDeletePortfolio id) s.

Definition addHolding (portfolioId : string) (holding : Holding) (s : State) : State :=
  send {| method := POST; url := "/api/portfolios/" ++ portfolioId ++ "/holdings";
          payload := Some (NewHolding (ticker holding) (shares holding)
                                      (buyPrice holding)) |}
       InHoldingChange s.

Definition removeHolding (portfolioId ticker : string) (s : State) : State :=
  send {| method := DELETE;
          url := "/api/portfolios/" ++ portfolioId ++ "/holdings/" ++ ticker;
          payload := None |}
       InHoldingChange s.

(** [p.id !== id] for an entry of the list.  An entry that is not an
    object has no [id]. *)
Definition id_differs (id : string) (p : json) : bool :=
  match p with
  | JObj fields =>
      match snd <$> List.find (fun kv => bool_decide (fst kv = "id")) fields with
      | Some (JStr s) => negb (bool_decide (s = id))
      | _ => true
      end
  | _ => true
  end.

(** What runs when the awaited call of continuation [k] ends with [r]. *)
Definition resume (k : Continuation) (r : Reply) (s : State) : State :=
  match k with
  | InFetchPortfolios =>
      setLoading false
        match r with
        | Answer (Some (JArr data)) => setPortfolios data s
        | Answer (Some _) => setPortfolios [] s
        | Answer None | NetworkFailure => s
        end
  | InCreatePortfolio =>
      match r with
      | Answer (Some newPortfolio) => setPortfolios (portfolios s ++ [newPortfolio]) s
      | Answer None | NetworkFailure => s
      end
  | InDeletePortfolio id =>
      match r with
      | Answer _ => setPortfolios (filter (fun p => id_differs id p) (portfolios s)) s
      | NetworkFailure => s
      end
  | InHoldingChange =>
      match r with
      | Answer _ => fetchPortfolios s
      | NetworkFailure => s
      end
  end.

Inductive Event : Type :=
  | Mount
  | Refresh
  | CreatePortfolio (name : string)
  | DeletePortfolio (id : string)
  | AddHolding (portfolioId : string) (holding : Holding)
  | RemoveHolding (portfolioId ticker : string)
  | Settle (n : nat) (r : Reply).

Definition step (s : State) (e : Event) : State :=
  match e with
  | Mount | Refresh => fetchPortfolios s
  | CreatePortfolio name => createPortfolio name s
  | DeletePortfolio id => deletePortfolio id s
  | AddHolding pid h => addHolding pid h s
  | RemoveHolding pid t => removeHolding pid t s
  | Settle n r =>
      match pending s !! n with
      | Some k =>
          resume k r {| portfolios := portfolios s; loading := loading s;
                        pending := delete n (pending s); out := out s |}
      | None => s
      end
  end.

Definition run (s : State) (es : list Event) : State := foldl step s es.

End usePortfolios.

(** ** SearchBar.tsx *)

Module SearchBar.

(** The two requests the component makes:
    [/api/search/suggestions] and [/api/search/suggestions?q=<query>]. *)
Inductive Request : Type :=
  | Defaults
  | Query (trimmedQuery : string).

(** What the body of an answer holds: the categories for the first
    request, the [Matches] field (if any) for the second. *)
Inductive Reply : Type :=
  | Categories (data : list (string * list string))
  | Matches (data : option (list string))
  | Failed.

Record State : Type := {
  query : string;
  suggestions : list (string * list string);
  showDropdown : bool;
  debounceTimer : option string;   (* the armed timeout and the query it captured *)
  pending : list Request;
  out : list Request;              (* newest last *)
}.

Definition initial : State :=
  {| query := ""; suggestions := []; showDropdown := false;
     debounceTimer := None; pending := []; out := [] |}.

Definition fetch (r : Request) (s : State) : State :=
  {| query := query s; suggestions := suggestions s;
     showDropdown := showDropdown s; debounceTimer := debounceTimer s;
     pending := pending s ++ [r]; out := out s ++ [r] |}.

Definition setTimer (t : option string) (s : State) : State :=
  {| query := query s; suggestions := suggestions s;
     showDropdown := showDropdown s; debounceTimer := t;
     pending := pending s; out := out s |}.

Definition setSuggestions (v : list (string * list string)) (s : State) : State :=
  {| query := query s; suggestions := v;
     showDropdown := showDropdown s; debounceTimer := debounceTimer s;
     pending := pending s; out := out s |}.

(** The effect on [query]. *)
Definition query_effect (s : State) : State :=
  let trimmedQuery := trim (query s) in
  if bool_decide (1 < String.length trimmedQuery)%nat then
    (* clearTimeout, then setTimeout(..., 300) *)
    setTimer (Some trimmedQuery) s
  else if bool_decide (String.length trimmedQuery = 0%nat) then
    fetch Defaults s
  else s.

(** The timeout callback. *)
Definition timer_fires (s : State) : State :=
  match debounceTimer s with
  | Some trimmedQuery => fetch (Query trimmedQuery) (setTimer None s)
  | None => s
  end.

Definition resume (r : Request) (reply : Reply) (s : State) : State :=
  match r, reply with
  | Defaults, Categories data => setSuggestions data s
  | Query trimmedQuery, Matches data =>
      match data with
      | Some (m :: ms) => setSuggestions [("Top Matches", m :: ms)] s
      | _ =>
          if bool_decide (0 < String.length trimmedQuery)%nat
          then setSuggestions [] s else s
      end
  | _, _ => s
  end.

Inductive Event : Type :=
  | Mount
  | Type_ (text : string)          (* onChange of the input *)
  | TimerFires
  | Settle (n : nat) (reply : Reply).

Definition step (s : State) (e : Event) : State :=
  match e with
  | Mount => query_effect (fetch Defaults s)
  | Type_ text =>
      if deps_changed (query s) text
      then query_effect
             {| query := text; suggestions := suggestions s;
                showDropdown := showDropdown s; debounceTimer := debounceTimer s;
                pending := pending s; out := out s |}
      else s
  | TimerFires => timer_fires s
  | Settle n reply =>
      match pending s !! n with
      | Some r =>
          resume r reply
            {| query := query s; suggestions := suggestions s;
               showDropdown := showDropdown s; debounceTimer := debounceTimer s;
               pending := delete n (pending s); out := out s |}
      | None => s
      end
  end.

Definition run (s : State) (es : list Event) : State := foldl step s es.

(** Every request that carries a query carries one of two or more
    characters, and so does an armed timer. *)
Definition long_query (r : Request) : Prop :=
  match r with
  | Defaults => True
  | Query q => (2 <= String.length q)%nat
  end.

Definition well_formed (s : State) : Prop :=
  Forall long_query (out s) /\
  match debounceTimer s with
  | Some q => (2 <= String.length q)%nat
  | None => True
  end.

End SearchBar.

(** ** SearchBar.tsx: the form *)

Module SearchBarForm.

(** [handleSubmit], as the list of calls of [onSearch] it makes. *)
Definition handleSubmit (query : string) : list string :=
  if nonempty (trim query) then [toUpperCase (trim query)] else [].

End SearchBarForm.

(** The strings on which [toUpperCase] above is the one of the platform:
    those of code units below 128. *)
Fixpoint ascii_only (s : string) : bool :=
  match s with
  | String a rest => Nat.ltb (Ascii.nat_of_ascii a) 128 && ascii_only rest
  | EmptyString => true
  end.

(** An input of at least two characters after trimming. *)
Definition long_text (text : string) : Prop :=
  (2 <= String.length (trim text))%nat.

(** ** DiscoveryPanel (part_001): ETF search and selection *)

Module DiscoveryPanel.

Record Etf : Type := {
  ticker : string;
  name : string;
  ter : number;
  change : number;
  category : option string;
}.

(** An entry of the search results. *)
Record SearchResult : Type := {
  res_ticker : string;
  res_name : string;
  res_exchange : string;
}.

(** The fields read from the answer of [/api/analysis/basic]; [None] is a
    field (or its parent object) that is missing. *)
Record BasicAnalysis : Type := {
  etf_analysis_ter : option number;
  price_data_change_1w : option number;
  etf_analysis_category : option string;
}.

Inductive Request : Type :=
  | SearchRequest (query : string)          (* /api/search?q=<query> *)
  | BasicRequest (ticker : string).         (* /api/analysis/basic?ticker=<ticker> *)

(** The calls that wait for the network, with what their closure holds:
    [addSearchedEtf] reads the [selectedEtfs] of the render it was
    created in. *)
Inductive Continuation : Type :=
  | InHandleSearch
  | InAddSearchedEtf (res : SearchResult) (selectedEtfs : list Etf).

(** The eleven list fetches of the mount effect play no part in the
    search and selection logic; of their results only [etfs] is kept. *)
Record State : Type := {
  etfs : list Etf;
  selectedEtfs : list Etf;
  isComparing : bool;
  searchQuery : string;
  searchResults : list SearchResult;
  isSearching : bool;
  pending : list Continuation;
  out : list Request;               (* newest last *)
}.

Definition initial (explorer : list Etf) : State :=
  {| etfs := explorer; selectedEtfs := []; isComparing := false;
     searchQuery := ""; searchResults := []; isSearching := false;
     pending := []; out := [] |}.

Definition setSelectedEtfs (l : list Etf) (s : State) : State :=
  {| etfs := etfs s; selectedEtfs := l; isComparing := isComparing s;
     searchQuery := searchQuery s; searchResults := searchResults s;
     isSearching := isSearching s; pending := pending s; out := out s |}.

Definition setIsComparing (b : bool) (s : State) : State :=
  {| etfs := etfs s; selectedEtfs := selectedEtfs s; isComparing := b;
     searchQuery := searchQuery s; searchResults := searchResults s;
     isSearching := isSearching s; pending := pending s; out := out s |}.

Definition setSearchQuery (q : string) (s : State) : State :=
  {| etfs := etfs s; selectedEtfs := selectedEtfs s; isComparing := isComparing s;
     searchQuery := q; searchResults := searchResults s;
     isSearching := isSearching s; pending := pending s; out := out s |}.

Definition setSearchResults (l : list SearchResult) (s : State) : State :=
  {| etfs := etfs s; selectedEtfs := selectedEtfs s; isComparing := isComparing s;
     searchQuery := searchQuery s; searchResults := l;
     isSearching := isSearching s; pending := pending s; out := out s |}.

Definition setIsSearching (b : bool) (s : State) : State :=
  {| etfs := etfs s; selectedEtfs := selectedEtfs s; isComparing := isComparing s;
     searchQuery := searchQuery s; searchResults := searchResults s;
     isSearching := b; pending := pending s; out := out s |}.

Definition send (r : Request) (k : Continuation) (s : State) : State :=
  {| etfs := etfs s; selectedEtfs := selectedEtfs s; isComparing := isComparing s;
     searchQuery := searchQuery s; searchResults := searchResults s;
     isSearching := isSearching s;
     pending := pending s ++ [k]; out := out s ++ [r] |}.

(** [selectedEtfs.some((s) => s.ticker === t)] *)
Definition isSelected (t : string) (s : State) : bool :=
  existsb (fun e => bool_decide (ticker e = t)) (selectedEtfs s).

(** [handleSearch] up to its [await]. *)
Definition handleSearch (query : string) (s : State) : State :=
  let s := setSearchQuery query s in
  if bool_decide (String.length query < 2)%nat then setSearchResults [] s
  else send (SearchRequest query) InHandleSearch (setIsSearching true s).

Definition handleSearch_resume (r : Settled (list SearchResult)) (s : State) : State :=
  setIsSearching false
    match r with
    | Fulfilled data => setSearchResults data s
    | Rejected => s
    end.

(** [addSearchedEtf] up to its [await]. *)
Definition addSearchedEtf (res : SearchResult) (s : State) : State :=
  send (BasicRequest (res_ticker res)) (InAddSearchedEtf res (selectedEtfs s)) s.

Definition addSearchedEtf_resume (res : SearchResult) (captured : list Etf)
    (r : Settled BasicAnalysis) (s : State) : State :=
  let s :=
    match r with
    | Fulfilled data =>
        let newEtf :=
          {| ticker := res_ticker res; name := res_name res;
             ter := or_else truthy (etf_analysis_ter data) (num 0);
             change := or_else truthy (price_data_change_1w data) (num 0);
             category := Some (or_else nonempty (etf_analysis_category data) "Diverse") |} in
        if bool_decide (length captured < 3)%nat
        then setSelectedEtfs (captured ++ [newEtf]) s else s
    | Rejected =>
        if bool_decide (length captured < 3)%nat
        then setSelectedEtfs
               (captured ++ [ {| ticker := res_ticker res; name := res_name res;
                                 ter := num 0; change := num 0;
                                 category := None |} ]) s
        else s
    end in
  setSearchResults [] (setSearchQuery "" s).

(** The click handler of an explorer card. *)
Definition click_card (etf : Etf) (s : State) : State :=
  if isSelected (ticker etf) s then
    setSelectedEtfs
      (filter (fun e => negb (bool_decide (ticker e = ticker etf))) (selectedEtfs s)) s
  else if bool_decide (length (selectedEtfs s) < 3)%nat then
    setSelectedEtfs (selectedEtfs s ++ [etf]) s
  else s.

(** The click handler of a search result. *)
Definition click_result (res : SearchResult) (s : State) : State :=
  if negb (isSelected (res_ticker res) s) then addSearchedEtf res s
  else setSearchResults [] (setSearchQuery "" s).

(** The compare button is [disabled] when fewer than two funds are
    selected and no comparison is open. *)
Definition compare_disabled (s : State) : bool :=
  bool_decide (length (selectedEtfs s) < 2)%nat && negb (isComparing s).

Definition click_compare (s : State) : State :=
  if compare_disabled s then s else setIsComparing (negb (isComparing s)) s.

Inductive Event : Type :=
  | ClickCard (etf : Etf)
  | ClickResult (res : SearchResult)
  | ClearSelection
  | ClickCompare
  | Type_ (text : string)
  | SearchSettled (n : nat) (r : Settled (list SearchResult))
  | BasicSettled (n : nat) (r : Settled BasicAnalysis).

Definition drop_pending (n : nat) (s : State) : State :=
  {| etfs := etfs s; selectedEtfs := selectedEtfs s; isComparing := isComparing s;
     searchQuery := searchQuery s; searchResults := searchResults s;
     isSearching := isSearching s;
     pending := delete n (pending s); out := out s |}.

Definition step (s : State) (e : Event) : State :=
  match e with
  | ClickCard etf => click_card etf s
  | ClickResult res => click_result res s
  | ClearSelection => setSelectedEtfs [] s
  | ClickCompare => click_compare s
  | Type_ text => handleSearch text s
  | SearchSettled n r =>
      match pending s !! n with
      | Some InHandleSearch => handleSearch_resume r (drop_pending n s)
      | _ => s
      end
  | BasicSettled n r =>
      match pending s !! n with
      | Some (InAddSearchedEtf res captured) =>
          addSearchedEtf_resume res captured r (drop_pending n s)
      | _ => s
      end
  end.

Definition run (s : State) (es : list Event) : State := foldl step s es.

End DiscoveryPanel.

(** *** The selection holds each fund once *)

(** A waiting [addSearchedEtf] holds the selection it saw, in which its
    own fund does not occur. *)
Definition addition_ok (k : DiscoveryPanel.Continuation) : Prop :=
  match k with
  | DiscoveryPanel.InAddSearchedEtf res captured =>
      NoDup (map DiscoveryPanel.ticker captured) /\
      DiscoveryPanel.res_ticker res ∉ map DiscoveryPanel.ticker captured
  | DiscoveryPanel.InHandleSearch => True
  end.

Definition distinct_tickers (s : DiscoveryPanel.State) : Prop :=
  NoDup (map DiscoveryPanel.ticker (DiscoveryPanel.selectedEtfs s)) /\
  Forall addition_ok (DiscoveryPanel.pending s).

(** ** AddHoldingModal.tsx and PortfolioView.handleAddHolding *)

Module AddHoldingModal.

(** What a click on "Hinzufügen" does to the outside. *)
Inductive Call : Type :=
  | onAdd (portfolioId : string) (holding : usePortfolios.Holding)
  | onClose.

Record State : Type := {
  ticker : string;
  shares : string;
  buyPrice : string;
  selectedPortfolioId : string;
}.

(** [useState] initialisers: [initialTicker], ["1"], [""] and the id of
    the first portfolio, or [""] when there is none. *)
Definition initial (initialTicker : string) (portfolioIds : list string) : State :=
  {| ticker := initialTicker; shares := "1"; buyPrice := "";
     selectedPortfolioId := default "" (head portfolioIds) |}.

Definition handleAdd (ctx : CurrencyContext.State) (s : State) : list Call :=
  if negb (nonempty (ticker s)) || negb (nonempty (shares s))
     || negb (nonempty (selectedPortfolioId s))
  then []
  else
    let priceInUSD :=
      if nonempty (buyPrice s) then Some (parseFloat (buyPrice s)) else None in
    let priceInUSD :=
      match priceInUSD with
      | Some p =>
          if bool_decide (CurrencyContext.currency ctx = "EUR")
          then Some (p / CurrencyContext.exchangeRate ctx)%js
          else Some p
      | None => None
      end in
    [ onAdd (selectedPortfolioId s)
        {| usePortfolios.ticker := toUpperCase (ticker s);
           usePortfolios.shares := parseFloat (shares s);
           usePortfolios.buyPrice := priceInUSD |};
      onClose ].

(** The [onChange] handlers of the three inputs and of the select. *)
Inductive Event : Type :=
  | TypeTicker (value : string)
  | TypeShares (value : string)       (* value of an input of type number *)
  | TypeBuyPrice (value : string)     (* value of an input of type number *)
  | SelectPortfolio (id : string).

Definition step (s : State) (e : Event) : State :=
  match e with
  | TypeTicker v =>
      {| ticker := toUpperCase v; shares := shares s; buyPrice := buyPrice s;
         selectedPortfolioId := selectedPortfolioId s |}
  | TypeShares v =>
      {| ticker := ticker s; shares := v; buyPrice := buyPrice s;
         selectedPortfolioId := selectedPortfolioId s |}
  | TypeBuyPrice v =>
      {| ticker := ticker s; shares := shares s; buyPrice := v;
         selectedPortfolioId := selectedPortfolioId s |}
  | SelectPortfolio id =>
      {| ticker := ticker s; shares := shares s; buyPrice := buyPrice s;
         selectedPortfolioId := id |}
  end.

(** The shares field holds what a number input reported. *)
Definition from_number_input (e : Event) : Prop :=
  match e with
  | TypeShares v => number_input_value v
  | _ => True
  end.

End AddHoldingModal.

Module PortfolioView.

Record NewHolding : Type := {
  ticker : string;
  shares : string;
  buyPrice : string;
}.

Inductive Call : Type :=
  | onAddHolding (portfolioId : string) (holding : usePortfolios.Holding).

(** [handleAddHolding]: the calls it makes and the [newHolding] and
    [showAddHoldingModal] it leaves. *)
Definition handleAddHolding (selectedPortfolio : option string)
    (newHolding : NewHolding) (showAddHoldingModal : bool)
  : list Call * NewHolding * bool :=
  match selectedPortfolio with
  | Some id =>
      if nonempty id && nonempty (ticker newHolding) && nonempty (shares newHolding)
      then
        ([ onAddHolding id
             {| usePortfolios.ticker := toUpperCase (ticker newHolding);
                usePortfolios.shares := parseFloat (shares newHolding);
                usePortfolios.buyPrice :=
                  if nonempty (buyPrice newHolding)
                  then Some (parseFloat (buyPrice newHolding)) else None |} ],
         {| ticker := ""; shares := ""; buyPrice := "" |}, false)
      else ([], newHolding, showAddHoldingModal)
  | None => ([], newHolding, showAddHoldingModal)
  end.

End PortfolioView.

(** ** AddHoldingModal.tsx: the effect that fills the fields *)

#[global] Instance number_eq_dec : EqDecision number.
Proof. intros x y. unfold Decision. decide equality. apply Qc_eq_dec. Defined.

Module HoldingModal.

(** The props and the currency context beside the four cells of the
    form, which are those of [AddHoldingModal.State]. *)
Record State : Type := {
  portfolios : list string;          (* prop: the ids, in order *)
  initialTicker : string;            (* prop, [""] by default *)
  initialPrice : option number;      (* prop *)
  context : CurrencyContext.State;   (* [useCurrency()] *)
  form : AddHoldingModal.State;
}.

Definition initial (portfolios : list string) (initialTicker : string)
    (initialPrice : option number) (context : CurrencyContext.State) : State :=
  {| portfolios := portfolios; initialTicker := initialTicker;
     initialPrice := initialPrice; context := context;
     form := AddHoldingModal.initial initialTicker portfolios |}.

Definition with_form (f : AddHoldingModal.State) (s : State) : State :=
  {| portfolios := portfolios s; initialTicker := initialTicker s;
     initialPrice := initialPrice s; context := context s; form := f |}.

Section WithPlatform.
(** [x.toFixed(digits)] *)
Variable toFixed : number -> nat -> string.

(** What the effect writes into the price field: [initialPrice] in the
    active currency, or nothing. *)
Definition display_price (s : State) : string :=
  match initialPrice s with
  | Some p =>
      if truthy p
      then toFixed (CurrencyContext.convert (context s) p CurrencyContext.USD) 2
      else ""
  | None => ""
  end.

(** One run of the effect on
    [initialTicker, initialPrice, portfolios, selectedPortfolioId, currency]. *)
Definition effect (s : State) : State :=
  let f := form s in
  with_form
    {| AddHoldingModal.ticker :=
         if nonempty (initialTicker s) then initialTicker s
         else AddHoldingModal.ticker f;
       AddHoldingModal.shares := AddHoldingModal.shares f;
       AddHoldingModal.buyPrice := display_price s;
       AddHoldingModal.selectedPortfolioId :=
         match portfolios s with
         | first :: _ =>
             if negb (nonempty (AddHoldingModal.selectedPortfolioId f))
             then first else AddHoldingModal.selectedPortfolioId f
         | [] => AddHoldingModal.selectedPortfolioId f
         end |}
    s.

(** The effect and, when it has changed [selectedPortfolioId], which is
    one of its dependencies, its second run. *)
Definition run_effect (s : State) : State :=
  let s' := effect s in
  if deps_changed (AddHoldingModal.selectedPortfolioId (form s))
                  (AddHoldingModal.selectedPortfolioId (form s'))
  then effect s' else s'.

Inductive Event : Type :=
  | Mount
  | Input (e : AddHoldingModal.Event)
  | SetPortfolios (ids : list string)        (* a new array from the parent *)
  | SetInitial (ticker : string) (price : option number)
  | SetContext (ctx : CurrencyContext.State).

Definition step (s : State) (e : Event) : State :=
  match e with
  | Mount => run_effect s
  | Input ev =>
      let s' := with_form (AddHoldingModal.step (form s) ev) s in
      if deps_changed (AddHoldingModal.selectedPortfolioId (form s))
                      (AddHoldingModal.selectedPortfolioId (form s'))
      then run_effect s' else s'
  | SetPortfolios ids =>
      run_effect
        {| portfolios := ids; initialTicker := initialTicker s;
           initialPrice := initialPrice s; context := context s; form := form s |}
  | SetInitial t p =>
      let s' := {| portfolios := portfolios s; initialTicker := t;
                   initialPrice := p; context := context s; form := form s |} in
      if deps_changed (initialTicker s, initialPrice s) (t, p)
      then run_effect s' else s'
  | SetContext ctx =>
      let s' := {| portfolios := portfolios s; initialTicker := initialTicker s;
                   initialPrice := initialPrice s; context := ctx; form := form s |} in
      if deps_changed (CurrencyContext.currency (context s))
                      (CurrencyContext.currency ctx)
      then run_effect s' else s'
  end.

Definition run (s : State) (es : list Event) : State := foldl step s es.

(** The click on the button, with the context of the render. *)
Definition handleAdd (s : State) : list AddHoldingModal.Call :=
  AddHoldingModal.handleAdd (context s) (form s).

End WithPlatform.

(** The events after which the effect runs. *)
Definition reruns_effect (s : State) (e : Event) : Prop :=
  match e with
  | Mount | SetPortfolios _ => True
  | Input (AddHoldingModal.SelectPortfolio id) =>
      id <> AddHoldingModal.selectedPortfolioId (form s)
  | Input _ => False
  | SetInitial t p => (initialTicker s, initialPrice s) <> (t, p)
  | SetContext ctx =>
      CurrencyContext.currency (context s) <> CurrencyContext.currency ctx
  end.

(** The two number fields report what a number input reports. *)
Definition from_number_input (e : Event) : Prop :=
  match e with
  | Input ev => AddHoldingModal.from_number_input ev
  | _ => True
  end.

End HoldingModal.

(** ** PortfolioView (part_002): the cells around [handleAddHolding] *)

Module PortfolioViewForm.

Record State : Type := {
  selectedPortfolio : option string;
  newHolding : PortfolioView.NewHolding;
  showAddHoldingModal : bool;
  out : list PortfolioView.Call;          (* newest last *)
}.

(** [useState(null)], [useState({ ticker: "", shares: "", buyPrice: "" })]
    and [useState(false)]. *)
Definition initial : State :=
  {| selectedPortfolio := None;
     newHolding := {| PortfolioView.ticker := ""; PortfolioView.shares := "";
                      PortfolioView.buyPrice := "" |};
     showAddHoldingModal := false; out := [] |}.

(** Every place that writes one of the three cells, and the handler
    itself. *)
Inductive Event : Type :=
  | SelectPortfolio (id : option string)   (* a portfolio card, or its deletion *)
  | Suggest (ticker : string)              (* [onAdd] of the asset suggestions *)
  | OpenModal
  | CloseModal
  | HandleAddHolding.

Definition step (s : State) (e : Event) : State :=
  match e with
  | SelectPortfolio id =>
      {| selectedPortfolio := id; newHolding := newHolding s;
         showAddHoldingModal := showAddHoldingModal s; out := out s |}
  | Suggest t =>
      {| selectedPortfolio := selectedPortfolio s;
         newHolding := {| PortfolioView.ticker := t; PortfolioView.shares := "1";
                          PortfolioView.buyPrice := "" |};
         showAddHoldingModal := true; out := out s |}
  | OpenModal =>
      {| selectedPortfolio := selectedPortfolio s; newHolding := newHolding s;
         showAddHoldingModal := true; out := out s |}
  | CloseModal =>
      {| selectedPortfolio := selectedPortfolio s; newHolding := newHolding s;
         showAddHoldingModal := false; out := out s |}
  | HandleAddHolding =>
      let '(calls, h, shown) :=
        PortfolioView.handleAddHolding (selectedPortfolio s) (newHolding s)
          (showAddHoldingModal s) in
      {| selectedPortfolio := selectedPortfolio s; newHolding := h;
         showAddHoldingModal := shown; out := out s ++ calls |}
  end.

Definition run (s : State) (es : list Event) : State := foldl step s es.

End PortfolioViewForm.
(** ** MarketSentiment.tsx *)

(** [Array.prototype.sort] with a comparator.  The sort is stable; for a
    comparator that is a consistent ordering its result is the one of
    this insertion sort, which moves an element past those the comparator
    puts before it ([cmp x y > 0]). *)
Fixpoint insert_by {A} (cmp : A -> A -> number) (x : A) (l : list A) : list A :=
  match l with
  | [] => [x]
  | y :: rest => if gt0 (cmp x y) then y :: insert_by cmp x rest else x :: l
  end.

Definition Array_sort {A} (cmp : A -> A -> number) (l : list A) : list A :=
  foldr (insert_by cmp) [] l.

Module MarketSentiment.

Record HotStock : Type := {
  ticker : string;
  price : number;
  change_1w : number;
  name : string;
}.

(** Arrays are objects: an entry refers to its [hot_stocks] array by
    location, and [None] is an entry without the field. *)
Definition loc : Type := nat.

Record HeatmapItem : Type := {
  sector : string;
  sentiment_score : number;
  status : string;
  strength : number;
  hot_stocks : option loc;
}.

(** The array held by the [heatmap] state cell, and the arrays of hot
    stocks that exist in the page. *)
Record Store : Type := {
  heatmap : list HeatmapItem;
  arrays : gmap loc (list HotStock);
}.

Definition by_strength (a b : HeatmapItem) : number := (strength b - strength a)%js.
Definition by_change (a b : HotStock) : number := (change_1w b - change_1w a)%js.

(** [[...(src || [])]]: a new array with the elements of [src]. *)
Definition spread (src : option loc) (h : gmap loc (list HotStock))
  : loc * gmap loc (list HotStock) :=
  let items := match src with
               | Some l => default [] (h !! l)
               | None => []
               end in
  let l' := fresh (dom h) in
  (l', <[l' := items]> h).

(** [array.sort(cmp)] reorders the array object itself. *)
Definition sort_in_place (l : loc) (h : gmap loc (list HotStock))
  : gmap loc (list HotStock) :=
  match h !! l with
  | Some xs => <[l := Array_sort by_change xs]> h
  | None => h
  end.

(** What is drawn for one sector: the entry and its [sortedStocks]. *)
Record Card : Type := {
  item : HeatmapItem;
  sortedStocks : loc;
}.

(** The callback of [.map], applied from left to right. *)
Fixpoint render_items (items : list HeatmapItem) (h : gmap loc (list HotStock))
  : list Card * gmap loc (list HotStock) :=
  match items with
  | [] => ([], h)
  | i :: rest =>
      let '(l, h1) := spread (hot_stocks i) h in
      let h2 := sort_in_place l h1 in
      let '(cards, h3) := render_items rest h2 in
      ({| item := i; sortedStocks := l |} :: cards, h3)
  end.

(** One render of the loaded component: [heatmap.sort(...)] sorts the
    state array where it is, [.map(...)] builds the cards. *)
Definition render (s : Store) : list Card * Store :=
  let sorted := Array_sort by_strength (heatmap s) in
  let '(cards, h) := render_items sorted (arrays s) in
  (cards, {| heatmap := sorted; arrays := h |}).

(** The stocks an entry came with. *)
Definition stocks_of (s : Store) (i : HeatmapItem) : list HotStock :=
  match hot_stocks i with
  | Some l => default [] (arrays s !! l)
  | None => []
  end.

(** A heatmap as [response.json()] delivers it: every figure that is
    sorted on is a number, and the [hot_stocks] of an entry is an array
    that exists. *)
Definition well_formed (s : Store) : Prop :=
  (forall i, i ∈ heatmap s -> is_nan (strength i) = false) /\
  (forall l xs x, arrays s !! l = Some xs -> x ∈ xs -> is_nan (change_1w x) = false) /\
  (forall i l, i ∈ heatmap s -> hot_stocks i = Some l -> is_Some (arrays s !! l)).

(** [a] may stand before [b]: non-increasing strength, and non-increasing
    one-week change. *)
Definition strength_ge (a b : HeatmapItem) : Prop := num_le (strength b) (strength a).
Definition change_ge (a b : HotStock) : Prop := num_le (change_1w b) (change_1w a).

End MarketSentiment.

(** ** PortfolioHeatmap.tsx *)

Module PortfolioHeatmap.

Record Holding : Type := {
  ticker : string;
  name : string;
  shares : number;
  current_price : number;
  position_value : number;
}.

(** An element of [data], the input of the treemap. *)
Record Tile : Type := {
  tile_name : string;
  tile_ticker : string;
  size : number;
  tile_position_value : number;
}.

Definition tile (h : Holding) : Tile :=
  {| tile_name := name h; tile_ticker := ticker h;
     size := position_value h; tile_position_value := position_value h |}.

Definition by_size (a b : Tile) : number := (size b - size a)%js.

Definition data (holdings : list Holding) : list Tile :=
  Array_sort by_size
    (map tile (List.filter (fun h => gt0 (position_value h)) holdings)).

(** The component: [None] is [return null], otherwise the tiles given to
    the treemap, whose number is also the asset count shown below it. *)
Definition render (holdings : list Holding) : option (list Tile) :=
  let data := data holdings in
  if Nat.eqb (length data) 0 then None else Some data.

(** [a] may stand before [b]. *)
Definition size_ge (a b : Tile) : Prop := num_le (size b) (size a).

End PortfolioHeatmap.

(** ** BrokerChat.tsx *)

Module BrokerChat.

Inductive Role : Type := user | oracle.

#[global] Instance Role_eq_dec : EqDecision Role.
Proof. solve_decision. Defined.

(** [content] is a string for what the user typed and for the two fixed
    texts; for an answer it is whatever [data.response] is, [None] being
    [undefined]. *)
Record Message : Type := {
  role : Role;
  content : option json;
}.

(** The [currentTicker] prop: absent, a string, or an array of strings. *)
Inductive CurrentTicker : Type :=
  | Absent
  | Single (t : string)
  | Several (ts : list string).

(** The body posted to [/api/oracle/chat], before [JSON.stringify]. *)
Record Request : Type := {
  message : string;
  context_ticker : option string;
}.

Record State : Type := {
  initialMessage : option string;
  currentTicker : CurrentTicker;
  messages : list Message;
  input : string;
  loading : bool;
  pending : list Request;
  out : list Request;            (* newest last *)
}.

(** The two fixed texts, in the bytes of the source file. *)
Definition greeting : string :=
  "Hallo! Ich bin dein Broker Freund AI. Ich kenne dein Portfolio und den Markt. Was möchtest du wissen?".

Definition apology : string :=
  "Entschuldigung, Verbindung unterbrochen. Versuche es gleich nochmal.".

Definition initial (initialMessage : option string) (currentTicker : CurrentTicker)
  : State :=
  {| initialMessage := initialMessage; currentTicker := currentTicker;
     messages := []; input := ""; loading := false; pending := []; out := [] |}.

Definition setMessages (f : list Message -> list Message) (s : State) : State :=
  {| initialMessage := initialMessage s; currentTicker := currentTicker s;
     messages := f (messages s); input := input s; loading := loading s;
     pending := pending s; out := out s |}.

Definition setInput (v : string) (s : State) : State :=
  {| initialMessage := initialMessage s; currentTicker := currentTicker s;
     messages := messages s; input := v; loading := loading s;
     pending := pending s; out := out s |}.

Definition setLoading (v : bool) (s : State) : State :=
  {| initialMessage := initialMessage s; currentTicker := currentTicker s;
     messages := messages s; input := input s; loading := v;
     pending := pending s; out := out s |}.

Definition send (r : Request) (s : State) : State :=
  {| initialMessage := initialMessage s; currentTicker := currentTicker s;
     messages := messages s; input := input s; loading := loading s;
     pending := pending s ++ [r]; out := out s ++ [r] |}.

Definition says (who : Role) (text : string) : Message :=
  {| role := who; content := Some (JStr text) |}.

(** The effect on [initialMessage]. *)
Definition effect_initialMessage (s : State) : State :=
  match initialMessage s with
  | Some m =>
      if nonempty m then setMessages (fun _ => [says oracle m]) s
      else setMessages (fun _ => [says oracle greeting]) s
  | None => setMessages (fun _ => [says oracle greeting]) s
  end.

Definition context_of (c : CurrentTicker) : option string :=
  match c with
  | Several ts => Some (String.concat "," ts)
  | Single t => Some t
  | Absent => None
  end.

(** [handleSend] up to its first [await].  The request carries [input]
    as the render saw it; the bubble shows it trimmed. *)
Definition handleSend (s : State) : State :=
  if negb (nonempty (trim (input s))) || loading s then s
  else
    let userMsg := trim (input s) in
    let request := {| message := input s;
                      context_ticker := context_of (currentTicker s) |} in
    send request
      (setLoading true
         (setMessages (fun prev => prev ++ [says user userMsg])
            (setInput "" s))).

Section WithBrowser.
Variable B : Browser.

(** [handleSend] from the settled [fetch] on. *)
Definition handleSend_resume (r : FetchResult) (s : State) : State :=
  let sorry := setMessages (fun prev => prev ++ [says oracle apology]) in
  let s :=
    match r with
    | NetworkError _ => sorry s
    | Http resp =>
        match snd (Response_json B (received resp)) with
        | Normal data =>
            match get_property B data "response" with
            | Normal v =>
                setMessages
                  (fun prev => prev ++ [{| role := oracle; content := v |}]) s
            | Throw _ => sorry s
            end
        | Throw _ => sorry s
        end
    end in
  setLoading false s.

(** [Send] is the Enter key in the field or the button beside it,
    wherever the chat is shown. *)
Inductive Event : Type :=
  | Mount
  | SetProps (initialMessage : option string) (currentTicker : CurrentTicker)
  | Type_ (text : string)
  | Send
  | Settle (n : nat) (r : FetchResult).

Definition step (s : State) (e : Event) : State :=
  match e with
  | Mount => effect_initialMessage s
  | SetProps m c =>
      let s' := {| initialMessage := m; currentTicker := c;
                   messages := messages s; input := input s;
                   loading := loading s; pending := pending s; out := out s |} in
      if deps_changed (initialMessage s) m then effect_initialMessage s' else s'
  | Type_ text => setInput text s
  | Send => handleSend s
  | Settle n r =>
      match pending s !! n with
      | Some _ =>
          handleSend_resume r
            {| initialMessage := initialMessage s; currentTicker := currentTicker s;
               messages := messages s; input := input s; loading := loading s;
               pending := delete n (pending s); out := out s |}
      | None => s
      end
  end.

Definition run (s : State) (es : list Event) : State := foldl step s es.

End WithBrowser.

(** The bubbles of one side, in order. *)
Definition said_by (who : Role) (ms : list Message) : list (option json) :=
  map content (List.filter (fun m => bool_decide (role m = who)) ms).

(** The state between two events of a chat that is in use: a request is
    under way exactly while [loading] is set, and then it is the only
    one. *)
Definition one_at_a_time (s : State) : Prop :=
  (loading s = true /\ exists r, pending s = [r]) \/
  (loading s = false /\ pending s = []).

(** Typing, sending and answers arriving: the events of a conversation
    under fixed props. *)
Definition chatting (e : Event) : Prop :=
  match e with
  | Type_ _ | Send | Settle _ _ => True
  | Mount | SetProps _ _ => False
  end.

(** What the user's bubble shows for a request. *)
Definition shown (r : Request) : option json := Some (JStr (trim (message r))).

(** The roles of the bubbles of a conversation in which [answered]
    requests have been answered and [waiting] are under way. *)
Definition turns (answered : nat) (waiting : list Request) : list Role :=
  oracle :: concat (replicate answered [user; oracle]) ++ map (fun _ => user) waiting.

End BrokerChat.

(** What a render puts on the screen: the sectors in the order of their
    cards, each with the stocks of its popover. *)
Definition drawn (r : list MarketSentiment.Card * MarketSentiment.Store)
  : list (MarketSentiment.HeatmapItem * list MarketSentiment.HotStock) :=
  map (fun c => (MarketSentiment.item c,
                 default [] (MarketSentiment.arrays (snd r)
                               !! MarketSentiment.sortedStocks c)))
      (fst r).

(** ** RiskCorrelationMatrix.tsx, AssetSuggestions.tsx, DividendDashboard.tsx

    The three panels of a portfolio load their data with the same effect:
    only the endpoint, the name of the fetching function and the initial
    value of the state cell differ. *)

Module PortfolioPanels.

Inductive Panel : Type :=
  | RiskCorrelationMatrix
  | AssetSuggestions
  | DividendDashboard.

Definition endpoint (p : Panel) : string :=
  match p with
  | RiskCorrelationMatrix => "correlation"
  | AssetSuggestions => "suggestions"
  | DividendDashboard => "dividends"
  end.

Definition url (p : Panel) (portfolioId : string) : string :=
  "/api/portfolio/" ++ portfolioId ++ "/" ++ endpoint p.

(** [data] is the cell called [suggestions] in AssetSuggestions. *)
Record State : Type := {
  panel : Panel;
  portfolioId : string;           (* prop *)
  data : json;
  loading : bool;
  pending : list string;          (* URLs still awaiting a response *)
  out : list string;              (* URLs fetched, newest last *)
}.

Definition initial (p : Panel) (pid : string) : State :=
  {| panel := p; portfolioId := pid;
     data := match p with AssetSuggestions => JArr [] | _ => JNull end;
     loading := true; pending := []; out := [] |}.

Definition setData (v : json) (s : State) : State :=
  {| panel := panel s; portfolioId := portfolioId s; data := v;
     loading := loading s; pending := pending s; out := out s |}.

Definition setLoading (v : bool) (s : State) : State :=
  {| panel := panel s; portfolioId := portfolioId s; data := data s;
     loading := v; pending := pending s; out := out s |}.

(** [fetchData] / [fetchSuggestions] up to the [await fetch]. *)
Definition fetchData (s : State) : State :=
  let u := url (panel s) (portfolioId s) in
  {| panel := panel s; portfolioId := portfolioId s; data := data s;
     loading := true; pending := pending s ++ [u]; out := out s ++ [u] |}.

(** [if (portfolioId) fetchData()] *)
Definition effect (s : State) : State :=
  if nonempty (portfolioId s) then fetchData s else s.

Section WithBrowser.
Variable B : Browser.

(** The rest of [fetchData]: the status is not looked at, whatever
    parses is stored, and a failure is only logged. *)
Definition fetchData_resume (r : FetchResult) (s : State) : State :=
  let s :=
    match r with
    | Http resp =>
        match snd (Response_json B (received resp)) with
        | Normal json => setData json s
        | Throw _ => s
        end
    | NetworkError _ => s
    end in
  setLoading false s.

Inductive Event : Type :=
  | Mount
  | SetProps (pid : string)
  | Settle (n : nat) (r : FetchResult).

Definition step (s : State) (e : Event) : State :=
  match e with
  | Mount => effect s
  | SetProps pid =>
      let s' := {| panel := panel s; portfolioId := pid; data := data s;
                   loading := loading s; pending := pending s; out := out s |} in
      if deps_changed (portfolioId s) pid then effect s' else s'
  | Settle n r =>
      match pending s !! n with
      | Some _ =>
          fetchData_resume r
            {| panel := panel s; portfolioId := portfolioId s; data := data s;
               loading := loading s; pending := delete n (pending s);
               out := out s |}
      | None => s
      end
  end.

Definition run (s : State) (es : list Event) : State := foldl step s es.

End WithBrowser.

(** The panel is never given a portfolio. *)
Definition no_portfolio (e : Event) : Prop :=
  match e with
  | SetProps pid => pid = ""
  | _ => True
  end.

End PortfolioPanels.

(** ** Sample data used by the examples *)

Definition chart_point (p : Z) : PriceChart.HistoryItem :=
  {| PriceChart.time := ""; PriceChart.full_date := "";
     PriceChart.price := num p; PriceChart.volume := num 0 |}.

Definition nav_point (p : Z) : PortfolioPerformance.PerformanceItem :=
  {| PortfolioPerformance.time := ""; PortfolioPerformance.price := num p |}.

Definition series_1d : list PriceChart.HistoryItem := [chart_point 10; chart_point 11].
Definition series_5d : list PriceChart.HistoryItem := [chart_point 10; chart_point 15].

(** What the history endpoint answers in the scenario of two overlapping
    fetches. *)
Definition history_backend (u : string) : list PriceChart.HistoryItem :=
  if bool_decide (u = "/api/history/AAPL?period=1d&interval=5m") then series_1d
  else if bool_decide (u = "/api/history/AAPL?period=5d&interval=15m") then series_5d
  else [].

(** The double quote, for writing JSON text. *)
Definition dq : string := String (Ascii.ascii_of_nat 34) "".

Definition not_found_body : string :=
  "{" ++ dq ++ "detail" ++ dq ++ ":" ++ dq ++ "Ticker not found" ++ dq ++ "}".

Definition html_error_page : string := "<html><body>Internal Server Error</body></html>".

(** A browser whose JSON parser knows the few bodies the examples use
    and rejects everything else, and whose messages are Chrome's. *)
Definition test_browser : Browser :=
  {| JSON_parse := fun text =>
       if bool_decide (text = "null") then Some JNull
       else if bool_decide (text = "{}") then Some (JObj [])
       else if bool_decide (text = not_found_body)
            then Some (JObj [("detail", JStr "Ticker not found")])
       else None;
     JSON_stringify := fun v =>
       match v with
       | JNull => "null"
       | JObj [] => "{}"
       | _ => "(json)"
       end;
     ToString := fun v =>
       match v with
       | JStr s => s
       | JNull => "null"
       | JBool true => "true"
       | JBool false => "false"
       | JObj _ => "[object Object]"
       | _ => "(value)"
       end;
     syntax_error_message := "Unexpected token '<'";
     property_of_null_message := "Cannot read properties of null (reading 'detail')";
     body_used_message :=
       "Failed to execute 'text' on 'Response': body stream already read" |}.

(** The application right after its first render on a fresh browser. *)
Definition fresh_app : App.State :=
  {| App.activeTab := "analyze"; App.analysis := JNull; App.loading := false;
     App.error := None; App.isChatOpen := false;
     App.provider := CurrencyContext.initial ∅;
     App.localStorage := ∅; App.pending := []; App.out := [] |}.

Definition ok_empty_object : Response :=
  {| ok := true; status := 200; statusText := "OK"; body := "{}" |}.

Definition error_500_html : Response :=
  {| ok := false; status := 500; statusText := "Internal Server Error";
     body := html_error_page |}.

Definition error_404_json : Response :=
  {| ok := false; status := 404; statusText := "Not Found";
     body := not_found_body |}.

Definition tech_portfolio : json :=
  JObj [("id", JStr "p1"); ("name", JStr "Tech"); ("holdings", JArr []);
        ("createdAt", JStr "2024-01-01")].

Definition income_portfolio : json :=
  JObj [("id", JStr "p2"); ("name", JStr "Income"); ("holdings", JArr []);
        ("createdAt", JStr "2024-02-01")].

(** The hook after its mount fetch returned one portfolio. *)
Definition one_portfolio_loaded : usePortfolios.State :=
  usePortfolios.run usePortfolios.initial
    [usePortfolios.Mount;
     usePortfolios.Settle 0 (usePortfolios.Answer (Some (JArr [tech_portfolio])))].

(** The search bar after mounting and typing "ab", the timer still armed. *)
Definition search_bar_typed_ab : SearchBar.State :=
  SearchBar.run SearchBar.initial [SearchBar.Mount; SearchBar.Type_ "ab"].

Definition fund (t : string) : DiscoveryPanel.Etf :=
  {| DiscoveryPanel.ticker := t; DiscoveryPanel.name := t;
     DiscoveryPanel.ter := frac 2 10; DiscoveryPanel.change := num 1;
     DiscoveryPanel.category := Some "Equity" |}.

Definition found (t : string) : DiscoveryPanel.SearchResult :=
  {| DiscoveryPanel.res_ticker := t; DiscoveryPanel.res_name := t;
     DiscoveryPanel.res_exchange := "XETRA" |}.

Definition no_details : DiscoveryPanel.BasicAnalysis :=
  {| DiscoveryPanel.etf_analysis_ter := None;
     DiscoveryPanel.price_data_change_1w := None;
     DiscoveryPanel.etf_analysis_category := None |}.

(** The ETF panel with three funds selected. *)
Definition three_selected : DiscoveryPanel.State :=
  DiscoveryPanel.run (DiscoveryPanel.initial [fund "IWDA"; fund "VWCE"; fund "EUNL"; fund "SXR8"])
    [DiscoveryPanel.ClickCard (fund "IWDA"); DiscoveryPanel.ClickCard (fund "VWCE");
     DiscoveryPanel.ClickCard (fund "EUNL")].

Definition hot (t : string) (chg : Z) : MarketSentiment.HotStock :=
  {| MarketSentiment.ticker := t; MarketSentiment.price := num 100;
     MarketSentiment.change_1w := num chg; MarketSentiment.name := t |}.

Definition sector_entry (n : string) (str : Z) (stocks : option MarketSentiment.loc)
  : MarketSentiment.HeatmapItem :=
  {| MarketSentiment.sector := n; MarketSentiment.sentiment_score := num 1;
     MarketSentiment.status := "Bullish"; MarketSentiment.strength := num str;
     MarketSentiment.hot_stocks := stocks |}.

(** A fetched heatmap of three sectors, one of them without hot stocks. *)
Definition sample_heatmap : MarketSentiment.Store :=
  {| MarketSentiment.heatmap :=
       [sector_entry "Energy" 40 (Some 0%nat); sector_entry "Tech" 90 (Some 1%nat);
        sector_entry "Utilities" 55 None];
     MarketSentiment.arrays :=
       {[ 0%nat := [hot "XOM" 2; hot "CVX" 5];
          1%nat := [hot "NVDA" (-1); hot "MSFT" 3; hot "AAPL" 3] ]} |}.

(** The application as it comes up after a reload that finds the tab
    "portfolio", the currency EUR and the analysis [{}] in storage. *)
Definition reloaded_app : App.State :=
  {| App.activeTab := "portfolio"; App.analysis := JObj []; App.loading := false;
     App.error := None; App.isChatOpen := false;
     App.provider := {| CurrencyContext.currency := "EUR";
                        CurrencyContext.exchangeRate := frac 92 100 |};
     App.localStorage :=
       App.localStorage
         (App.run test_browser fresh_app
            [App.Mount; App.ClickCurrency CurrencyContext.EUR;
             App.Search "AAPL"; App.AnalyzeSettled 0 (Http ok_empty_object);
             App.ClickTab App.portfolio]);
     App.pending := []; App.out := [] |}.

Definition ok_not_found_object : Response :=
  {| ok := true; status := 200; statusText := "OK"; body := not_found_body |}.

Definition ok_html_page : Response :=
  {| ok := true; status := 200; statusText := "OK"; body := html_error_page |}.


(** The provider after the backend has answered the rate 1e300, and
    after it has answered 0.85. *)
Definition rate_1e300 : CurrencyContext.State :=
  CurrencyContext.run (CurrencyContext.initial ∅)
    [CurrencyContext.RateSettled (Fulfilled (Some (frac (10 ^ 300) 1)))].

Definition rate_0_85 : CurrencyContext.State :=
  CurrencyContext.run (CurrencyContext.initial ∅)
    [CurrencyContext.RateSettled (Fulfilled (Some (frac 85 100)))].

(** ** Proof automation *)

(** Equality of two closed numbers, up to the normal form of the rational. *)
Ltac num_eq :=
  vm_compute;
  repeat first
    [ reflexivity
    | match goal with
      | |- Fin _ = Fin _ => apply (f_equal Fin), Qc_is_canon; reflexivity
      end
    | progress f_equal ].

(** * Theorems *)

(** ** Facts about numbers *)

Lemma Qc_sign_Zero (q : Qc) : Qc_sign q = Zero <-> q = Q2Qc 0.
Proof.
  unfold Qc_sign. split.
  - destruct (this q ?= 0)%Q eqn:E; try discriminate. intros _.
    apply Qc_is_canon. apply Qeq_alt in E. now rewrite E.
  - intros ->. reflexivity.
Qed.

Lemma Qc_sign_Pos (q : Qc) : Qc_sign q = Pos <-> (Q2Qc 0 < q)%Qc.
Proof.
  unfold Qc_sign, Qclt. change (this (Q2Qc 0)) with 0%Q.
  rewrite Qlt_alt, <- (Qcompare_antisym (this q) 0).
  destruct (this q ?= 0)%Q; simpl; split; congruence.
Qed.

Lemma Qc_sign_Neg (q : Qc) : Qc_sign q = Neg <-> (q < Q2Qc 0)%Qc.
Proof.
  unfold Qc_sign, Qclt. change (this (Q2Qc 0)) with 0%Q.
  rewrite Qlt_alt.
  destruct (this q ?= 0)%Q; simpl; split; congruence.
Qed.

Lemma truthy_Fin (q : Qc) : truthy (Fin q) = true <-> q <> Q2Qc 0.
Proof.
  simpl. rewrite <- Qc_sign_Zero. destruct (Qc_sign q); split; congruence.
Qed.

(** Dividing by zero never gives a finite value, and multiplying the
    result by a positive constant does not repair it. *)
Lemma div_zero_not_finite (x : number) :
  is_finite (x / num 0)%js = false.
Proof.
  destruct x as [q| | |]; try reflexivity.
  unfold num_div, num. change (Qc_sign (Q2Qc (inject_Z 0))) with Zero.
  now destruct (Qc_sign q).
Qed.

Lemma mul_100_not_finite (x : number) :
  is_finite x = false -> is_finite (x * num 100)%js = false.
Proof. destruct x; try discriminate; intros _; reflexivity. Qed.

(** ** Rounding to a double *)

Lemma pow2_pos e : (0 < pow2 e)%Q.
Proof. apply Qpower_0_lt. reflexivity. Qed.

Lemma pow2_add a b : (pow2 (a + b) == pow2 a * pow2 b)%Q.
Proof. apply Qpower_plus. discriminate. Qed.

Lemma pow2_lt a b : (a < b)%Z -> (pow2 a < pow2 b)%Q.
Proof. intros H. apply Qpower_lt_compat_l; [exact H | reflexivity]. Qed.

Lemma pow2_le a b : (a <= b)%Z -> (pow2 a <= pow2 b)%Q.
Proof. intros H. apply Qpower_le_compat_l; [exact H | discriminate]. Qed.

Lemma pow2_lt_inv a b : (pow2 a < pow2 b)%Q -> (a < b)%Z.
Proof. intros H. apply (Qpower_lt_compat_l_inv 2); [exact H | reflexivity]. Qed.

Lemma pow2_Z a : (0 <= a)%Z -> (pow2 a == inject_Z (2 ^ a))%Q.
Proof. intros H. unfold pow2. now rewrite Zpower_Qpower. Qed.

Lemma pow2_opp a : (pow2 (- a) == / pow2 a)%Q.
Proof. apply Qpower_opp. Qed.

(** [ilog2] is the integer part of the binary logarithm. *)
Lemma ilog2_spec x :
  (0 < x)%Q -> (pow2 (ilog2 x) <= x)%Q /\ (x < pow2 (ilog2 x + 1))%Q.
Proof.
  intros Hx. destruct x as [n d]. unfold ilog2. simpl Qnum. simpl Qden.
  assert (Hn : (0 < n)%Z) by (unfold Qlt in Hx; simpl in Hx; lia).
  set (a := Z.log2 n). set (b := Z.log2 (Zpos d)).
  destruct (Z.log2_spec n Hn) as [Ha1 Ha2]. fold a in Ha1, Ha2.
  destruct (Z.log2_spec (Zpos d) eq_refl) as [Hb1 Hb2]. fold b in Hb1, Hb2.
  assert (Ha0 : (0 <= a)%Z) by apply Z.log2_nonneg.
  assert (Hb0 : (0 <= b)%Z) by apply Z.log2_nonneg.
  assert (Hq : (n # d == inject_Z n / inject_Z (Zpos d))%Q) by apply Qmake_Qdiv.
  assert (Hdpos : (0 < inject_Z (Zpos d))%Q) by reflexivity.
  assert (Hlow : (pow2 (a - b - 1) < n # d)%Q).
  { rewrite Hq. apply Qlt_shift_div_l; [exact Hdpos|].
    apply Qlt_le_trans with (pow2 (a - b - 1) * pow2 (b + 1))%Q.
    - apply Qmult_lt_l; [apply pow2_pos|].
      rewrite pow2_Z by lia. rewrite <- Zlt_Qlt.
      replace (Z.succ b) with (b + 1)%Z in Hb2 by lia. exact Hb2.
    - rewrite <- pow2_add. replace (a - b - 1 + (b + 1))%Z with a by lia.
      rewrite pow2_Z by lia. now rewrite <- Zle_Qle. }
  assert (Hhigh : (n # d < pow2 (a - b + 1))%Q).
  { rewrite Hq. apply Qlt_shift_div_r; [exact Hdpos|].
    apply Qlt_le_trans with (pow2 (a + 1)).
    - rewrite pow2_Z by lia. rewrite <- Zlt_Qlt.
      replace (Z.succ a) with (a + 1)%Z in Ha2 by lia. exact Ha2.
    - replace (a + 1)%Z with (a - b + 1 + b)%Z by lia. rewrite pow2_add.
      apply Qmult_le_l; [apply pow2_pos|].
      rewrite pow2_Z by lia. now rewrite <- Zle_Qle. }
  destruct (Qle_bool (pow2 (a - b)) (n # d)) eqn:E.
  - apply Qle_bool_iff in E. split; assumption.
  - assert (Hlt : (n # d < pow2 (a - b))%Q).
    { apply Qnot_le_lt. intros H. apply Qle_bool_iff in H. congruence. }
    split; [now apply Qlt_le_weak|].
    now replace (a - b - 1 + 1)%Z with (a - b)%Z by lia.
Qed.

(** Rounding to an integer moves by at most a half. *)
Lemma round_half_even_near y :
  (Qabs (inject_Z (round_half_even y) - y) <= 1 # 2)%Q.
Proof.
  unfold round_half_even.
  pose proof (Qfloor_le y) as H1. pose proof (Qlt_floor y) as H2.
  set (f := Qfloor y) in *. rewrite inject_Z_plus in H2.
  change (inject_Z 1) with 1%Q in H2.
  apply Qabs_Qle_condition.
  destruct (Qcompare (y - inject_Z f) (1 # 2)) eqn:E.
  - apply Qeq_alt in E.
    destruct (Z.even f); [|rewrite inject_Z_plus; change (inject_Z 1) with 1%Q];
      split; lra.
  - apply Qlt_alt in E. split; lra.
  - apply Qgt_alt in E. rewrite inject_Z_plus. change (inject_Z 1) with 1%Q.
    split; lra.
Qed.

Lemma exponent_normal x :
  (pow2 (-1022) <= Qabs x)%Q -> exponent x = (ilog2 (Qabs x) - 52)%Z.
Proof.
  intros H. unfold exponent.
  assert (Hpos : (0 < Qabs x)%Q).
  { apply Qlt_le_trans with (pow2 (-1022)); [apply pow2_pos | exact H]. }
  destruct (ilog2_spec _ Hpos) as [_ Hhi].
  assert (Hlt : (pow2 (-1022) < pow2 (ilog2 (Qabs x) + 1))%Q)
    by (eapply Qle_lt_trans; eassumption).
  apply pow2_lt_inv in Hlt. lia.
Qed.

(** In the normal range the nearest double is within the fraction
    [2^-53] of the value. *)
Lemma nearest_error x :
  (pow2 (-1022) <= Qabs x)%Q ->
  (Qabs (nearest x - x) <= rounding_unit * Qabs x)%Q.
Proof.
  intros H. unfold nearest, rounding_unit. rewrite (exponent_normal x H).
  assert (Hpos : (0 < Qabs x)%Q).
  { apply Qlt_le_trans with (pow2 (-1022)); [apply pow2_pos | exact H]. }
  destruct (ilog2_spec _ Hpos) as [Hlo _].
  set (L := ilog2 (Qabs x)) in *. set (e := (L - 52)%Z).
  pose proof (pow2_pos e) as He.
  set (y0 := (x / pow2 e)%Q).
  assert (Hx : (x == y0 * pow2 e)%Q).
  { unfold y0. field. intros E. rewrite E in He. discriminate. }
  pose proof (round_half_even_near y0) as Hm.
  set (m := inject_Z (round_half_even y0)) in *.
  assert (E1 : (m * pow2 e - x == (m - y0) * pow2 e)%Q)
    by (rewrite Hx at 1; ring).
  rewrite E1, Qabs_Qmult, (Qabs_pos (pow2 e)) by now apply Qlt_le_weak.
  apply Qle_trans with ((1 # 2) * pow2 e)%Q.
  - apply Qmult_le_compat_r; [exact Hm | now apply Qlt_le_weak].
  - apply Qle_trans with (pow2 (-53) * pow2 L)%Q.
    + replace L with (e + 52)%Z by (unfold e; lia).
      rewrite (pow2_add e 52).
      assert (E53 : (pow2 (-53) * pow2 52 == 1 # 2)%Q) by reflexivity.
      assert (E2 : (pow2 (-53) * (pow2 e * pow2 52) ==
                    (pow2 (-53) * pow2 52) * pow2 e)%Q) by ring.
      rewrite E2, E53. apply Qle_refl.
    + apply Qmult_le_l; [apply pow2_pos | exact Hlo].
Qed.

Lemma nearest_finite x :
  (pow2 (-1022) <= Qabs x)%Q -> (Qabs x <= pow2 1023)%Q ->
  (Qabs (nearest x) < pow2 1024)%Q.
Proof.
  intros Hlo Hhi. pose proof (nearest_error x Hlo) as He.
  assert (Hpos : (0 < Qabs x)%Q).
  { apply Qlt_le_trans with (pow2 (-1022)); [apply pow2_pos | exact Hlo]. }
  assert (Htri : (Qabs (nearest x) <= Qabs (nearest x - x) + Qabs x)%Q).
  { assert (E : (nearest x == (nearest x - x) + x)%Q) by ring.
    rewrite E at 1. apply Qabs_triangle. }
  assert (H1024 : (pow2 1024 == 2 * pow2 1023)%Q).
  { change 1024%Z with (1 + 1023)%Z. rewrite pow2_add. reflexivity. }
  rewrite H1024. unfold rounding_unit in He.
  change (pow2 (-53)) with (1 # 9007199254740992)%Q in He.
  set (X := Qabs x) in *. set (N := Qabs (nearest x)) in *.
  set (D := Qabs (nearest x - x)) in *. set (P := pow2 1023) in *. lra.
Qed.

Lemma Qc_sign_nonzero (x : Qc) : (0 < Qabs x)%Q -> Qc_sign x <> Zero.
Proof.
  intros H E. apply Qc_sign_Zero in E. subst x. discriminate H.
Qed.

(** A value in the normal range rounds to a double, not to an infinity. *)
Lemma binary64_normal (x : Qc) :
  (pow2 (-1022) <= Qabs x)%Q -> (Qabs x <= pow2 1023)%Q ->
  binary64 x = Fin (Q2Qc (nearest x)).
Proof.
  intros Hlo Hhi. unfold binary64.
  assert (Hpos : (0 < Qabs x)%Q).
  { apply Qlt_le_trans with (pow2 (-1022)); [apply pow2_pos | exact Hlo]. }
  pose proof (Qc_sign_nonzero x Hpos) as Hs.
  pose proof (nearest_finite x Hlo Hhi) as Hf.
  assert (E : Qle_bool (pow2 1024) (Qabs (nearest x)) = false).
  { destruct (Qle_bool _ _) eqn:E; [|reflexivity].
    apply Qle_bool_iff in E. exfalso. apply (Qlt_not_le _ _ Hf E). }
  rewrite E. destruct (Qc_sign x); [reflexivity | contradiction | reflexivity].
Qed.

(** Rounding never gives [NaN]. *)
Lemma binary64_not_nan (x : Qc) : is_nan (binary64 x) = false.
Proof.
  unfold binary64. destruct (Qc_sign x); try reflexivity;
    destruct (Qle_bool _ _); reflexivity.
Qed.


(** The model against doubles computed elsewhere: the literal 0.1, the
    well-known sum that is not 0.3, a tie in the last place, the largest
    double and the overflow threshold, and ties among the subnormals. *)
Example literal_0_1 :
  frac 1 10 = Fin (Q2Qc (3602879701896397 # 36028797018963968)).
Proof. num_eq. Qed.

Example three_tenths :
  (frac 1 10 * num 3)%js = Fin (Q2Qc (1351079888211149 # 4503599627370496)) /\
  frac 3 10 = Fin (Q2Qc (5404319552844595 # 18014398509481984)) /\
  (frac 1 10 * num 3)%js <> frac 3 10.
Proof.
  split; [num_eq|]. split; [num_eq|]. vm_compute. intros E.
  injection E as E. discriminate E.
Qed.

Example one_third :
  (num 1 / num 3)%js = Fin (Q2Qc (6004799503160661 # 18014398509481984)).
Proof. num_eq. Qed.

Example tie_to_even :
  binary64 (Q2Qc (inject_Z (2 ^ 53 + 1))) = num (2 ^ 53) /\
  binary64 (Q2Qc (inject_Z (2 ^ 53 + 3))) = num (2 ^ 53 + 4).
Proof. split; num_eq. Qed.

Example overflow_threshold :
  binary64 (Q2Qc (inject_Z (2 ^ 1024 - 2 ^ 970 - 1))) = num (2 ^ 1024 - 2 ^ 971) /\
  binary64 (Q2Qc (inject_Z (2 ^ 1024 - 2 ^ 970))) = PosInf /\
  (num (2 ^ 1023) * num (- 2))%js = NegInf.
Proof. repeat split; num_eq. Qed.

Example subnormal_ties :
  (Fin (Q2Qc (pow2 (-1074))) / num 2)%js = num 0 /\
  (Fin (Q2Qc (3 * pow2 (-1074))) / num 2)%js = Fin (Q2Qc (2 * pow2 (-1074))).
Proof. split; num_eq. Qed.
(** ** Two roundings in a row *)

(** [x1] is rounded, multiplied by [c] and rounded again, where [x1 * c]
    is [a] in the reals: the result is within three rounding units of
    [a], and nothing leaves the normal range on the way. *)
Lemma two_roundings (a c x1 p x2 : Q) :
  (x1 * c == a)%Q ->
  (pow2 (-1022) <= Qabs x1)%Q ->
  (pow2 (-1021) <= Qabs a)%Q -> (Qabs a <= pow2 1022)%Q ->
  (p == nearest x1)%Q -> (x2 == p * c)%Q ->
  (pow2 (-1022) <= Qabs x2)%Q /\ (Qabs x2 <= pow2 1023)%Q /\
  (Qabs (nearest x2 - a) <= 3 * rounding_unit * Qabs a)%Q.
Proof.
  intros Ha Hx1 Hlo Hhi Hp Hx2.
  pose proof (nearest_error x1 Hx1) as E1.
  assert (Hd : (x2 - a == (nearest x1 - x1) * c)%Q).
  { rewrite Hx2, Hp, <- Ha. ring. }
  assert (Hda : (Qabs (x2 - a) <= rounding_unit * Qabs a)%Q).
  { rewrite Hd, Qabs_Qmult, <- Ha, (Qabs_Qmult x1 c).
    rewrite Qmult_assoc. apply Qmult_le_compat_r; [exact E1 | apply Qabs_nonneg]. }
  assert (Hup : (Qabs x2 <= Qabs (x2 - a) + Qabs a)%Q).
  { assert (E : (x2 == (x2 - a) + a)%Q) by ring.
    rewrite E at 1. apply Qabs_triangle. }
  assert (Hdn : (Qabs a <= Qabs (x2 - a) + Qabs x2)%Q).
  { assert (E : (a == (a - x2) + x2)%Q) by ring.
    rewrite E at 1. rewrite (Qabs_Qminus x2 a). apply Qabs_triangle. }
  assert (P1 : (pow2 (-1021) == 2 * pow2 (-1022))%Q) by reflexivity.
  assert (P2 : (pow2 1023 == 2 * pow2 1022)%Q) by reflexivity.
  unfold rounding_unit in *.
  change (pow2 (-53)) with (1 # 9007199254740992)%Q in *.
  assert (Hx2lo : (pow2 (-1022) <= Qabs x2)%Q).
  { set (A := Qabs a) in *. set (X := Qabs x2) in *. set (D := Qabs (x2 - a)) in *.
    set (l := pow2 (-1022)) in *. set (l' := pow2 (-1021)) in *. lra. }
  assert (Hx2hi : (Qabs x2 <= pow2 1023)%Q).
  { set (A := Qabs a) in *. set (X := Qabs x2) in *. set (D := Qabs (x2 - a)) in *.
    set (h := pow2 1022) in *. set (h' := pow2 1023) in *.
    pose proof (Qabs_nonneg a) as HA. fold A in HA. lra. }
  split; [exact Hx2lo|]. split; [exact Hx2hi|].
  pose proof (nearest_error x2 Hx2lo) as E2. unfold rounding_unit in E2.
  change (pow2 (-53)) with (1 # 9007199254740992)%Q in E2.
  assert (Htri : (Qabs (nearest x2 - a) <=
                  Qabs (nearest x2 - x2) + Qabs (x2 - a))%Q).
  { assert (E : (nearest x2 - a == (nearest x2 - x2) + (x2 - a))%Q) by ring.
    rewrite E. apply Qabs_triangle. }
  pose proof (Qabs_nonneg a) as HA.
  set (A := Qabs a) in *. set (X := Qabs x2) in *. set (D := Qabs (x2 - a)) in *.
  set (N := Qabs (nearest x2 - a)) in *. set (M := Qabs (nearest x2 - x2)) in *.
  clearbody A X D N M. clear -Htri E2 Hup Hda HA. lra.
Qed.

Lemma magnitude_bounds lo hi (a : Qc) :
  magnitude_within lo hi (Fin a) = true ->
  (pow2 lo <= Qabs a)%Q /\ (Qabs a <= pow2 hi)%Q.
Proof.
  simpl. intros H. apply andb_true_iff in H as [H1 H2].
  split; now apply Qle_bool_iff.
Qed.

Lemma magnitude_intro lo hi (a : Qc) :
  (pow2 lo <= Qabs a)%Q -> (Qabs a <= pow2 hi)%Q ->
  magnitude_within lo hi (Fin a) = true.
Proof.
  intros H1 H2. simpl. apply andb_true_iff. split; now apply Qle_bool_iff.
Qed.

Lemma magnitude_nonzero lo hi (a : Qc) :
  magnitude_within lo hi (Fin a) = true -> ~ (a == 0)%Q.
Proof.
  intros H E. destruct (magnitude_bounds lo hi a H) as [Hlo _].
  rewrite E in Hlo. apply (Qlt_not_le _ _ (pow2_pos lo) Hlo).
Qed.

Lemma magnitude_truthy lo hi (a : Qc) :
  magnitude_within lo hi (Fin a) = true -> truthy (Fin a) = true.
Proof.
  intros H. destruct (magnitude_bounds lo hi a H) as [Hlo _].
  assert (Hpos : (0 < Qabs a)%Q).
  { apply Qlt_le_trans with (pow2 lo); [apply pow2_pos | exact Hlo]. }
  pose proof (Qc_sign_nonzero a Hpos). simpl. now destruct (Qc_sign a).
Qed.

(** An amount [a] with room at either end is converted to [x1], a value
    in the normal range, and the rounded [x1] is multiplied by [c], the
    factor that takes [x1] back to [a]: both results are doubles and the
    second is within three rounding units of the amount. *)
Lemma scaled_there_and_back (a c x1 x2 : Qc) :
  roomy (Fin a) = true -> normal (Fin x1) = true ->
  (x1 * c == a)%Q ->
  (x2 == Q2Qc (nearest x1) * c)%Q ->
  binary64 x1 = Fin (Q2Qc (nearest x1)) /\
  truthy (Fin (Q2Qc (nearest x1))) = true /\
  binary64 x2 = Fin (Q2Qc (nearest x2)) /\
  within (3 * rounding_unit) (Fin (Q2Qc (nearest x2))) (Fin a) = true.
Proof.
  intros Ha Hx1 Hac Hx2.
  destruct (magnitude_bounds _ _ a Ha) as [Hlo Hhi].
  destruct (magnitude_bounds _ _ x1 Hx1) as [Hr1 Hr2].
  assert (Hp : (Q2Qc (nearest x1) == nearest x1)%Q) by apply Qred_correct.
  destruct (two_roundings a c x1 (Q2Qc (nearest x1)) x2 Hac Hr1 Hlo Hhi Hp Hx2)
    as (Hx2lo & Hx2hi & Herr).
  split; [now apply binary64_normal|].
  split.
  { assert (Hpos : (0 < Qabs (Q2Qc (nearest x1)))%Q).
    { destruct (Qle_lt_or_eq _ _ (Qabs_nonneg (Q2Qc (nearest x1)))) as [H|H];
        [exact H|].
      exfalso. assert (Hz : (Qabs x2 == 0)%Q).
      { rewrite Hx2, Qabs_Qmult, <- H. ring. }
      rewrite Hz in Hx2lo. apply (Qlt_not_le _ _ (pow2_pos (-1022)) Hx2lo). }
    pose proof (Qc_sign_nonzero _ Hpos) as Hs. simpl.
    now destruct (Qc_sign (Q2Qc (nearest x1))). }
  split; [now apply binary64_normal|].
  unfold within. apply Qle_bool_iff.
  assert (Hq : (Q2Qc (nearest x2) == nearest x2)%Q) by apply Qred_correct.
  now rewrite Hq.
Qed.

Lemma Qinv_le_swap (x y : Q) : (0 < x)%Q -> (x <= y)%Q -> (/ y <= / x)%Q.
Proof.
  intros Hx Hxy.
  assert (Hy : (0 < y)%Q) by (eapply Qlt_le_trans; eassumption).
  apply Qle_shift_inv_r; [exact Hy|].
  assert (Hi : (0 < / x)%Q) by now apply Qinv_lt_0_compat.
  assert (E : (1 == / x * x)%Q).
  { rewrite Qmult_comm, Qmult_inv_r; [reflexivity|].
    intros E. rewrite E in Hx. discriminate. }
  rewrite E. apply Qmult_le_l; assumption.
Qed.

(** The inverse of a value of ordinary size is of ordinary size. *)
Lemma ordinary_inv (x : Q) :
  (pow2 (-500) <= Qabs x)%Q -> (Qabs x <= pow2 500)%Q ->
  (pow2 (-500) <= Qabs (/ x))%Q /\ (Qabs (/ x) <= pow2 500)%Q.
Proof.
  intros Hlo Hhi. rewrite Qabs_Qinv.
  assert (Hpos : (0 < Qabs x)%Q).
  { apply Qlt_le_trans with (pow2 (-500)); [apply pow2_pos | exact Hlo]. }
  split.
  - rewrite (pow2_opp 500). now apply Qinv_le_swap.
  - assert (E : (pow2 500 == / pow2 (-500))%Q).
    { rewrite (pow2_opp 500), Qinv_involutive. reflexivity. }
    rewrite E. apply Qinv_le_swap; [apply pow2_pos | exact Hlo].
Qed.

(** The product of two values of ordinary size is in the normal range. *)
Lemma ordinary_product (x y : Q) :
  (pow2 (-500) <= Qabs x)%Q -> (Qabs x <= pow2 500)%Q ->
  (pow2 (-500) <= Qabs y)%Q -> (Qabs y <= pow2 500)%Q ->
  (pow2 (-1022) <= Qabs (x * y))%Q /\ (Qabs (x * y) <= pow2 1023)%Q.
Proof.
  intros Hx1 Hx2 Hy1 Hy2. rewrite Qabs_Qmult.
  pose proof (pow2_pos (-500)) as Hp.
  split.
  - apply Qle_trans with (pow2 (-500) * pow2 (-500))%Q.
    + rewrite <- pow2_add. now apply pow2_le.
    + apply Qmult_le_compat_nonneg; split;
        solve [now apply Qlt_le_weak | assumption].
  - apply Qle_trans with (pow2 500 * pow2 500)%Q.
    + apply Qmult_le_compat_nonneg; split;
        solve [apply Qabs_nonneg | assumption].
    + rewrite <- pow2_add. now apply pow2_le.
Qed.

(** Amounts and rates of ordinary size have room, and so have their
    products and quotients. *)
Lemma ordinary_roomy (a : Qc) : ordinary (Fin a) = true -> roomy (Fin a) = true.
Proof.
  intros H. destruct (magnitude_bounds _ _ a H) as [H1 H2].
  apply magnitude_intro.
  - apply Qle_trans with (pow2 (-500)); [now apply pow2_le | exact H1].
  - apply Qle_trans with (pow2 500); [exact H2 | now apply pow2_le].
Qed.

Lemma ordinary_times (a r : Qc) :
  ordinary (Fin a) = true -> ordinary (Fin r) = true ->
  normal (Fin (a * r)%Qc) = true.
Proof.
  intros Ha Hr. destruct (magnitude_bounds _ _ a Ha) as [Ha1 Ha2].
  destruct (magnitude_bounds _ _ r Hr) as [Hr1 Hr2].
  destruct (ordinary_product a r Ha1 Ha2 Hr1 Hr2) as [H1 H2].
  assert (E : ((a * r)%Qc == a * r)%Q) by (simpl; apply Qred_correct).
  apply magnitude_intro; now rewrite E.
Qed.

Lemma ordinary_over (a r : Qc) :
  ordinary (Fin a) = true -> ordinary (Fin r) = true ->
  normal (Fin (a / r)%Qc) = true.
Proof.
  intros Ha Hr. destruct (magnitude_bounds _ _ a Ha) as [Ha1 Ha2].
  destruct (magnitude_bounds _ _ r Hr) as [Hr1 Hr2].
  destruct (ordinary_inv r Hr1 Hr2) as [Hi1 Hi2].
  destruct (ordinary_product a (/ r) Ha1 Ha2 Hi1 Hi2) as [H1 H2].
  assert (E : ((a / r)%Qc == a * / r)%Q).
  { unfold Qcdiv. simpl. rewrite !Qred_correct. reflexivity. }
  apply magnitude_intro; now rewrite E.
Qed.
(** ** Period statistics of the two charts *)

Lemma PriceChart_compute_stats hist f l :
  (1 < length hist)%nat ->
  first_item hist = Some f -> last_item hist = Some l ->
  PriceChart.compute_stats hist =
    Some {| PriceChart.change := (PriceChart.price l - PriceChart.price f)%js;
            PriceChart.changePct :=
              ((PriceChart.price l - PriceChart.price f) / PriceChart.price f
               * num 100)%js |}.
Proof.
  intros Hlen Hf Hl. unfold PriceChart.compute_stats.
  rewrite bool_decide_eq_true_2 by exact Hlen. now rewrite Hf, Hl.
Qed.

Lemma PortfolioPerformance_compute_stats hist f l :
  (1 < length hist)%nat ->
  first_item hist = Some f -> last_item hist = Some l ->
  PortfolioPerformance.compute_stats hist =
    Some {| PortfolioPerformance.change :=
              (PortfolioPerformance.price l - PortfolioPerformance.price f)%js;
            PortfolioPerformance.changePct :=
              ((PortfolioPerformance.price l - PortfolioPerformance.price f)
               / PortfolioPerformance.price f * num 100)%js |}.
Proof.
  intros Hlen Hf Hl. unfold PortfolioPerformance.compute_stats.
  rewrite bool_decide_eq_true_2 by exact Hlen. now rewrite Hf, Hl.
Qed.

Lemma first_last_exist {A} (xs : list A) :
  (1 < length xs)%nat ->
  exists f l, first_item xs = Some f /\ last_item xs = Some l.
Proof.
  intros H. unfold first_item, last_item.
  destruct (lookup_lt_is_Some_2 xs 0%nat) as [f Hf]; [lia|].
  destruct (lookup_lt_is_Some_2 xs (length xs - 1)%nat) as [l Hl]; [lia|].
  eauto.
Qed.

(** A settled fetch stores the statistics of the series it brought. *)
Lemma PriceChart_settle_stats s n c hist f l :
  PriceChart.pending s !! n = Some c ->
  (1 < length hist)%nat ->
  first_item hist = Some f -> last_item hist = Some l ->
  let s' := PriceChart.step s (PriceChart.Settle n (Fulfilled hist)) in
  PriceChart.data s' = hist /\
  PriceChart.stats s' =
    {| PriceChart.change := (PriceChart.price l - PriceChart.price f)%js;
       PriceChart.changePct :=
         ((PriceChart.price l - PriceChart.price f) / PriceChart.price f
          * num 100)%js |}.
Proof.
  intros Hc Hlen Hf Hl. simpl. rewrite Hc. simpl.
  now rewrite (PriceChart_compute_stats hist f l).
Qed.

Lemma PortfolioPerformance_settle_stats s n u hist f l :
  PortfolioPerformance.pending s !! n = Some u ->
  (1 < length hist)%nat ->
  first_item hist = Some f -> last_item hist = Some l ->
  let s' := PortfolioPerformance.step s
              (PortfolioPerformance.Settle n (Fulfilled hist)) in
  PortfolioPerformance.data s' = hist /\
  PortfolioPerformance.stats s' =
    {| PortfolioPerformance.change :=
         (PortfolioPerformance.price l - PortfolioPerformance.price f)%js;
       PortfolioPerformance.changePct :=
         ((PortfolioPerformance.price l - PortfolioPerformance.price f)
          / PortfolioPerformance.price f * num 100)%js |}.
Proof.
  intros Hc Hlen Hf Hl. simpl. rewrite Hc. simpl.
  now rewrite (PortfolioPerformance_compute_stats hist f l).
Qed.

(** A change of period or of ticker sends one new request, for the new
    pair, and queues its continuation behind those already waiting. *)
Lemma PriceChart_SetPeriod_fetches s p :
  p <> PriceChart.period s ->
  let s' := PriceChart.step s (PriceChart.SetPeriod p) in
  let u := PriceChart.history_url (PriceChart.ticker s) p in
  PriceChart.period s' = p /\
  PriceChart.out s' = PriceChart.out s ++ [PriceChart.Fetch u] /\
  PriceChart.pending s' =
    PriceChart.pending s ++ [ {| PriceChart.url := u; PriceChart.captured := p |} ].
Proof.
  intros Hp. simpl. unfold deps_changed.
  rewrite bool_decide_eq_true_2 by congruence. now simpl.
Qed.

Lemma PriceChart_SetTicker_fetches s t :
  t <> PriceChart.ticker s ->
  let s' := PriceChart.step s (PriceChart.SetTicker t) in
  let u := PriceChart.history_url t (PriceChart.period s) in
  PriceChart.ticker s' = t /\
  PriceChart.out s' = PriceChart.out s ++ [PriceChart.Fetch u] /\
  PriceChart.pending s' =
    PriceChart.pending s ++
    [ {| PriceChart.url := u; PriceChart.captured := PriceChart.period s |} ].
Proof.
  intros Hp. simpl. unfold deps_changed.
  rewrite bool_decide_eq_true_2 by congruence. now simpl.
Qed.

Lemma PortfolioPerformance_SetPeriod_fetches s p :
  PortfolioPerformance.portfolioId s <> "" ->
  p <> PortfolioPerformance.period s ->
  let s' := PortfolioPerformance.step s (PortfolioPerformance.SetPeriod p) in
  let u := PortfolioPerformance.history_url (PortfolioPerformance.portfolioId s) p in
  PortfolioPerformance.period s' = p /\
  PortfolioPerformance.out s' = PortfolioPerformance.out s ++ [u] /\
  PortfolioPerformance.pending s' = PortfolioPerformance.pending s ++ [u].
Proof.
  intros Hid Hp. simpl. unfold deps_changed.
  rewrite bool_decide_eq_true_2 by congruence.
  unfold PortfolioPerformance.effect. simpl.
  rewrite bool_decide_eq_false_2 by exact Hid. now simpl.
Qed.

Lemma PortfolioPerformance_SetProps_fetches s pid key :
  pid <> "" ->
  pid <> PortfolioPerformance.portfolioId s ->
  let s' := PortfolioPerformance.step s (PortfolioPerformance.SetProps pid key) in
  let u := PortfolioPerformance.history_url pid (PortfolioPerformance.period s) in
  PortfolioPerformance.portfolioId s' = pid /\
  PortfolioPerformance.out s' = PortfolioPerformance.out s ++ [u] /\
  PortfolioPerformance.pending s' = PortfolioPerformance.pending s ++ [u].
Proof.
  intros Hid Hp. simpl. unfold deps_changed.
  rewrite bool_decide_eq_true_2 by congruence.
  unfold PortfolioPerformance.effect. simpl.
  rewrite bool_decide_eq_false_2 by exact Hid. now simpl.
Qed.

(** C1. For a fetched series with more than one point the stored change
    is [last.price - first.price] and the stored percentage is
    [(last.price - first.price) / first.price * 100], in PriceChart and in
    PortfolioPerformance alike.  Every change of the period or the ticker
    (PriceChart), and of the period or the portfolio (PortfolioPerformance,
    whose effect runs for a non-empty portfolio id), sends one fetch whose
    response recomputes the two figures.  Nothing tests the first price:
    when it is 0 the quotient is taken all the same and the percentage is
    an infinity or NaN. *)
Theorem C1_period_change_stats :
  (* the formula, on arrival of a response *)
  (forall s n c hist f l,
     PriceChart.pending s !! n = Some c ->
     (1 < length hist)%nat ->
     first_item hist = Some f -> last_item hist = Some l ->
     PriceChart.stats (PriceChart.step s (PriceChart.Settle n (Fulfilled hist))) =
       {| PriceChart.change := (PriceChart.price l - PriceChart.price f)%js;
          PriceChart.changePct :=
            ((PriceChart.price l - PriceChart.price f) / PriceChart.price f
             * num 100)%js |}) /\
  (forall s n u hist f l,
     PortfolioPerformance.pending s !! n = Some u ->
     (1 < length hist)%nat ->
     first_item hist = Some f -> last_item hist = Some l ->
     PortfolioPerformance.stats
       (PortfolioPerformance.step s (PortfolioPerformance.Settle n (Fulfilled hist))) =
       {| PortfolioPerformance.change :=
            (PortfolioPerformance.price l - PortfolioPerformance.price f)%js;
          PortfolioPerformance.changePct :=
            ((PortfolioPerformance.price l - PortfolioPerformance.price f)
             / PortfolioPerformance.price f * num 100)%js |}) /\
  (* a change of period or ticker re-fetches, and the response of that
     fetch recomputes the statistics *)
  (forall s p hist f l,
     p <> PriceChart.period s ->
     (1 < length hist)%nat ->
     first_item hist = Some f -> last_item hist = Some l ->
     let s1 := PriceChart.step s (PriceChart.SetPeriod p) in
     let s2 := PriceChart.step s1
                 (PriceChart.Settle (length (PriceChart.pending s)) (Fulfilled hist)) in
     PriceChart.fetches (PriceChart.out s1) =
       PriceChart.fetches (PriceChart.out s) ++
       [PriceChart.history_url (PriceChart.ticker s) p] /\
     PriceChart.stats s2 =
       {| PriceChart.change := (PriceChart.price l - PriceChart.price f)%js;
          PriceChart.changePct :=
            ((PriceChart.price l - PriceChart.price f) / PriceChart.price f
             * num 100)%js |}) /\
  (forall s t hist f l,
     t <> PriceChart.ticker s ->
     (1 < length hist)%nat ->
     first_item hist = Some f -> last_item hist = Some l ->
     let s1 := PriceChart.step s (PriceChart.SetTicker t) in
     let s2 := PriceChart.step s1
                 (PriceChart.Settle (length (PriceChart.pending s)) (Fulfilled hist)) in
     PriceChart.fetches (PriceChart.out s1) =
       PriceChart.fetches (PriceChart.out s) ++
       [PriceChart.history_url t (PriceChart.period s)] /\
     PriceChart.stats s2 =
       {| PriceChart.change := (PriceChart.price l - PriceChart.price f)%js;
          PriceChart.changePct :=
            ((PriceChart.price l - PriceChart.price f) / PriceChart.price f
             * num 100)%js |}) /\
  (forall s p hist f l,
     PortfolioPerformance.portfolioId s <> "" ->
     p <> PortfolioPerformance.period s ->
     (1 < length hist)%nat ->
     first_item hist = Some f -> last_item hist = Some l ->
     let s1 := PortfolioPerformance.step s (PortfolioPerformance.SetPeriod p) in
     let s2 := PortfolioPerformance.step s1
                 (PortfolioPerformance.Settle
                    (length (PortfolioPerformance.pending s)) (Fulfilled hist)) in
     PortfolioPerformance.out s1 =
       PortfolioPerformance.out s ++
       [PortfolioPerformance.history_url (PortfolioPerformance.portfolioId s) p] /\
     PortfolioPerformance.stats s2 =
       {| PortfolioPerformance.change :=
            (PortfolioPerformance.price l - PortfolioPerformance.price f)%js;
          PortfolioPerformance.changePct :=
            ((PortfolioPerformance.price l - PortfolioPerformance.price f)
             / PortfolioPerformance.price f * num 100)%js |}) /\
  (forall s pid key hist f l,
     pid <> "" ->
     pid <> PortfolioPerformance.portfolioId s ->
     (1 < length hist)%nat ->
     first_item hist = Some f -> last_item hist = Some l ->
     let s1 := PortfolioPerformance.step s (PortfolioPerformance.SetProps pid key) in
     let s2 := PortfolioPerformance.step s1
                 (PortfolioPerformance.Settle
                    (length (PortfolioPerformance.pending s)) (Fulfilled hist)) in
     PortfolioPerformance.out s1 =
       PortfolioPerformance.out s ++
       [PortfolioPerformance.history_url pid (PortfolioPerformance.period s)] /\
     PortfolioPerformance.stats s2 =
       {| PortfolioPerformance.change :=
            (PortfolioPerformance.price l - PortfolioPerformance.price f)%js;
          PortfolioPerformance.changePct :=
            ((PortfolioPerformance.price l - PortfolioPerformance.price f)
             / PortfolioPerformance.price f * num 100)%js |}) /\
  (* no guard on a first price of 0 *)
  (forall hist f st,
     first_item hist = Some f -> PriceChart.price f = num 0 ->
     PriceChart.compute_stats hist = Some st ->
     is_finite (PriceChart.changePct st) = false) /\
  (forall hist f st,
     first_item hist = Some f -> PortfolioPerformance.price f = num 0 ->
     PortfolioPerformance.compute_stats hist = Some st ->
     is_finite (PortfolioPerformance.changePct st) = false).
Proof.
  repeat apply conj.
  - intros s n c hist f l Hc Hlen Hf Hl.
    apply (PriceChart_settle_stats s n c hist f l); assumption.
  - intros s n u hist f l Hc Hlen Hf Hl.
    apply (PortfolioPerformance_settle_stats s n u hist f l); assumption.
  - intros s p hist f l Hp Hlen Hf Hl s1 s2.
    destruct (PriceChart_SetPeriod_fetches s p Hp) as (_ & Ho & Hpend).
    fold s1 in Ho, Hpend. split.
    + rewrite Ho. unfold PriceChart.fetches. now rewrite omap_app.
    + eapply PriceChart_settle_stats; eauto.
      rewrite Hpend. now rewrite lookup_app_r, Nat.sub_diag by lia.
  - intros s t hist f l Hp Hlen Hf Hl s1 s2.
    destruct (PriceChart_SetTicker_fetches s t Hp) as (_ & Ho & Hpend).
    fold s1 in Ho, Hpend. split.
    + rewrite Ho. unfold PriceChart.fetches. now rewrite omap_app.
    + eapply PriceChart_settle_stats; eauto.
      rewrite Hpend. now rewrite lookup_app_r, Nat.sub_diag by lia.
  - intros s p hist f l Hid Hp Hlen Hf Hl s1 s2.
    destruct (PortfolioPerformance_SetPeriod_fetches s p Hid Hp) as (_ & Ho & Hpend).
    fold s1 in Ho, Hpend. split; [exact Ho|].
    eapply PortfolioPerformance_settle_stats; eauto.
    rewrite Hpend. now rewrite lookup_app_r, Nat.sub_diag by lia.
  - intros s pid key hist f l Hid Hp Hlen Hf Hl s1 s2.
    destruct (PortfolioPerformance_SetProps_fetches s pid key Hid Hp) as (_ & Ho & Hpend).
    fold s1 in Ho, Hpend. split; [exact Ho|].
    eapply PortfolioPerformance_settle_stats; eauto.
    rewrite Hpend. now rewrite lookup_app_r, Nat.sub_diag by lia.
  - intros hist f st Hf H0. unfold PriceChart.compute_stats.
    case_bool_decide; [|discriminate]. rewrite Hf.
    destruct (last_item hist) as [l|]; [|discriminate].
    intros [= <-]. simpl. rewrite H0.
    apply mul_100_not_finite, div_zero_not_finite.
  - intros hist f st Hf H0. unfold PortfolioPerformance.compute_stats.
    case_bool_decide; [|discriminate]. rewrite Hf.
    destruct (last_item hist) as [l|]; [|discriminate].
    intros [= <-]. simpl. rewrite H0.
    apply mul_100_not_finite, div_zero_not_finite.
Qed.
(** A series from 80 to 100 shows +20 and +25%. *)
Example PriceChart_80_100 :
  PriceChart.compute_stats [chart_point 80; chart_point 90; chart_point 100] =
  Some {| PriceChart.change := num 20; PriceChart.changePct := num 25 |}.
Proof. unfold PriceChart.compute_stats; simpl. num_eq. Qed.

(** A series that starts at 0 shows an infinite percentage, one that
    stays at 0 shows NaN. *)
Example PriceChart_from_zero :
  PriceChart.compute_stats [chart_point 0; chart_point 5] =
    Some {| PriceChart.change := num 5; PriceChart.changePct := PosInf |} /\
  PriceChart.compute_stats [chart_point 0; chart_point 0] =
    Some {| PriceChart.change := num 0; PriceChart.changePct := NaN |}.
Proof. split; unfold PriceChart.compute_stats; simpl; num_eq. Qed.

Lemma C1_period_change_stats_witness :
  (let s := PriceChart.step (PriceChart.initial "AAPL") PriceChart.Mount in
   let hist := [chart_point 80; chart_point 100] in
   PriceChart.stats (PriceChart.step s (PriceChart.Settle 0 (Fulfilled hist))) =
     {| PriceChart.change := (num 100 - num 80)%js;
        PriceChart.changePct := ((num 100 - num 80) / num 80 * num 100)%js |}) /\
  (let s := PortfolioPerformance.step (PortfolioPerformance.initial "p1" 0)
              PortfolioPerformance.Mount in
   let hist := [nav_point 80; nav_point 100] in
   PortfolioPerformance.stats
     (PortfolioPerformance.step s (PortfolioPerformance.Settle 0 (Fulfilled hist))) =
     {| PortfolioPerformance.change := (num 100 - num 80)%js;
        PortfolioPerformance.changePct :=
          ((num 100 - num 80) / num 80 * num 100)%js |}) /\
  (let s := PriceChart.initial "AAPL" in
   let hist := [chart_point 80; chart_point 100] in
   let s1 := PriceChart.step s (PriceChart.SetPeriod PriceChart.P_1d) in
   let s2 := PriceChart.step s1 (PriceChart.Settle 0 (Fulfilled hist)) in
   PriceChart.fetches (PriceChart.out s1) =
     ["/api/history/AAPL?period=1d&interval=5m"] /\
   PriceChart.stats s2 =
     {| PriceChart.change := (num 100 - num 80)%js;
        PriceChart.changePct := ((num 100 - num 80) / num 80 * num 100)%js |}) /\
  (let s := PriceChart.initial "AAPL" in
   let hist := [chart_point 80; chart_point 100] in
   let s1 := PriceChart.step s (PriceChart.SetTicker "MSFT") in
   let s2 := PriceChart.step s1 (PriceChart.Settle 0 (Fulfilled hist)) in
   PriceChart.fetches (PriceChart.out s1) =
     ["/api/history/MSFT?period=1mo&interval=1d"] /\
   PriceChart.stats s2 =
     {| PriceChart.change := (num 100 - num 80)%js;
        PriceChart.changePct := ((num 100 - num 80) / num 80 * num 100)%js |}) /\
  (let s := PortfolioPerformance.initial "p1" 0 in
   let hist := [nav_point 80; nav_point 100] in
   let s1 := PortfolioPerformance.step s
               (PortfolioPerformance.SetPeriod PortfolioPerformance.P_1y) in
   let s2 := PortfolioPerformance.step s1
               (PortfolioPerformance.Settle 0 (Fulfilled hist)) in
   PortfolioPerformance.out s1 = ["/api/portfolio/p1/history?period=1y"] /\
   PortfolioPerformance.stats s2 =
     {| PortfolioPerformance.change := (num 100 - num 80)%js;
        PortfolioPerformance.changePct :=
          ((num 100 - num 80) / num 80 * num 100)%js |}) /\
  (let s := PortfolioPerformance.initial "p1" 0 in
   let hist := [nav_point 80; nav_point 100] in
   let s1 := PortfolioPerformance.step s (PortfolioPerformance.SetProps "p2" 0) in
   let s2 := PortfolioPerformance.step s1
               (PortfolioPerformance.Settle 0 (Fulfilled hist)) in
   PortfolioPerformance.out s1 = ["/api/portfolio/p2/history?period=1mo"] /\
   PortfolioPerformance.stats s2 =
     {| PortfolioPerformance.change := (num 100 - num 80)%js;
        PortfolioPerformance.changePct :=
          ((num 100 - num 80) / num 80 * num 100)%js |}) /\
  is_finite (PriceChart.changePct
     {| PriceChart.change := (num 5 - num 0)%js;
        PriceChart.changePct := ((num 5 - num 0) / num 0 * num 100)%js |}) = false /\
  is_finite (PortfolioPerformance.changePct
     {| PortfolioPerformance.change := (num 5 - num 0)%js;
        PortfolioPerformance.changePct :=
          ((num 5 - num 0) / num 0 * num 100)%js |}) = false.
Proof.
  destruct C1_period_change_stats
    as (H1 & H2 & H3 & H4 & H5 & H6 & H7 & H8).
  split; [|split; [|split; [|split; [|split; [|split; [|split]]]]]].
  - apply (H1 (PriceChart.step (PriceChart.initial "AAPL") PriceChart.Mount) 0%nat
             {| PriceChart.url := "/api/history/AAPL?period=1mo&interval=1d";
                PriceChart.captured := PriceChart.P_1mo |}
             [chart_point 80; chart_point 100] (chart_point 80) (chart_point 100));
      [reflexivity | simpl; lia | reflexivity | reflexivity].
  - apply (H2 (PortfolioPerformance.step (PortfolioPerformance.initial "p1" 0)
                 PortfolioPerformance.Mount) 0%nat "/api/portfolio/p1/history?period=1mo"
             [nav_point 80; nav_point 100] (nav_point 80) (nav_point 100));
      [reflexivity | simpl; lia | reflexivity | reflexivity].
  - apply (H3 (PriceChart.initial "AAPL") PriceChart.P_1d
             [chart_point 80; chart_point 100] (chart_point 80) (chart_point 100));
      [discriminate | simpl; lia | reflexivity | reflexivity].
  - apply (H4 (PriceChart.initial "AAPL") "MSFT"
             [chart_point 80; chart_point 100] (chart_point 80) (chart_point 100));
      [discriminate | simpl; lia | reflexivity | reflexivity].
  - apply (H5 (PortfolioPerformance.initial "p1" 0) PortfolioPerformance.P_1y
             [nav_point 80; nav_point 100] (nav_point 80) (nav_point 100));
      [discriminate | discriminate | simpl; lia | reflexivity | reflexivity].
  - apply (H6 (PortfolioPerformance.initial "p1" 0) "p2" 0%nat
             [nav_point 80; nav_point 100] (nav_point 80) (nav_point 100));
      [discriminate | discriminate | simpl; lia | reflexivity | reflexivity].
  - apply (H7 [chart_point 0; chart_point 5] (chart_point 0) _ eq_refl eq_refl eq_refl).
  - apply (H8 [nav_point 0; nav_point 5] (nav_point 0) _ eq_refl eq_refl eq_refl).
Defined.

(** ** Overlapping history fetches *)

(** A response that arrives replaces the displayed series, whichever
    period the chart shows by then. *)
Lemma PriceChart_settle_replaces s n c hist :
  PriceChart.pending s !! n = Some c ->
  let s' := PriceChart.step s (PriceChart.Settle n (Fulfilled hist)) in
  PriceChart.data s' = hist /\
  PriceChart.period s' = PriceChart.period s /\
  PriceChart.pending s' = delete n (PriceChart.pending s).
Proof. intros Hc. simpl. rewrite Hc. now simpl. Qed.

Lemma PriceChart_SetPeriod_same s :
  PriceChart.step s (PriceChart.SetPeriod (PriceChart.period s)) = s.
Proof.
  simpl. unfold deps_changed. now rewrite bool_decide_eq_false_2 by tauto.
Qed.

Lemma PriceChart_SetPeriod_other s p :
  p <> PriceChart.period s ->
  PriceChart.step s (PriceChart.SetPeriod p) =
  PriceChart.fetchHistory (PriceChart.with_deps (PriceChart.ticker s) p s).
Proof.
  intros Hp. simpl. unfold deps_changed.
  now rewrite bool_decide_eq_true_2 by congruence.
Qed.

(** The user clicks 1D and then 5D; the 5D response arrives first, the 1D
    response second.  The chart is left on period 5D showing the 1D series. *)
Lemma C9_stale_response_applied :
  let s := PriceChart.run (PriceChart.initial "AAPL")
             [PriceChart.Mount; PriceChart.Settle 0 (Fulfilled []);
              PriceChart.SetPeriod PriceChart.P_1d;
              PriceChart.SetPeriod PriceChart.P_5d] in
  let final := PriceChart.run s
             [PriceChart.Settle 1 (Fulfilled (history_backend
                 (PriceChart.history_url "AAPL" PriceChart.P_5d)));
              PriceChart.Settle 0 (Fulfilled (history_backend
                 (PriceChart.history_url "AAPL" PriceChart.P_1d)))] in
  PriceChart.pending final = [] /\
  PriceChart.period final = PriceChart.P_5d /\
  PriceChart.data final = series_1d /\
  PriceChart.data final <>
    history_backend (PriceChart.history_url "AAPL" (PriceChart.period final)).
Proof. repeat apply conj; try reflexivity. discriminate. Qed.

(** C9, amended.  Selecting a different period sends exactly one history
    fetch (selecting the current one sends none), and a response replaces
    the displayed series when it arrives.  Nothing is cancelled and
    responses are applied in the order of arrival: of two overlapping
    fetches the one that resolves last is the one displayed, which is the
    most recently selected period when the responses arrive in the order
    the fetches were sent, and the earlier period otherwise. *)
Theorem C9_last_arrival_wins :
  (forall s p,
     p <> PriceChart.period s ->
     PriceChart.fetches (PriceChart.out (PriceChart.step s (PriceChart.SetPeriod p))) =
       PriceChart.fetches (PriceChart.out s) ++
       [PriceChart.history_url (PriceChart.ticker s) p]) /\
  (forall s, PriceChart.step s (PriceChart.SetPeriod (PriceChart.period s)) = s) /\
  (forall s n c hist,
     PriceChart.pending s !! n = Some c ->
     PriceChart.data (PriceChart.step s (PriceChart.Settle n (Fulfilled hist))) = hist) /\
  (forall s p1 p2 d1 d2,
     PriceChart.pending s = [] ->
     p1 <> PriceChart.period s -> p2 <> p1 ->
     let s2 := PriceChart.run s [PriceChart.SetPeriod p1; PriceChart.SetPeriod p2] in
     let in_order := PriceChart.run s2
           [PriceChart.Settle 0 (Fulfilled d1); PriceChart.Settle 0 (Fulfilled d2)] in
     let reversed := PriceChart.run s2
           [PriceChart.Settle 1 (Fulfilled d2); PriceChart.Settle 0 (Fulfilled d1)] in
     PriceChart.period s2 = p2 /\
     map PriceChart.captured (PriceChart.pending s2) = [p1; p2] /\
     PriceChart.period in_order = p2 /\ PriceChart.data in_order = d2 /\
     PriceChart.period reversed = p2 /\ PriceChart.data reversed = d1).
Proof.
  repeat apply conj.
  - intros s p Hp.
    destruct (PriceChart_SetPeriod_fetches s p Hp) as (_ & Ho & _).
    rewrite Ho. unfold PriceChart.fetches. now rewrite omap_app.
  - apply PriceChart_SetPeriod_same.
  - intros s n c hist Hc.
    now destruct (PriceChart_settle_replaces s n c hist Hc) as (? & _).
  - intros s p1 p2 d1 d2 Hpend Hp1 Hp2.
    unfold PriceChart.run. cbn [foldl].
    rewrite (PriceChart_SetPeriod_other s p1 Hp1).
    rewrite PriceChart_SetPeriod_other by (simpl; congruence).
    simpl. rewrite Hpend. simpl. repeat split.
Qed.

Lemma C9_last_arrival_wins_witness :
  (PriceChart.fetches (PriceChart.out
      (PriceChart.step (PriceChart.initial "AAPL")
         (PriceChart.SetPeriod PriceChart.P_1d))) =
     ["/api/history/AAPL?period=1d&interval=5m"]) /\
  (let s := PriceChart.step (PriceChart.initial "AAPL") PriceChart.Mount in
   PriceChart.data (PriceChart.step s (PriceChart.Settle 0 (Fulfilled series_1d))) =
     series_1d) /\
  (let s2 := PriceChart.run (PriceChart.initial "AAPL")
               [PriceChart.SetPeriod PriceChart.P_1d;
                PriceChart.SetPeriod PriceChart.P_5d] in
   let in_order := PriceChart.run s2
         [PriceChart.Settle 0 (Fulfilled series_1d);
          PriceChart.Settle 0 (Fulfilled series_5d)] in
   let reversed := PriceChart.run s2
         [PriceChart.Settle 1 (Fulfilled series_5d);
          PriceChart.Settle 0 (Fulfilled series_1d)] in
   PriceChart.period s2 = PriceChart.P_5d /\
   map PriceChart.captured (PriceChart.pending s2) =
     [PriceChart.P_1d; PriceChart.P_5d] /\
   PriceChart.period in_order = PriceChart.P_5d /\
   PriceChart.data in_order = series_5d /\
   PriceChart.period reversed = PriceChart.P_5d /\
   PriceChart.data reversed = series_1d).
Proof.
  destruct C9_last_arrival_wins as (H1 & _ & H3 & H4).
  split; [|split].
  - apply (H1 (PriceChart.initial "AAPL") PriceChart.P_1d). discriminate.
  - apply (H3 (PriceChart.step (PriceChart.initial "AAPL") PriceChart.Mount) 0%nat
             {| PriceChart.url := "/api/history/AAPL?period=1mo&interval=1d";
                PriceChart.captured := PriceChart.P_1mo |}).
    reflexivity.
  - apply (H4 (PriceChart.initial "AAPL") PriceChart.P_1d PriceChart.P_5d
             series_1d series_5d); [reflexivity | discriminate | discriminate].
Defined.
(** ** Currency conversion *)

Lemma falsy_Fin (a : Qc) : truthy (Fin a) = false -> a = Q2Qc 0.
Proof.
  intros H. apply Qc_sign_Zero. simpl in H. now destruct (Qc_sign a).
Qed.

Lemma num_0_Fin (a : Qc) : truthy (Fin a) = false -> num 0 = Fin a.
Proof. intros H. now rewrite (falsy_Fin a H). Qed.

Lemma Qcmult_nonzero (a r : Qc) :
  a <> Q2Qc 0 -> r <> Q2Qc 0 -> (a * r)%Qc <> Q2Qc 0.
Proof.
  intros Ha Hr H. destruct (Qcmult_integral _ _ H); contradiction.
Qed.

(** From USD into an active EUR the amount is multiplied by the rate,
    from EUR into an active USD it is divided by it. *)
Lemma convert_USD_to_EUR s (a : number) :
  truthy a = true ->
  CurrencyContext.convert (CurrencyContext.setCurrency CurrencyContext.EUR s)
    a CurrencyContext.USD = (a * CurrencyContext.exchangeRate s)%js.
Proof. intros Ha. unfold CurrencyContext.convert. now rewrite Ha. Qed.

Lemma convert_EUR_to_USD s (a : number) :
  truthy a = true ->
  CurrencyContext.convert (CurrencyContext.setCurrency CurrencyContext.USD s)
    a CurrencyContext.EUR = (a / CurrencyContext.exchangeRate s)%js.
Proof. intros Ha. unfold CurrencyContext.convert. now rewrite Ha. Qed.

Lemma convert_same_currency s (a : number) from :
  is_nan a = false ->
  CurrencyContext.currency s = CurrencyContext.code from ->
  CurrencyContext.convert s a from = a.
Proof.
  intros Hn Hc. unfold CurrencyContext.convert.
  destruct (truthy a) eqn:Ha; simpl.
  - now rewrite bool_decide_eq_true_2.
  - destruct a as [a| | |]; try discriminate. now apply num_0_Fin.
Qed.

(** The product by the rate, divided by the rate. *)
Lemma times_rate_over_rate (a r : Qc) :
  roomy (Fin a) = true -> normal (Fin (a * r)%Qc) = true ->
  exists p q : Qc,
    (Fin a * Fin r)%js = Fin p /\ truthy (Fin p) = true /\
    (Fin p / Fin r)%js = Fin q /\
    within (3 * rounding_unit) (Fin q) (Fin a) = true.
Proof.
  intros Ha Hx.
  assert (Hr0 : ~ (r == 0)%Q).
  { intros E. apply (magnitude_nonzero _ _ _ Hx).
    simpl. rewrite Qred_correct, E. ring. }
  assert (Hs : Qc_sign r <> Zero).
  { unfold Qc_sign. destruct (this r ?= 0)%Q eqn:E; try discriminate.
    now apply Qeq_alt in E. }
  set (p := Q2Qc (nearest (a * r)%Qc)).
  destruct (scaled_there_and_back a (/ r)%Qc (a * r)%Qc (p / r)%Qc Ha Hx)
    as (H1 & H2 & H3 & H4).
  - simpl. rewrite !Qred_correct. field. exact Hr0.
  - unfold Qcdiv. simpl. rewrite !Qred_correct. reflexivity.
  - exists p, (Q2Qc (nearest (p / r)%Qc)). split; [exact H1|]. split; [exact H2|].
    split; [|exact H4]. unfold num_div. fold p in H3.
    destruct (Qc_sign r); [exact H3 | contradiction | exact H3].
Qed.

(** The quotient by the rate, multiplied by the rate. *)
Lemma over_rate_times_rate (a r : Qc) :
  roomy (Fin a) = true -> normal (Fin (a / r)%Qc) = true ->
  exists p q : Qc,
    (Fin a / Fin r)%js = Fin p /\ truthy (Fin p) = true /\
    (Fin p * Fin r)%js = Fin q /\
    within (3 * rounding_unit) (Fin q) (Fin a) = true.
Proof.
  intros Ha Hx.
  assert (Hq : ((a / r)%Qc == a * / r)%Q).
  { unfold Qcdiv. simpl. rewrite !Qred_correct. reflexivity. }
  assert (Hr0 : ~ (r == 0)%Q).
  { intros E. apply (magnitude_nonzero _ _ _ Hx). rewrite Hq, E.
    change (/ 0)%Q with 0%Q. ring. }
  assert (Hs : Qc_sign r <> Zero).
  { unfold Qc_sign. destruct (this r ?= 0)%Q eqn:E; try discriminate.
    now apply Qeq_alt in E. }
  set (p := Q2Qc (nearest (a / r)%Qc)).
  destruct (scaled_there_and_back a r (a / r)%Qc (p * r)%Qc Ha Hx)
    as (H1 & H2 & H3 & H4).
  - rewrite Hq. field. exact Hr0.
  - simpl. apply Qred_correct.
  - exists p, (Q2Qc (nearest (p * r)%Qc)). fold p in H1, H2.
    split; [|split; [exact H2|split; [exact H3|exact H4]]].
    unfold num_div. destruct (Qc_sign r); [exact H1 | contradiction | exact H1].
Qed.

(** The two round trips through [convert]. *)
Lemma usd_eur_usd s (a r : Qc) :
  CurrencyContext.exchangeRate s = Fin r ->
  roomy (Fin a) = true -> normal (Fin (a * r)%Qc) = true ->
  within (3 * rounding_unit)
    (CurrencyContext.convert (CurrencyContext.setCurrency CurrencyContext.USD s)
       (CurrencyContext.convert
          (CurrencyContext.setCurrency CurrencyContext.EUR s)
          (Fin a) CurrencyContext.USD)
       CurrencyContext.EUR) (Fin a) = true.
Proof.
  intros Er Ha Hx.
  destruct (times_rate_over_rate a r Ha Hx) as (p & q & E1 & Hp & E2 & Hw).
  rewrite (convert_USD_to_EUR s (Fin a) (magnitude_truthy _ _ a Ha)), Er, E1.
  now rewrite (convert_EUR_to_USD s (Fin p) Hp), Er, E2.
Qed.

Lemma eur_usd_eur s (a r : Qc) :
  CurrencyContext.exchangeRate s = Fin r ->
  roomy (Fin a) = true -> normal (Fin (a / r)%Qc) = true ->
  within (3 * rounding_unit)
    (CurrencyContext.convert (CurrencyContext.setCurrency CurrencyContext.EUR s)
       (CurrencyContext.convert
          (CurrencyContext.setCurrency CurrencyContext.USD s)
          (Fin a) CurrencyContext.EUR)
       CurrencyContext.USD) (Fin a) = true.
Proof.
  intros Er Ha Hx.
  destruct (over_rate_times_rate a r Ha Hx) as (p & q & E1 & Hp & E2 & Hw).
  rewrite (convert_EUR_to_USD s (Fin a) (magnitude_truthy _ _ a Ha)), Er, E1.
  now rewrite (convert_USD_to_EUR s (Fin p) Hp), Er, E2.
Qed.

(** The provider never stores a falsy rate: it starts from 0.92 and only
    ever replaces it by a truthy [data.rate]. *)
Lemma stored_rate_truthy ls es :
  truthy (CurrencyContext.exchangeRate
            (CurrencyContext.run (CurrencyContext.initial ls) es)) = true.
Proof.
  unfold CurrencyContext.run.
  assert (H0 : truthy (CurrencyContext.exchangeRate (CurrencyContext.initial ls)) = true)
    by reflexivity.
  revert H0. generalize (CurrencyContext.initial ls) as s.
  induction es as [|e es IH]; intros s Hs; [exact Hs|].
  simpl. apply IH. destruct e as [c|[[rate|]|]]; simpl; try exact Hs.
  destruct (truthy rate) eqn:E; simpl; assumption.
Qed.

Lemma stored_rate_finite ls es :
  Forall CurrencyContext.finite_rate es ->
  is_finite (CurrencyContext.exchangeRate
               (CurrencyContext.run (CurrencyContext.initial ls) es)) = true.
Proof.
  unfold CurrencyContext.run.
  assert (H0 : is_finite (CurrencyContext.exchangeRate (CurrencyContext.initial ls)) = true)
    by reflexivity.
  revert H0. generalize (CurrencyContext.initial ls) as s.
  induction es as [|e es IH]; intros s Hs Hall; [exact Hs|].
  inversion Hall as [|? ? He Hes]; subst.
  simpl. apply IH; [|exact Hes].
  destruct e as [c|[[rate|]|]]; simpl in *; try exact Hs.
  destruct (truthy rate); simpl; assumption.
Qed.

(** C2, as the claim states it, fails where a product overflows.  The
    backend answers the rate 1e300, which [fetchRate] stores like any
    other truthy number: ten thousand million USD are shown as an
    infinite amount in EUR, and the way back keeps it infinite. *)
Lemma C2_round_trip_overflows :
  CurrencyContext.exchangeRate rate_1e300 = frac (10 ^ 300) 1 /\
  CurrencyContext.convert
    (CurrencyContext.setCurrency CurrencyContext.EUR rate_1e300)
    (num (10 ^ 10)) CurrencyContext.USD = PosInf /\
  CurrencyContext.convert
    (CurrencyContext.setCurrency CurrencyContext.USD rate_1e300)
    (CurrencyContext.convert
       (CurrencyContext.setCurrency CurrencyContext.EUR rate_1e300)
       (num (10 ^ 10)) CurrencyContext.USD)
    CurrencyContext.EUR = PosInf /\
  within (3 * rounding_unit) PosInf (num (10 ^ 10)) = false.
Proof. repeat split; num_eq. Qed.

(** C2, amended.  While EUR is active an amount in USD is converted by
    one multiplication by the stored rate, while USD is active an amount
    in EUR by one division by it, each rounded to the nearest double.
    Where the amount is between 2^-1021 and 2^1022 in magnitude and its
    exact converted value between 2^-1022 and 2^1023, so that neither
    rounding underflows or overflows, the way there and back, in either
    order, returns a double that differs from the amount by at most the
    fraction 3 * 2^-53 of it.
    The amount 0 is converted to 0, and when the active currency is the
    source currency every amount other than [NaN] is returned as it
    is. *)
Theorem C2_convert_round_trip :
  (forall s (a : number),
     truthy a = true ->
     CurrencyContext.convert
       (CurrencyContext.setCurrency CurrencyContext.EUR s) a CurrencyContext.USD
     = (a * CurrencyContext.exchangeRate s)%js /\
     CurrencyContext.convert
       (CurrencyContext.setCurrency CurrencyContext.USD s) a CurrencyContext.EUR
     = (a / CurrencyContext.exchangeRate s)%js) /\
  (forall s (a r : Qc),
     let eur := CurrencyContext.setCurrency CurrencyContext.EUR s in
     let usd := CurrencyContext.setCurrency CurrencyContext.USD s in
     CurrencyContext.exchangeRate s = Fin r ->
     roomy (Fin a) = true ->
     (normal (Fin (a * r)%Qc) = true ->
      within (3 * rounding_unit)
        (CurrencyContext.convert usd
           (CurrencyContext.convert eur (Fin a) CurrencyContext.USD)
           CurrencyContext.EUR) (Fin a) = true) /\
     (normal (Fin (a / r)%Qc) = true ->
      within (3 * rounding_unit)
        (CurrencyContext.convert eur
           (CurrencyContext.convert usd (Fin a) CurrencyContext.EUR)
           CurrencyContext.USD) (Fin a) = true)) /\
  (forall s from, CurrencyContext.convert s (num 0) from = num 0) /\
  (forall s (a : number) from,
     is_nan a = false ->
     CurrencyContext.currency s = CurrencyContext.code from ->
     CurrencyContext.convert s a from = a).
Proof.
  split; [|split; [|split]].
  - intros s a Ha. split.
    + now apply convert_USD_to_EUR.
    + now apply convert_EUR_to_USD.
  - intros s a r eur usd Er Ha. subst eur usd. split; intros Hx.
    + now apply usd_eur_usd with r.
    + now apply eur_usd_eur with r.
  - intros s from. reflexivity.
  - intros s a from. apply convert_same_currency.
Qed.

Lemma C2_convert_round_trip_witness :
  let eur := CurrencyContext.setCurrency CurrencyContext.EUR rate_0_85 in
  let usd := CurrencyContext.setCurrency CurrencyContext.USD rate_0_85 in
  (CurrencyContext.convert eur (num 200) CurrencyContext.USD
   = (num 200 * CurrencyContext.exchangeRate rate_0_85)%js /\
   CurrencyContext.convert usd (num 200) CurrencyContext.EUR
   = (num 200 / CurrencyContext.exchangeRate rate_0_85)%js) /\
  within (3 * rounding_unit)
    (CurrencyContext.convert usd
       (CurrencyContext.convert eur (frac 11 10) CurrencyContext.USD)
       CurrencyContext.EUR) (frac 11 10) = true /\
  within (3 * rounding_unit)
    (CurrencyContext.convert eur
       (CurrencyContext.convert usd (frac 11 10) CurrencyContext.EUR)
       CurrencyContext.USD) (frac 11 10) = true /\
  CurrencyContext.convert usd PosInf CurrencyContext.USD = PosInf.
Proof.
  pose proof C2_convert_round_trip as (H1 & H2 & _ & H4).
  split; [exact (H1 rate_0_85 (num 200) eq_refl)|].
  destruct (H2 rate_0_85 (Q2Qc (nearest (11 # 10))) (Q2Qc (nearest (85 # 100))))
    as [Ha Hb].
  - num_eq.
  - vm_compute. reflexivity.
  - split; [|split].
    + apply Ha. vm_compute. reflexivity.
    + apply Hb. vm_compute. reflexivity.
    + apply (H4 (CurrencyContext.setCurrency CurrencyContext.USD rate_0_85)
                PosInf CurrencyContext.USD); reflexivity.
Defined.

(** Amounts and rates between 2^-500 and 2^500 in magnitude, which is
    every amount and rate other than 0 that a price or an exchange rate
    can be, come back within the tolerance in either order. *)
Corollary ordinary_round_trip s (a r : Qc) :
  CurrencyContext.exchangeRate s = Fin r ->
  ordinary (Fin a) = true -> ordinary (Fin r) = true ->
  let eur := CurrencyContext.setCurrency CurrencyContext.EUR s in
  let usd := CurrencyContext.setCurrency CurrencyContext.USD s in
  within (3 * rounding_unit)
    (CurrencyContext.convert usd
       (CurrencyContext.convert eur (Fin a) CurrencyContext.USD)
       CurrencyContext.EUR) (Fin a) = true /\
  within (3 * rounding_unit)
    (CurrencyContext.convert eur
       (CurrencyContext.convert usd (Fin a) CurrencyContext.EUR)
       CurrencyContext.USD) (Fin a) = true.
Proof.
  intros Er Ha Hr eur usd. subst eur usd. split.
  - apply usd_eur_usd with r; auto using ordinary_roomy, ordinary_times.
  - apply eur_usd_eur with r; auto using ordinary_roomy, ordinary_over.
Qed.

(** 200 USD are shown as 184 EUR at the initial rate. *)
Example convert_200_USD :
  CurrencyContext.convert
    (CurrencyContext.setCurrency CurrencyContext.EUR (CurrencyContext.initial ∅))
    (num 200) CurrencyContext.USD = num 184.
Proof. num_eq. Qed.

(** The way there and back is not exact: at the initial rate 1.1 USD,
    shown in EUR and taken back, are 1.1000000000000003 USD, one unit in
    the last place above. *)
Example round_trip_of_1_1 :
  let s := CurrencyContext.initial ∅ in
  let eur := CurrencyContext.setCurrency CurrencyContext.EUR s in
  let usd := CurrencyContext.setCurrency CurrencyContext.USD s in
  CurrencyContext.convert usd
    (CurrencyContext.convert eur (frac 11 10) CurrencyContext.USD)
    CurrencyContext.EUR =
  (frac 11 10 + Fin (Q2Qc (pow2 (-52))))%js.
Proof. num_eq. Qed.

(** Below the normal doubles the tolerance is lost as well: six times
    the smallest double, at the initial rate, come back as seven times
    it. *)
Example round_trip_underflows :
  let s := CurrencyContext.initial ∅ in
  let eur := CurrencyContext.setCurrency CurrencyContext.EUR s in
  let usd := CurrencyContext.setCurrency CurrencyContext.USD s in
  CurrencyContext.convert usd
    (CurrencyContext.convert eur (Fin (Q2Qc (6 * pow2 (-1074))))
       CurrencyContext.USD)
    CurrencyContext.EUR =
  Fin (Q2Qc (7 * pow2 (-1074))).
Proof. num_eq. Qed.
(** ** Browser storage *)

Lemma set_storage_lookup k v s k' :
  App.localStorage (App.set_storage k v s) !! k' =
  if decide (k = k') then Some v else App.localStorage s !! k'.
Proof. simpl. apply lookup_insert. Qed.

Lemma size_storage_keys : size App.storage_keys = 3%nat.
Proof. vm_compute. reflexivity. Qed.

Lemma frames_refl s : App.frames s s.
Proof. now intros k _. Qed.

Lemma frames_trans s1 s2 s3 : App.frames s1 s2 -> App.frames s2 s3 -> App.frames s1 s3.
Proof. intros H12 H23 k Hk. now rewrite H23, H12. Qed.

Lemma frames_set_storage k v s :
  k ∈ App.storage_keys -> App.frames s (App.set_storage k v s).
Proof.
  intros Hk k' Hk'. rewrite set_storage_lookup.
  destruct (decide (k = k')); [subst; contradiction | reflexivity].
Qed.

Lemma frames_same_storage s s' :
  App.localStorage s' = App.localStorage s -> App.frames s s'.
Proof. intros H k _. now rewrite H. Qed.

Lemma frames_setActiveTab t s : App.frames s (App.setActiveTab t s).
Proof.
  unfold App.setActiveTab. destruct (deps_changed _ _).
  - unfold App.effect_activeTab.
    eapply frames_trans; [|apply frames_set_storage; set_solver].
    now apply frames_same_storage.
  - now apply frames_same_storage.
Qed.

Lemma frames_setAnalysis B v s : App.frames s (App.setAnalysis B v s).
Proof.
  unfold App.setAnalysis, App.effect_analysis. cbn [App.analysis].
  destruct (json_truthy v).
  - eapply frames_trans; [|apply frames_set_storage; set_solver].
    now apply frames_same_storage.
  - now apply frames_same_storage.
Qed.

Lemma frames_setProvider p s : App.frames s (App.setProvider p s).
Proof.
  unfold App.setProvider. destruct (deps_changed _ _).
  - unfold App.effect_currency.
    eapply frames_trans; [|apply frames_set_storage; set_solver].
    now apply frames_same_storage.
  - now apply frames_same_storage.
Qed.

Lemma frames_handleSearch B t s : App.frames s (App.handleSearch B t s).
Proof.
  unfold App.handleSearch.
  eapply frames_trans; [|now apply frames_same_storage].
  eapply frames_trans; [|apply frames_setActiveTab].
  eapply frames_trans; [|apply frames_setAnalysis].
  now apply frames_same_storage.
Qed.

Lemma frames_handleSearch_resume B r s :
  App.frames s (App.handleSearch_resume B r s).
Proof.
  unfold App.handleSearch_resume.
  eapply frames_trans; [|now apply frames_same_storage].
  destruct r as [resp|m]; [|now apply frames_same_storage].
  destruct (ok resp); [|now apply frames_same_storage].
  destruct (snd _); [apply frames_setAnalysis | now apply frames_same_storage].
Qed.

Lemma frames_step B s e : App.frames s (App.step B s e).
Proof.
  destruct e as [ |t|c|r|b|t|t|n r]; simpl.
  - unfold App.effect_currency, App.effect_analysis, App.effect_activeTab.
    eapply frames_trans; [|apply frames_set_storage; set_solver].
    destruct (json_truthy _).
    + eapply frames_trans; [|apply frames_set_storage; set_solver].
      apply frames_set_storage; set_solver.
    + apply frames_set_storage; set_solver.
  - apply frames_setActiveTab.
  - apply frames_setProvider.
  - apply frames_setProvider.
  - now apply frames_same_storage.
  - apply frames_handleSearch.
  - eapply frames_trans; [apply frames_setActiveTab | apply frames_handleSearch].
  - destruct (App.pending s !! n); [|apply frames_refl].
    eapply frames_trans; [|apply frames_handleSearch_resume].
    now apply frames_same_storage.
Qed.

Lemma frames_run B es : forall s, App.frames s (App.run B s es).
Proof.
  unfold App.run. induction es as [|e es IH]; intros s; [apply frames_refl|].
  simpl. eapply frames_trans; [apply frames_step | apply IH].
Qed.

(** Each write replaces the whole value stored under its key. *)
Lemma ClickTab_overwrites B s t :
  App.Tab_name t <> App.activeTab s ->
  App.localStorage (App.step B s (App.ClickTab t)) =
  <["activeTab" := App.Tab_name t]> (App.localStorage s).
Proof.
  intros Ht. simpl. unfold App.setActiveTab, deps_changed.
  now rewrite bool_decide_eq_true_2 by congruence.
Qed.

Lemma ClickCurrency_overwrites B s c :
  CurrencyContext.code c <> CurrencyContext.currency (App.provider s) ->
  App.localStorage (App.step B s (App.ClickCurrency c)) =
  <["preferred_currency" := CurrencyContext.code c]> (App.localStorage s).
Proof.
  intros Hc. simpl. unfold App.setProvider, deps_changed. simpl.
  now rewrite bool_decide_eq_true_2 by congruence.
Qed.

Lemma AnalyzeSettled_overwrites B s n t resp data :
  App.pending s !! n = Some t ->
  ok resp = true -> JSON_parse B (body resp) = Some data ->
  json_truthy data = true ->
  App.localStorage (App.step B s (App.AnalyzeSettled n (Http resp))) =
  <["lastAnalysis" := JSON_stringify B data]> (App.localStorage s).
Proof.
  intros Hp Hok Hparse Htruthy. simpl. rewrite Hp.
  unfold App.handleSearch_resume. rewrite Hok.
  unfold Response_json, received. simpl. rewrite Hparse. simpl.
  unfold App.setAnalysis, App.effect_analysis. simpl. now rewrite Htruthy.
Qed.

(** Resetting the analysis to [null], as every search does first, leaves
    the stored blob in place. *)
Lemma setAnalysis_null_keeps B s :
  App.localStorage (App.setAnalysis B JNull s) = App.localStorage s.
Proof. reflexivity. Qed.

(** From an empty storage: mounting, analysing a ticker and receiving the
    analysis leaves exactly three keys, not two. *)
Lemma C7_three_keys_written :
  exists s0,
    App.initial test_browser ∅ = Normal s0 /\
    let s := App.run test_browser s0
               [App.Mount; App.Search "AAPL";
                App.AnalyzeSettled 0
                  (Http {| ok := true; status := 200; statusText := "OK";
                           body := "{}" |})] in
    App.localStorage s =
      {[ "activeTab" := "analyze"; "lastAnalysis" := "{}";
         "preferred_currency" := "USD" ]} /\
    dom (App.localStorage s) = App.storage_keys /\
    size (dom (App.localStorage s)) = 3%nat /\
    size (dom (App.localStorage s)) <> 2%nat.
Proof.
  eexists. split; [reflexivity|].
  assert (H : App.localStorage
            (App.run test_browser
               {| App.activeTab := "analyze"; App.analysis := JNull;
                  App.loading := false; App.error := None;
                  App.isChatOpen := false;
                  App.provider := CurrencyContext.initial ∅;
                  App.localStorage := ∅; App.pending := []; App.out := [] |}
               [App.Mount; App.Search "AAPL";
                App.AnalyzeSettled 0
                  (Http {| ok := true; status := 200; statusText := "OK";
                           body := "{}" |})]) =
            {[ "activeTab" := "analyze"; "lastAnalysis" := "{}";
               "preferred_currency" := "USD" ]}).
  { apply map_eq. intros k. vm_compute. reflexivity. }
  cbv zeta. change (App.run test_browser _ _) with
    (App.run test_browser
               {| App.activeTab := "analyze"; App.analysis := JNull;
                  App.loading := false; App.error := None;
                  App.isChatOpen := false;
                  App.provider := CurrencyContext.initial ∅;
                  App.localStorage := ∅; App.pending := []; App.out := [] |}
               [App.Mount; App.Search "AAPL";
                App.AnalyzeSettled 0
                  (Http {| ok := true; status := 200; statusText := "OK";
                           body := "{}" |})]).
  rewrite H. split; [reflexivity|].
  assert (Hd : dom ({[ "activeTab" := "analyze"; "lastAnalysis" := "{}";
                       "preferred_currency" := "USD" ]} : gmap string string)
               = App.storage_keys).
  { unfold App.storage_keys. rewrite !dom_insert_L, dom_singleton_L. set_solver. }
  rewrite Hd, size_storage_keys. repeat split. discriminate.
Qed.

(** C7, amended.  The application stores under three keys: the last
    active tab, the last analysis as JSON text and the preferred currency.
    Whatever happens, every other key of the storage keeps its value.  The
    entries carry no version; a change of tab or of currency replaces the
    stored value by the new one, and an analysis that arrives replaces the
    stored blob by its full serialisation, while resetting the analysis to
    null leaves the stored blob untouched. *)
Theorem C7_storage_keys :
  size App.storage_keys = 3%nat /\
  (forall B s es k,
     k ∉ App.storage_keys ->
     App.localStorage (App.run B s es) !! k = App.localStorage s !! k) /\
  (forall B s t,
     App.Tab_name t <> App.activeTab s ->
     App.localStorage (App.step B s (App.ClickTab t)) =
       <["activeTab" := App.Tab_name t]> (App.localStorage s)) /\
  (forall B s c,
     CurrencyContext.code c <> CurrencyContext.currency (App.provider s) ->
     App.localStorage (App.step B s (App.ClickCurrency c)) =
       <["preferred_currency" := CurrencyContext.code c]> (App.localStorage s)) /\
  (forall B s n t resp data,
     App.pending s !! n = Some t ->
     ok resp = true -> JSON_parse B (body resp) = Some data ->
     json_truthy data = true ->
     App.localStorage (App.step B s (App.AnalyzeSettled n (Http resp))) =
       <["lastAnalysis" := JSON_stringify B data]> (App.localStorage s)) /\
  (forall B s,
     App.localStorage (App.setAnalysis B JNull s) = App.localStorage s).
Proof.
  split; [|split; [|split; [|split; [|split]]]].
  - apply size_storage_keys.
  - intros B s es k Hk. now apply frames_run.
  - apply ClickTab_overwrites.
  - apply ClickCurrency_overwrites.
  - apply AnalyzeSettled_overwrites.
  - apply setAnalysis_null_keeps.
Qed.

Lemma C7_storage_keys_witness :
  App.localStorage
    (App.run test_browser
       {| App.activeTab := "analyze"; App.analysis := JNull;
          App.loading := false; App.error := None; App.isChatOpen := false;
          App.provider := CurrencyContext.initial ∅;
          App.localStorage := {[ "theme" := "dark" ]};
          App.pending := []; App.out := [] |}
       [App.Mount; App.ClickTab App.portfolio]) !! "theme" = Some "dark" /\
  App.localStorage (App.step test_browser fresh_app (App.ClickTab App.discovery)) =
    <["activeTab" := "discovery"]> ∅ /\
  App.localStorage
    (App.step test_browser fresh_app (App.ClickCurrency CurrencyContext.EUR)) =
    <["preferred_currency" := "EUR"]> ∅ /\
  App.localStorage
    (App.step test_browser (App.step test_browser fresh_app (App.Search "AAPL"))
       (App.AnalyzeSettled 0 (Http ok_empty_object))) =
    <["lastAnalysis" := "{}"]> ∅.
Proof.
  destruct C7_storage_keys as (_ & H2 & H3 & H4 & H5 & _).
  split; [|split; [|split]].
  - rewrite (H2 test_browser _ [App.Mount; App.ClickTab App.portfolio] "theme").
    + reflexivity.
    + unfold App.storage_keys.
      rewrite !not_elem_of_union, !not_elem_of_singleton.
      repeat split; discriminate.
  - apply (H3 test_browser fresh_app App.discovery). discriminate.
  - apply (H4 test_browser fresh_app CurrencyContext.EUR). discriminate.
  - apply (H5 test_browser
             (App.step test_browser fresh_app (App.Search "AAPL")) 0%nat "AAPL"
             ok_empty_object (JObj []));
      reflexivity.
Defined.

(** ** Error message of a failed analysis request *)

(** The body of a response that was read once cannot be read again. *)
Lemma Response_text_after_json B r :
  bodyUsed r = false ->
  snd (Response_text B (fst (Response_json B r))) = Throw (body_used_message B).
Proof. intros H. unfold Response_json. rewrite H. reflexivity. Qed.

(** A JSON object with a truthy [detail] is shown through that field. *)
Lemma error_of_response_detail B resp fields d :
  JSON_parse B (body resp) = Some (JObj fields) ->
  List.find (fun kv => bool_decide (fst kv = "detail")) fields = Some ("detail", d) ->
  json_truthy d = true ->
  App.error_of_response B (received resp) = ToString B d.
Proof.
  intros Hparse Hfind Ht. unfold App.error_of_response, Response_json, received.
  simpl. rewrite Hparse. simpl. rewrite Hfind. simpl. now rewrite Ht.
Qed.

(** A JSON body without a truthy [detail] gives the default message. *)
Lemma error_of_response_no_detail B resp fields :
  JSON_parse B (body resp) = Some (JObj fields) ->
  List.find (fun kv => bool_decide (fst kv = "detail")) fields = None ->
  App.error_of_response B (received resp) = "Failed to fetch analysis".
Proof.
  intros Hparse Hfind. unfold App.error_of_response, Response_json, received.
  simpl. rewrite Hparse. simpl. now rewrite Hfind.
Qed.

(** A body that is not JSON: [response.json()] has used the body up when
    it throws, so [response.text()] in the handler throws in turn and its
    message is what the user sees. *)
Lemma error_of_response_not_json B resp :
  JSON_parse B (body resp) = None ->
  App.error_of_response B (received resp) = body_used_message B.
Proof.
  intros Hparse. unfold App.error_of_response, Response_json, received.
  simpl. rewrite Hparse. reflexivity.
Qed.

(** Whatever the response, the status line is shown only if the browser's
    own message happens to read the same. *)
Lemma error_of_response_never_generic B resp :
  App.error_of_response B (received resp) =
    ("Server Error: " ++ pretty (status resp) ++ " " ++ statusText resp)%string ->
  (exists v, JSON_parse B (body resp) = Some v) \/
  body_used_message B =
    ("Server Error: " ++ pretty (status resp) ++ " " ++ statusText resp)%string.
Proof.
  destruct (JSON_parse B (body resp)) as [v|] eqn:Hparse; [eauto|].
  rewrite (error_of_response_not_json B resp Hparse). now right.
Qed.

(** C8, as the code behaves.  For a non-ok response the handler tries
    once to parse the body as JSON and shows its [detail].  When the body
    is not JSON the handler means to show "Server Error: <status>
    <statusText>", but it reads the body a second time first: that read
    throws, and the message shown is the one of that exception. *)
Theorem C8_error_message :
  (forall B s n t resp fields d,
     App.pending s !! n = Some t ->
     ok resp = false ->
     JSON_parse B (body resp) = Some (JObj fields) ->
     List.find (fun kv => bool_decide (fst kv = "detail")) fields = Some ("detail", d) ->
     json_truthy d = true ->
     App.error (App.step B s (App.AnalyzeSettled n (Http resp))) =
       Some (ToString B d)) /\
  (forall B s n t resp,
     App.pending s !! n = Some t ->
     ok resp = false ->
     JSON_parse B (body resp) = None ->
     App.error (App.step B s (App.AnalyzeSettled n (Http resp))) =
       Some (body_used_message B)).
Proof.
  split.
  - intros B s n t resp fields d Hp Hok Hparse Hfind Ht.
    simpl. rewrite Hp. unfold App.handleSearch_resume. rewrite Hok. simpl.
    now rewrite (error_of_response_detail B resp fields d).
  - intros B s n t resp Hp Hok Hparse.
    simpl. rewrite Hp. unfold App.handleSearch_resume. rewrite Hok. simpl.
    now rewrite (error_of_response_not_json B resp).
Qed.

Lemma C8_error_message_witness :
  (let s := App.step test_browser fresh_app (App.Search "XXXX") in
   App.error (App.step test_browser s (App.AnalyzeSettled 0 (Http error_404_json))) =
     Some "Ticker not found") /\
  (let s := App.step test_browser fresh_app (App.Search "AAPL") in
   App.error (App.step test_browser s (App.AnalyzeSettled 0 (Http error_500_html))) =
     Some "Failed to execute 'text' on 'Response': body stream already read").
Proof.
  destruct C8_error_message as (H1 & H2). split.
  - apply (H1 test_browser (App.step test_browser fresh_app (App.Search "XXXX"))
             0%nat "XXXX" error_404_json
             [("detail", JStr "Ticker not found")] (JStr "Ticker not found"));
      reflexivity.
  - apply (H2 test_browser (App.step test_browser fresh_app (App.Search "AAPL"))
             0%nat "AAPL" error_500_html); reflexivity.
Defined.

(** An HTML error page with status 500: the user is not shown
    "Server Error: 500 Internal Server Error". *)
Example C8_html_error_page :
  let s := App.run test_browser fresh_app
             [App.Search "AAPL"; App.AnalyzeSettled 0 (Http error_500_html)] in
  App.error s =
    Some "Failed to execute 'text' on 'Response': body stream already read" /\
  App.error s <> Some "Server Error: 500 Internal Server Error" /\
  App.loading s = false.
Proof. repeat split. discriminate. Qed.

(** ** Portfolio mutations *)

Lemma lookup_snoc_last {A} (l : list A) (x : A) : (l ++ [x]) !! length l = Some x.
Proof. now rewrite lookup_app_r, Nat.sub_diag by lia. Qed.

Lemma delete_snoc_last {A} (l : list A) (x : A) : delete (length l) (l ++ [x]) = l.
Proof. rewrite delete_middle. apply app_nil_r. Qed.

(** Settling the request that was sent last. *)
Lemma usePortfolios_settle_sent r k s reply :
  usePortfolios.step (usePortfolios.send r k s)
    (usePortfolios.Settle (length (usePortfolios.pending s)) reply) =
  usePortfolios.resume k reply
    {| usePortfolios.portfolios := usePortfolios.portfolios s;
       usePortfolios.loading := usePortfolios.loading s;
       usePortfolios.pending := usePortfolios.pending s;
       usePortfolios.out := usePortfolios.out s ++ [r] |}.
Proof.
  unfold usePortfolios.step, usePortfolios.send. cbn [usePortfolios.pending].
  rewrite lookup_snoc_last. cbn. now rewrite delete_snoc_last.
Qed.

Lemma step_AddHolding s pid h :
  usePortfolios.step s (usePortfolios.AddHolding pid h) =
  usePortfolios.send
    {| usePortfolios.method := usePortfolios.POST;
       usePortfolios.url := ("/api/portfolios/" ++ pid ++ "/holdings")%string;
       usePortfolios.payload :=
         Some (usePortfolios.NewHolding (usePortfolios.ticker h)
                 (usePortfolios.shares h) (usePortfolios.buyPrice h)) |}
    usePortfolios.InHoldingChange s.
Proof. reflexivity. Qed.

Lemma step_RemoveHolding s pid t :
  usePortfolios.step s (usePortfolios.RemoveHolding pid t) =
  usePortfolios.send
    {| usePortfolios.method := usePortfolios.DELETE;
       usePortfolios.url := ("/api/portfolios/" ++ pid ++ "/holdings/" ++ t)%string;
       usePortfolios.payload := None |}
    usePortfolios.InHoldingChange s.
Proof. reflexivity. Qed.

Lemma step_CreatePortfolio s name :
  usePortfolios.step s (usePortfolios.CreatePortfolio name) =
  usePortfolios.send
    {| usePortfolios.method := usePortfolios.POST;
       usePortfolios.url := "/api/portfolios";
       usePortfolios.payload := Some (usePortfolios.NewPortfolio name) |}
    usePortfolios.InCreatePortfolio s.
Proof. reflexivity. Qed.

Lemma step_DeletePortfolio s id :
  usePortfolios.step s (usePortfolios.DeletePortfolio id) =
  usePortfolios.send
    {| usePortfolios.method := usePortfolios.DELETE;
       usePortfolios.url := ("/api/portfolios/" ++ id)%string;
       usePortfolios.payload := None |}
    (usePortfolios.InDeletePortfolio id) s.
Proof. reflexivity. Qed.

(** After a holding change has been answered the hook is in the middle
    of [fetchPortfolios]. *)
Lemma resume_InHoldingChange reply s :
  usePortfolios.resume usePortfolios.InHoldingChange (usePortfolios.Answer reply) s =
  usePortfolios.send usePortfolios.list_request usePortfolios.InFetchPortfolios s.
Proof. reflexivity. Qed.

(** Creating a portfolio and then deleting another one, with every
    response received: two requests were sent after the initial load,
    neither of them a fetch of the list. *)
Lemma C5_create_and_delete_do_not_refetch :
  let s := usePortfolios.run one_portfolio_loaded
             [usePortfolios.CreatePortfolio "Income";
              usePortfolios.Settle 0 (usePortfolios.Answer (Some income_portfolio));
              usePortfolios.DeletePortfolio "p1";
              usePortfolios.Settle 0 (usePortfolios.Answer None)] in
  usePortfolios.pending s = [] /\
  usePortfolios.portfolios s = [income_portfolio] /\
  usePortfolios.out s =
    usePortfolios.out one_portfolio_loaded ++
    [ {| usePortfolios.method := usePortfolios.POST;
         usePortfolios.url := "/api/portfolios";
         usePortfolios.payload := Some (usePortfolios.NewPortfolio "Income") |};
      {| usePortfolios.method := usePortfolios.DELETE;
         usePortfolios.url := "/api/portfolios/p1";
         usePortfolios.payload := None |} ] /\
  usePortfolios.list_request ∉
    drop (length (usePortfolios.out one_portfolio_loaded)) (usePortfolios.out s).
Proof.
  repeat split. cbn.
  rewrite !not_elem_of_cons. repeat split; try discriminate. apply not_elem_of_nil.
Qed.

(** C5, amended.  After adding or removing a holding the hook sends one
    GET of the full portfolio list, leaves its local list alone until the
    answer arrives and then replaces the list by the array received.
    After creating a portfolio it appends the object returned by the
    backend to the local list, and after deleting one it removes the
    entries with that id from the local list; neither sends a request for
    the list. *)
Theorem C5_refetch_after_holding_change :
  (forall s pid h reply,
     let n := length (usePortfolios.pending s) in
     let s1 := usePortfolios.step s (usePortfolios.AddHolding pid h) in
     let s2 := usePortfolios.step s1 (usePortfolios.Settle n (usePortfolios.Answer reply)) in
     usePortfolios.out s2 =
       usePortfolios.out s ++
       [ {| usePortfolios.method := usePortfolios.POST;
            usePortfolios.url := ("/api/portfolios/" ++ pid ++ "/holdings")%string;
            usePortfolios.payload :=
              Some (usePortfolios.NewHolding (usePortfolios.ticker h)
                      (usePortfolios.shares h) (usePortfolios.buyPrice h)) |};
         usePortfolios.list_request ] /\
     usePortfolios.portfolios s2 = usePortfolios.portfolios s /\
     usePortfolios.pending s2 =
       usePortfolios.pending s ++ [usePortfolios.InFetchPortfolios] /\
     forall data,
       usePortfolios.portfolios
         (usePortfolios.step s2
            (usePortfolios.Settle n (usePortfolios.Answer (Some (JArr data))))) = data) /\
  (forall s pid t reply,
     let n := length (usePortfolios.pending s) in
     let s1 := usePortfolios.step s (usePortfolios.RemoveHolding pid t) in
     let s2 := usePortfolios.step s1 (usePortfolios.Settle n (usePortfolios.Answer reply)) in
     usePortfolios.out s2 =
       usePortfolios.out s ++
       [ {| usePortfolios.method := usePortfolios.DELETE;
            usePortfolios.url := ("/api/portfolios/" ++ pid ++ "/holdings/" ++ t)%string;
            usePortfolios.payload := None |};
         usePortfolios.list_request ] /\
     usePortfolios.portfolios s2 = usePortfolios.portfolios s /\
     usePortfolios.pending s2 =
       usePortfolios.pending s ++ [usePortfolios.InFetchPortfolios] /\
     forall data,
       usePortfolios.portfolios
         (usePortfolios.step s2
            (usePortfolios.Settle n (usePortfolios.Answer (Some (JArr data))))) = data) /\
  (forall s name newPortfolio,
     let n := length (usePortfolios.pending s) in
     let s1 := usePortfolios.step s (usePortfolios.CreatePortfolio name) in
     let s2 := usePortfolios.step s1
                 (usePortfolios.Settle n (usePortfolios.Answer (Some newPortfolio))) in
     usePortfolios.out s2 =
       usePortfolios.out s ++
       [ {| usePortfolios.method := usePortfolios.POST;
            usePortfolios.url := "/api/portfolios";
            usePortfolios.payload := Some (usePortfolios.NewPortfolio name) |} ] /\
     usePortfolios.portfolios s2 = usePortfolios.portfolios s ++ [newPortfolio] /\
     usePortfolios.pending s2 = usePortfolios.pending s) /\
  (forall s id reply,
     let n := length (usePortfolios.pending s) in
     let s1 := usePortfolios.step s (usePortfolios.DeletePortfolio id) in
     let s2 := usePortfolios.step s1 (usePortfolios.Settle n (usePortfolios.Answer reply)) in
     usePortfolios.out s2 =
       usePortfolios.out s ++
       [ {| usePortfolios.method := usePortfolios.DELETE;
            usePortfolios.url := ("/api/portfolios/" ++ id)%string;
            usePortfolios.payload := None |} ] /\
     usePortfolios.portfolios s2 =
       filter (fun p => usePortfolios.id_differs id p) (usePortfolios.portfolios s) /\
     usePortfolios.pending s2 = usePortfolios.pending s).
Proof.
  split; [|split; [|split]].
  - intros s pid h reply n s1 s2. subst s2 s1 n.
    rewrite step_AddHolding, usePortfolios_settle_sent, resume_InHoldingChange.
    repeat split.
    + cbn. now rewrite <- app_assoc.
    + intros data.
      change (length (usePortfolios.pending s)) with
        (length (usePortfolios.pending
           {| usePortfolios.portfolios := usePortfolios.portfolios s;
              usePortfolios.loading := usePortfolios.loading s;
              usePortfolios.pending := usePortfolios.pending s;
              usePortfolios.out := usePortfolios.out s ++
                [ {| usePortfolios.method := usePortfolios.POST;
                     usePortfolios.url := ("/api/portfolios/" ++ pid ++ "/holdings")%string;
                     usePortfolios.payload :=
                       Some (usePortfolios.NewHolding (usePortfolios.ticker h)
                               (usePortfolios.shares h) (usePortfolios.buyPrice h)) |} ] |})).
      rewrite usePortfolios_settle_sent. reflexivity.
  - intros s pid t reply n s1 s2. subst s2 s1 n.
    rewrite step_RemoveHolding, usePortfolios_settle_sent, resume_InHoldingChange.
    repeat split.
    + cbn. now rewrite <- app_assoc.
    + intros data.
      change (length (usePortfolios.pending s)) with
        (length (usePortfolios.pending
           {| usePortfolios.portfolios := usePortfolios.portfolios s;
              usePortfolios.loading := usePortfolios.loading s;
              usePortfolios.pending := usePortfolios.pending s;
              usePortfolios.out := usePortfolios.out s ++
                [ {| usePortfolios.method := usePortfolios.DELETE;
                     usePortfolios.url :=
                       ("/api/portfolios/" ++ pid ++ "/holdings/" ++ t)%string;
                     usePortfolios.payload := None |} ] |})).
      rewrite usePortfolios_settle_sent. reflexivity.
  - intros s name newPortfolio n s1 s2. subst s2 s1 n.
    rewrite step_CreatePortfolio, usePortfolios_settle_sent. repeat split.
  - intros s id reply n s1 s2. subst s2 s1 n.
    rewrite step_DeletePortfolio, usePortfolios_settle_sent. repeat split.
Qed.

(** ** Search inputs and suggestion requests *)

Lemma SearchBar_query_effect_one s :
  String.length (trim (SearchBar.query s)) = 1%nat ->
  SearchBar.query_effect s = s.
Proof.
  intros H. unfold SearchBar.query_effect. rewrite H.
  rewrite bool_decide_eq_false_2 by lia.
  now rewrite bool_decide_eq_false_2 by lia.
Qed.

Lemma SearchBar_query_effect_empty s :
  String.length (trim (SearchBar.query s)) = 0%nat ->
  SearchBar.query_effect s = SearchBar.fetch SearchBar.Defaults s.
Proof.
  intros H. unfold SearchBar.query_effect. rewrite H.
  rewrite bool_decide_eq_false_2 by lia.
  now rewrite bool_decide_eq_true_2 by lia.
Qed.

Lemma SearchBar_query_effect_long s :
  (2 <= String.length (trim (SearchBar.query s)))%nat ->
  SearchBar.query_effect s =
  SearchBar.setTimer (Some (trim (SearchBar.query s))) s.
Proof.
  intros H. unfold SearchBar.query_effect.
  now rewrite bool_decide_eq_true_2 by lia.
Qed.

Lemma well_formed_fetch r s :
  SearchBar.long_query r ->
  SearchBar.well_formed s -> SearchBar.well_formed (SearchBar.fetch r s).
Proof.
  intros Hr [Ho Ht]. split; [|exact Ht].
  simpl. apply Forall_app. split; [exact Ho|]. now constructor.
Qed.

Lemma well_formed_query_effect s :
  SearchBar.well_formed s -> SearchBar.well_formed (SearchBar.query_effect s).
Proof.
  intros Hs. unfold SearchBar.query_effect.
  case_bool_decide as Hlong.
  - destruct Hs as [Ho _]. split; [exact Ho|]. simpl. lia.
  - case_bool_decide.
    + now apply well_formed_fetch.
    + exact Hs.
Qed.

Lemma well_formed_resume r reply s :
  SearchBar.well_formed s -> SearchBar.well_formed (SearchBar.resume r reply s).
Proof.
  intros Hs. destruct r, reply as [data|[[|m ms]|]| ]; simpl; try exact Hs.
  all: try (case_bool_decide; exact Hs).
Qed.

Lemma well_formed_step s e :
  SearchBar.well_formed s -> SearchBar.well_formed (SearchBar.step s e).
Proof.
  intros Hs. destruct e as [ |text| |n reply]; simpl.
  - apply well_formed_query_effect. now apply well_formed_fetch.
  - destruct (deps_changed _ _); [|exact Hs].
    apply well_formed_query_effect. exact Hs.
  - unfold SearchBar.timer_fires. destruct Hs as [Ho Ht].
    destruct (SearchBar.debounceTimer s) as [q|] eqn:E; [|split; [exact Ho|now rewrite E]].
    apply well_formed_fetch; [exact Ht|]. split; [exact Ho|exact I].
  - destruct (SearchBar.pending s !! n); [|exact Hs].
    apply well_formed_resume. exact Hs.
Qed.

Lemma well_formed_run es : forall s,
  SearchBar.well_formed s -> SearchBar.well_formed (SearchBar.run s es).
Proof.
  unfold SearchBar.run. induction es as [|e es IH]; intros s Hs; [exact Hs|].
  simpl. apply IH. now apply well_formed_step.
Qed.

Lemma well_formed_initial : SearchBar.well_formed SearchBar.initial.
Proof. split; [constructor | exact I]. Qed.

(** Two inputs whose trimmed length is below 2 and that send a request
    all the same: blanks in the search bar fetch the default suggestions,
    and a letter followed by a blank is searched by the ETF panel. *)
Lemma C4_requests_for_short_inputs :
  (String.length (trim "  ") < 2)%nat /\
  SearchBar.out (SearchBar.step search_bar_typed_ab (SearchBar.Type_ "  ")) =
    SearchBar.out search_bar_typed_ab ++ [SearchBar.Defaults] /\
  (String.length (trim "a ") < 2)%nat /\
  DiscoveryPanel.out
    (DiscoveryPanel.step (DiscoveryPanel.initial []) (DiscoveryPanel.Type_ "a ")) =
    [DiscoveryPanel.SearchRequest "a "].
Proof. repeat split; try reflexivity; vm_compute; lia. Qed.

(** C4, amended.  In the search bar an input whose trimmed length is 1
    sends nothing and arms no timer; an input whose trimmed length is 0
    fetches the default suggestions again; an input of trimmed length 2
    or more arms the debounce timer, and every request that carries a
    query carries a trimmed one of at least 2 characters.  In the ETF
    panel an input of fewer than 2 characters, blanks included, sends
    nothing, and any longer input is searched as typed. *)
Theorem C4_short_inputs :
  (forall s text,
     text <> SearchBar.query s ->
     String.length (trim text) = 1%nat ->
     let s' := SearchBar.step s (SearchBar.Type_ text) in
     SearchBar.out s' = SearchBar.out s /\
     SearchBar.debounceTimer s' = SearchBar.debounceTimer s) /\
  (forall s text,
     text <> SearchBar.query s ->
     String.length (trim text) = 0%nat ->
     SearchBar.out (SearchBar.step s (SearchBar.Type_ text)) =
       SearchBar.out s ++ [SearchBar.Defaults]) /\
  (forall s text,
     text <> SearchBar.query s ->
     (2 <= String.length (trim text))%nat ->
     let s' := SearchBar.step s (SearchBar.Type_ text) in
     SearchBar.out s' = SearchBar.out s /\
     SearchBar.debounceTimer s' = Some (trim text) /\
     SearchBar.out (SearchBar.step s' SearchBar.TimerFires) =
       SearchBar.out s ++ [SearchBar.Query (trim text)]) /\
  (forall es q,
     SearchBar.Query q ∈ SearchBar.out (SearchBar.run SearchBar.initial es) ->
     (2 <= String.length q)%nat) /\
  (forall s text,
     (String.length text < 2)%nat ->
     let s' := DiscoveryPanel.step s (DiscoveryPanel.Type_ text) in
     DiscoveryPanel.out s' = DiscoveryPanel.out s /\
     DiscoveryPanel.pending s' = DiscoveryPanel.pending s /\
     DiscoveryPanel.searchResults s' = []) /\
  (forall s text,
     (2 <= String.length text)%nat ->
     DiscoveryPanel.out (DiscoveryPanel.step s (DiscoveryPanel.Type_ text)) =
       DiscoveryPanel.out s ++ [DiscoveryPanel.SearchRequest text]).
Proof.
  split; [|split; [|split; [|split; [|split]]]].
  - intros s text Hne Hlen. simpl. unfold deps_changed.
    rewrite bool_decide_eq_true_2 by congruence.
    now rewrite SearchBar_query_effect_one.
  - intros s text Hne Hlen. simpl. unfold deps_changed.
    rewrite bool_decide_eq_true_2 by congruence.
    now rewrite SearchBar_query_effect_empty.
  - intros s text Hne Hlen. simpl. unfold deps_changed.
    rewrite bool_decide_eq_true_2 by congruence.
    now rewrite SearchBar_query_effect_long.
  - intros es q Hin.
    destruct (well_formed_run es SearchBar.initial well_formed_initial) as [Ho _].
    rewrite Forall_forall in Ho. exact (Ho _ Hin).
  - intros s text Hlen. simpl. unfold DiscoveryPanel.handleSearch.
    now rewrite bool_decide_eq_true_2 by exact Hlen.
  - intros s text Hlen. simpl. unfold DiscoveryPanel.handleSearch.
    now rewrite bool_decide_eq_false_2 by lia.
Qed.

Lemma C4_short_inputs_witness :
  (let s' := SearchBar.step search_bar_typed_ab (SearchBar.Type_ " a ") in
   SearchBar.out s' = SearchBar.out search_bar_typed_ab /\
   SearchBar.debounceTimer s' = SearchBar.debounceTimer search_bar_typed_ab) /\
  SearchBar.out (SearchBar.step search_bar_typed_ab (SearchBar.Type_ "  ")) =
    SearchBar.out search_bar_typed_ab ++ [SearchBar.Defaults] /\
  (let s' := SearchBar.step SearchBar.initial (SearchBar.Type_ " nvda ") in
   SearchBar.out s' = [] /\
   SearchBar.debounceTimer s' = Some "nvda" /\
   SearchBar.out (SearchBar.step s' SearchBar.TimerFires) = [SearchBar.Query "nvda"]) /\
  (2 <= String.length "ab")%nat /\
  (let s' := DiscoveryPanel.step (DiscoveryPanel.initial []) (DiscoveryPanel.Type_ "a") in
   DiscoveryPanel.out s' = [] /\ DiscoveryPanel.pending s' = [] /\
   DiscoveryPanel.searchResults s' = []) /\
  DiscoveryPanel.out
    (DiscoveryPanel.step (DiscoveryPanel.initial []) (DiscoveryPanel.Type_ "msci")) =
    [DiscoveryPanel.SearchRequest "msci"].
Proof.
  destruct C4_short_inputs as (H1 & H2 & H3 & H4 & H5 & H6).
  split; [|split; [|split; [|split; [|split]]]].
  - apply (H1 search_bar_typed_ab " a "); [discriminate | reflexivity].
  - apply (H2 search_bar_typed_ab "  "); [discriminate | reflexivity].
  - apply (H3 SearchBar.initial " nvda "); [discriminate | vm_compute; lia].
  - apply (H4 [SearchBar.Mount; SearchBar.Type_ "ab"; SearchBar.TimerFires] "ab").
    replace (SearchBar.out _) with
      [SearchBar.Defaults; SearchBar.Defaults; SearchBar.Query "ab"]
      by (vm_compute; reflexivity).
    rewrite !elem_of_cons. auto.
  - apply (H5 (DiscoveryPanel.initial []) "a"). vm_compute; lia.
  - apply (H6 (DiscoveryPanel.initial []) "msci"). vm_compute; lia.
Defined.

(** ** The ETF selection *)

Lemma click_card_cap etf s :
  (length (DiscoveryPanel.selectedEtfs s) <= 3)%nat ->
  (length (DiscoveryPanel.selectedEtfs (DiscoveryPanel.click_card etf s)) <= 3)%nat.
Proof.
  intros H. unfold DiscoveryPanel.click_card.
  destruct (DiscoveryPanel.isSelected _ s); simpl.
  - etransitivity; [apply length_filter | exact H].
  - case_bool_decide; simpl; [|exact H]. rewrite length_app. simpl. lia.
Qed.

Lemma addSearchedEtf_resume_cap res captured r s :
  (length (DiscoveryPanel.selectedEtfs s) <= 3)%nat ->
  (length (DiscoveryPanel.selectedEtfs
             (DiscoveryPanel.addSearchedEtf_resume res captured r s)) <= 3)%nat.
Proof.
  intros H. unfold DiscoveryPanel.addSearchedEtf_resume.
  destruct r; case_bool_decide; simpl; try exact H.
  all: rewrite length_app; simpl; lia.
Qed.

Lemma step_cap s e :
  (length (DiscoveryPanel.selectedEtfs s) <= 3)%nat ->
  (length (DiscoveryPanel.selectedEtfs (DiscoveryPanel.step s e)) <= 3)%nat.
Proof.
  intros H. destruct e as [etf|res| | |text|n r|n r]; simpl.
  - now apply click_card_cap.
  - unfold DiscoveryPanel.click_result.
    destruct (negb _); simpl; exact H.
  - lia.
  - unfold DiscoveryPanel.click_compare.
    destruct (DiscoveryPanel.compare_disabled s); simpl; exact H.
  - unfold DiscoveryPanel.handleSearch. case_bool_decide; simpl; exact H.
  - destruct (DiscoveryPanel.pending s !! n) as [[|res captured]|]; try exact H.
    unfold DiscoveryPanel.handleSearch_resume. destruct r; simpl; exact H.
  - destruct (DiscoveryPanel.pending s !! n) as [[|res captured]|]; try exact H.
    now apply addSearchedEtf_resume_cap.
Qed.

Lemma run_cap es : forall s,
  (length (DiscoveryPanel.selectedEtfs s) <= 3)%nat ->
  (length (DiscoveryPanel.selectedEtfs (DiscoveryPanel.run s es)) <= 3)%nat.
Proof.
  unfold DiscoveryPanel.run. induction es as [|e es IH]; intros s H; [exact H|].
  simpl. apply IH. now apply step_cap.
Qed.

(** A card of a fund that is not selected, clicked while three are. *)
Lemma click_card_full etf s :
  length (DiscoveryPanel.selectedEtfs s) = 3%nat ->
  DiscoveryPanel.isSelected (DiscoveryPanel.ticker etf) s = false ->
  DiscoveryPanel.step s (DiscoveryPanel.ClickCard etf) = s.
Proof.
  intros Hlen Hsel. simpl. unfold DiscoveryPanel.click_card.
  rewrite Hsel. now rewrite bool_decide_eq_false_2 by lia.
Qed.

(** A card of a fund that is not selected, clicked while fewer are. *)
Lemma click_card_room etf s :
  (length (DiscoveryPanel.selectedEtfs s) < 3)%nat ->
  DiscoveryPanel.isSelected (DiscoveryPanel.ticker etf) s = false ->
  DiscoveryPanel.selectedEtfs (DiscoveryPanel.step s (DiscoveryPanel.ClickCard etf)) =
  DiscoveryPanel.selectedEtfs s ++ [etf].
Proof.
  intros Hlen Hsel. simpl. unfold DiscoveryPanel.click_card.
  rewrite Hsel. now rewrite bool_decide_eq_true_2 by lia.
Qed.

(** What [addSearchedEtf] does when its request ends.  It tests the
    selection of the render in which the result was clicked, not the
    selection of the moment: with fewer than 3 funds there, the selection
    becomes those funds followed by the found one, whatever it held; with
    3 there, it is left as it is. *)
Lemma addSearchedEtf_settles s n res captured r :
  DiscoveryPanel.pending s !! n = Some (DiscoveryPanel.InAddSearchedEtf res captured) ->
  let s' := DiscoveryPanel.step s (DiscoveryPanel.BasicSettled n r) in
  DiscoveryPanel.pending s' = delete n (DiscoveryPanel.pending s) /\
  ((length captured < 3)%nat ->
   exists e, DiscoveryPanel.ticker e = DiscoveryPanel.res_ticker res /\
             DiscoveryPanel.name e = DiscoveryPanel.res_name res /\
             DiscoveryPanel.selectedEtfs s' = captured ++ [e]) /\
  ((3 <= length captured)%nat ->
   DiscoveryPanel.selectedEtfs s' = DiscoveryPanel.selectedEtfs s).
Proof.
  intros Hp s'. subst s'. simpl. rewrite Hp.
  unfold DiscoveryPanel.addSearchedEtf_resume.
  split; [|split].
  - destruct r; case_bool_decide; reflexivity.
  - intros Hlen. destruct r; rewrite bool_decide_eq_true_2 by exact Hlen;
      eexists; (split; [|split; [|reflexivity]]); reflexivity.
  - intros Hlen. destruct r; rewrite bool_decide_eq_false_2 by lia; reflexivity.
Qed.

Lemma click_result_starts s res :
  DiscoveryPanel.isSelected (DiscoveryPanel.res_ticker res) s = false ->
  let s' := DiscoveryPanel.step s (DiscoveryPanel.ClickResult res) in
  DiscoveryPanel.selectedEtfs s' = DiscoveryPanel.selectedEtfs s /\
  DiscoveryPanel.pending s' =
    DiscoveryPanel.pending s ++
    [DiscoveryPanel.InAddSearchedEtf res (DiscoveryPanel.selectedEtfs s)].
Proof.
  intros Hsel. simpl. unfold DiscoveryPanel.click_result. now rewrite Hsel.
Qed.

Lemma click_compare_opens s :
  (2 <= length (DiscoveryPanel.selectedEtfs s))%nat ->
  DiscoveryPanel.isComparing s = false ->
  DiscoveryPanel.isComparing (DiscoveryPanel.step s DiscoveryPanel.ClickCompare) = true.
Proof.
  intros Hlen Hc. simpl. unfold DiscoveryPanel.click_compare, DiscoveryPanel.compare_disabled.
  rewrite bool_decide_eq_false_2 by lia. simpl. now rewrite Hc.
Qed.

(** C3.  The selection never holds more than 3 funds.  While fewer
    than 3 are selected a click on the card of an unselected fund appends
    it, and from 2 selected funds on the compare button opens the
    comparison.  With 3 funds selected a click on the card of a fourth
    changes nothing.  A click on a search result of an unselected fund
    sends the request for its details and keeps the selection of that
    moment; when the request ends, in success or in failure,
    [addSearchedEtf] tests that kept selection: with fewer than 3 funds
    in it the selection is overwritten with the kept funds followed by
    the found one, with 3 in it nothing is written.  So a fourth fund is
    turned away only if three were selected when it was clicked.  In the
    run at the end two funds are selected, a search finds two more, both
    results are clicked before either request ends, and both requests
    succeed: the first answer makes the selection IWDA, VWCE, SXR8, and
    the second, the fourth pick, makes it IWDA, VWCE, EUNL. *)
Theorem C3_selection_cap_and_late_addition :
  (forall explorer es,
     (length (DiscoveryPanel.selectedEtfs
                (DiscoveryPanel.run (DiscoveryPanel.initial explorer) es)) <= 3)%nat) /\
  (forall s etf,
     (length (DiscoveryPanel.selectedEtfs s) < 3)%nat ->
     DiscoveryPanel.isSelected (DiscoveryPanel.ticker etf) s = false ->
     DiscoveryPanel.selectedEtfs (DiscoveryPanel.step s (DiscoveryPanel.ClickCard etf)) =
       DiscoveryPanel.selectedEtfs s ++ [etf]) /\
  (forall s,
     (2 <= length (DiscoveryPanel.selectedEtfs s))%nat ->
     DiscoveryPanel.isComparing s = false ->
     DiscoveryPanel.isComparing (DiscoveryPanel.step s DiscoveryPanel.ClickCompare) = true) /\
  (forall s etf,
     length (DiscoveryPanel.selectedEtfs s) = 3%nat ->
     DiscoveryPanel.isSelected (DiscoveryPanel.ticker etf) s = false ->
     DiscoveryPanel.step s (DiscoveryPanel.ClickCard etf) = s) /\
  (forall s res,
     DiscoveryPanel.isSelected (DiscoveryPanel.res_ticker res) s = false ->
     let s' := DiscoveryPanel.step s (DiscoveryPanel.ClickResult res) in
     DiscoveryPanel.selectedEtfs s' = DiscoveryPanel.selectedEtfs s /\
     DiscoveryPanel.pending s' =
       DiscoveryPanel.pending s ++
       [DiscoveryPanel.InAddSearchedEtf res (DiscoveryPanel.selectedEtfs s)]) /\
  (forall s n res captured r,
     DiscoveryPanel.pending s !! n = Some (DiscoveryPanel.InAddSearchedEtf res captured) ->
     let s' := DiscoveryPanel.step s (DiscoveryPanel.BasicSettled n r) in
     DiscoveryPanel.pending s' = delete n (DiscoveryPanel.pending s) /\
     ((length captured < 3)%nat ->
      exists e, DiscoveryPanel.ticker e = DiscoveryPanel.res_ticker res /\
                DiscoveryPanel.name e = DiscoveryPanel.res_name res /\
                DiscoveryPanel.selectedEtfs s' = captured ++ [e]) /\
     ((3 <= length captured)%nat ->
      DiscoveryPanel.selectedEtfs s' = DiscoveryPanel.selectedEtfs s)) /\
  (let s0 := DiscoveryPanel.run (DiscoveryPanel.initial [])
               [DiscoveryPanel.ClickCard (fund "IWDA");
                DiscoveryPanel.ClickCard (fund "VWCE");
                DiscoveryPanel.Type_ "core";
                DiscoveryPanel.SearchSettled 0
                  (Fulfilled [found "SXR8"; found "EUNL"])] in
   let s1 := DiscoveryPanel.run s0
               [DiscoveryPanel.ClickResult (found "SXR8");
                DiscoveryPanel.ClickResult (found "EUNL")] in
   let s2 := DiscoveryPanel.step s1
               (DiscoveryPanel.BasicSettled 0 (Fulfilled no_details)) in
   let s3 := DiscoveryPanel.step s2
               (DiscoveryPanel.BasicSettled 0 (Fulfilled no_details)) in
   DiscoveryPanel.searchQuery s1 = "core" /\
   DiscoveryPanel.isSearching s1 = false /\
   DiscoveryPanel.searchResults s1 = [found "SXR8"; found "EUNL"] /\
   map DiscoveryPanel.ticker (DiscoveryPanel.selectedEtfs s1) = ["IWDA"; "VWCE"] /\
   map DiscoveryPanel.ticker (DiscoveryPanel.selectedEtfs s2) = ["IWDA"; "VWCE"; "SXR8"] /\
   map DiscoveryPanel.ticker (DiscoveryPanel.selectedEtfs s3) = ["IWDA"; "VWCE"; "EUNL"] /\
   DiscoveryPanel.selectedEtfs s3 <> DiscoveryPanel.selectedEtfs s2).
Proof.
  split; [|split; [|split; [|split; [|split; [|split]]]]].
  - intros explorer es. apply run_cap. simpl. lia.
  - intros s etf. apply click_card_room.
  - apply click_compare_opens.
  - intros s etf. apply click_card_full.
  - intros s res. apply click_result_starts.
  - intros s n res captured r. apply addSearchedEtf_settles.
  - repeat split; try reflexivity. intros E.
    apply (f_equal (map DiscoveryPanel.ticker)) in E. vm_compute in E.
    discriminate E.
Qed.

Lemma C3_selection_cap_and_late_addition_witness :
  (length (DiscoveryPanel.selectedEtfs
     (DiscoveryPanel.run (DiscoveryPanel.initial [])
        [DiscoveryPanel.ClickCard (fund "IWDA"); DiscoveryPanel.ClickCard (fund "VWCE");
         DiscoveryPanel.ClickCard (fund "EUNL"); DiscoveryPanel.ClickCard (fund "SXR8")]))
   <= 3)%nat /\
  DiscoveryPanel.selectedEtfs
    (DiscoveryPanel.step (DiscoveryPanel.initial []) (DiscoveryPanel.ClickCard (fund "IWDA"))) =
    [fund "IWDA"] /\
  DiscoveryPanel.isComparing (DiscoveryPanel.step three_selected DiscoveryPanel.ClickCompare) =
    true /\
  DiscoveryPanel.step three_selected (DiscoveryPanel.ClickCard (fund "SXR8")) =
    three_selected /\
  DiscoveryPanel.pending
    (DiscoveryPanel.step three_selected (DiscoveryPanel.ClickResult (found "SXR8"))) =
    [DiscoveryPanel.InAddSearchedEtf (found "SXR8")
       (DiscoveryPanel.selectedEtfs three_selected)] /\
  (let s1 := DiscoveryPanel.step three_selected (DiscoveryPanel.ClickResult (found "SXR8")) in
   DiscoveryPanel.selectedEtfs (DiscoveryPanel.step s1 (DiscoveryPanel.BasicSettled 0 Rejected)) =
     DiscoveryPanel.selectedEtfs s1) /\
  (let s1 := DiscoveryPanel.step (DiscoveryPanel.initial [])
               (DiscoveryPanel.ClickResult (found "SXR8")) in
   exists e,
     DiscoveryPanel.ticker e = "SXR8" /\
     DiscoveryPanel.selectedEtfs
       (DiscoveryPanel.step s1 (DiscoveryPanel.BasicSettled 0 (Fulfilled no_details))) =
     [e]).
Proof.
  destruct C3_selection_cap_and_late_addition as (H1 & H2 & H3 & H4 & H5 & H6 & _).
  split; [|split; [|split; [|split; [|split; [|split]]]]].
  - apply (H1 []).
  - apply (H2 (DiscoveryPanel.initial []) (fund "IWDA")); [simpl; lia | reflexivity].
  - apply (H3 three_selected); [simpl; lia | reflexivity].
  - apply (H4 three_selected (fund "SXR8")); reflexivity.
  - apply (H5 three_selected (found "SXR8")). reflexivity.
  - apply (H6 (DiscoveryPanel.step three_selected (DiscoveryPanel.ClickResult (found "SXR8")))
             0%nat (found "SXR8") (DiscoveryPanel.selectedEtfs three_selected) Rejected);
      [reflexivity | simpl; lia].
  - destruct (H6 (DiscoveryPanel.step (DiscoveryPanel.initial [])
                    (DiscoveryPanel.ClickResult (found "SXR8")))
                0%nat (found "SXR8") [] (Fulfilled no_details) eq_refl)
      as (_ & Hadd & _).
    destruct Hadd as (e & Ht & _ & He); [simpl; lia|].
    exists e. split; [exact Ht | exact He].
Defined.

(** With one fund selected the compare button is disabled. *)
Example compare_needs_two :
  DiscoveryPanel.step
    (DiscoveryPanel.step (DiscoveryPanel.initial []) (DiscoveryPanel.ClickCard (fund "IWDA")))
    DiscoveryPanel.ClickCompare =
  DiscoveryPanel.step (DiscoveryPanel.initial []) (DiscoveryPanel.ClickCard (fund "IWDA")).
Proof. reflexivity. Qed.

(** Two additions that overlap: a search result is clicked with two funds
    selected, a card is clicked before its details arrive, and the answer
    then stores the selection the first click saw plus the found fund.
    The list still holds three funds; the card's fund is no longer one
    of them. *)
Example overlapping_additions :
  let s := DiscoveryPanel.run (DiscoveryPanel.initial [])
             [DiscoveryPanel.ClickCard (fund "IWDA"); DiscoveryPanel.ClickCard (fund "VWCE");
              DiscoveryPanel.ClickResult (found "SXR8");
              DiscoveryPanel.ClickCard (fund "EUNL");
              DiscoveryPanel.BasicSettled 0 Rejected] in
  map DiscoveryPanel.ticker (DiscoveryPanel.selectedEtfs s) = ["IWDA"; "VWCE"; "SXR8"].
Proof. reflexivity. Qed.

(** ** Adding a holding *)

(** A digit, a point and a minus are not white space, and none of them
    begins the word Infinity. *)
Lemma number_start_char (a : Ascii.ascii) :
  is_digit a = true \/ is_char "." a = true ->
  is_space a = false /\ is_char "-" a = false /\ is_char "+" a = false /\
  (forall r, String.prefix "Infinity" (String a r) = false).
Proof.
  destruct a as [[] [] [] [] [] [] [] []];
    vm_compute; intros [H|H]; try discriminate H; repeat split.
Qed.

Lemma minus_not_space (a : Ascii.ascii) :
  is_char "-" a = true -> is_space a = false /\ is_digit a = false.
Proof.
  destruct a as [[] [] [] [] [] [] [] []];
    vm_compute; intros H; try discriminate H; repeat split.
Qed.

Lemma digits_nonempty_head a r ip s1 :
  digits (String a r) = (ip, s1) -> ip <> [] -> is_digit a = true.
Proof.
  simpl. destruct (is_digit a); [reflexivity|]. intros [= <- _] H. now elim H.
Qed.

Lemma digits_empty_rest s ip s1 :
  digits s = (ip, s1) -> ip = [] -> s1 = s.
Proof.
  destruct s as [|a r]; simpl.
  - now intros [= _ <-].
  - destruct (is_digit a).
    + destruct (digits r). intros [= <- _]. discriminate.
    + now intros [= _ <-].
Qed.

Lemma read_fraction_some s fp s2 :
  read_fraction s = (Some fp, s2) ->
  exists a r, s = String a r /\ is_char "." a = true.
Proof.
  destruct s as [|a r]; unfold read_fraction; [discriminate|].
  destruct (is_char "." a) eqn:E; [|discriminate]. eauto.
Qed.

Lemma mantissa_found_start s :
  mantissa_found s = true ->
  exists a r, s = String a r /\ (is_digit a = true \/ is_char "." a = true).
Proof.
  unfold mantissa_found. destruct (digits s) as [ip s1] eqn:Hd.
  destruct (read_fraction s1) as [[fp|] s2] eqn:Hf; simpl; intros H.
  - destruct ip as [|d ip].
    + rewrite (digits_empty_rest s [] s1 Hd eq_refl) in Hf.
      destruct (read_fraction_some _ _ _ Hf) as (a & r & -> & Ha). eauto.
    + destruct s as [|a r]; [simpl in Hd; discriminate|].
      exists a, r. split; [reflexivity|]. left.
      now apply (digits_nonempty_head a r (d :: ip) s1).
  - apply negb_true_iff, bool_decide_eq_false in H.
    destruct s as [|a r]; [simpl in Hd; injection Hd as <- _; now elim H|].
    exists a, r. split; [reflexivity|]. left.
    now apply (digits_nonempty_head a r ip s1).
Qed.

Lemma binary64_is_number (x : Qc) : binary64 x <> NaN.
Proof.
  intros E. pose proof (binary64_not_nan x) as H. rewrite E in H. discriminate H.
Qed.

Lemma parseFloat_of_mantissa neg s :
  mantissa_found s = true ->
  (let '(ip, s1) := digits s in
   let '(frac_part, s2) := read_fraction s1 in
   let fp := default [] frac_part in
   match ip, fp with
   | [], [] => NaN
   | _, _ => binary64 (decimal_value neg ip fp (fst (read_exponent s2)))
   end) <> NaN.
Proof.
  unfold mantissa_found. destruct (digits s) as [ip s1].
  destruct (read_fraction s1) as [[fp|] s2]; simpl; intros H.
  - apply negb_true_iff, bool_decide_eq_false in H.
    destruct ip, fp; try apply binary64_is_number. now elim H.
  - apply negb_true_iff, bool_decide_eq_false in H.
    destruct ip; try apply binary64_is_number. now elim H.
Qed.

Lemma valid_mantissa_found s :
  valid_floating_point_number s = true ->
  mantissa_found
    (match s with
     | String a rest => if is_char "-" a then rest else s
     | EmptyString => s
     end) = true.
Proof.
  unfold valid_floating_point_number, mantissa_found.
  destruct (digits _) as [ip s1]. destruct (read_fraction s1) as [frac_part s2].
  simpl. intros H. apply andb_true_iff in H. tauto.
Qed.

(** A valid floating-point number parses to a number. *)
Lemma parseFloat_valid s :
  valid_floating_point_number s = true -> parseFloat s <> NaN.
Proof.
  intros Hv. pose proof (valid_mantissa_found s Hv) as Hm.
  destruct s as [|a rest]; [discriminate Hm|].
  unfold parseFloat.
  destruct (is_char "-" a) eqn:Hminus; rewrite ?Hminus in Hm.
  - destruct (minus_not_space a Hminus) as [Hsp _].
    cbn [trim_start]. rewrite Hsp. cbn [read_sign]. rewrite Hminus.
    destruct (mantissa_found_start rest Hm) as (b & r & -> & Hb).
    destruct (number_start_char b Hb) as (_ & _ & _ & Hinf). rewrite Hinf.
    now apply parseFloat_of_mantissa.
  - destruct (mantissa_found_start _ Hm) as (b & r & Heq & Hb).
    injection Heq as <- <-.
    destruct (number_start_char a Hb) as (Hsp & _ & Hplus & Hinf).
    cbn [trim_start]. rewrite Hsp. cbn [read_sign]. rewrite Hminus, Hplus, Hinf.
    now apply parseFloat_of_mantissa.
Qed.

(** Of the values a number input reports only the empty one is not a
    number. *)
Lemma number_input_NaN v :
  number_input_value v -> parseFloat v = NaN -> v = "".
Proof.
  intros [->|Hv] Hnan; [reflexivity|]. now elim (parseFloat_valid v Hv).
Qed.

Lemma handleAdd_rejects ctx s :
  AddHoldingModal.ticker s = "" \/ AddHoldingModal.shares s = "" \/
  AddHoldingModal.selectedPortfolioId s = "" ->
  AddHoldingModal.handleAdd ctx s = [].
Proof.
  unfold AddHoldingModal.handleAdd.
  intros [H|[H|H]]; rewrite H; change (nonempty "") with false; simpl;
    now rewrite ?orb_true_r.
Qed.

Lemma handleAdd_accepts ctx s :
  AddHoldingModal.ticker s <> "" -> AddHoldingModal.shares s <> "" ->
  AddHoldingModal.selectedPortfolioId s <> "" ->
  exists price,
    AddHoldingModal.handleAdd ctx s =
    [ AddHoldingModal.onAdd (AddHoldingModal.selectedPortfolioId s)
        {| usePortfolios.ticker := toUpperCase (AddHoldingModal.ticker s);
           usePortfolios.shares := parseFloat (AddHoldingModal.shares s);
           usePortfolios.buyPrice := price |};
      AddHoldingModal.onClose ].
Proof.
  intros Ht Hs Hp. unfold AddHoldingModal.handleAdd, nonempty.
  rewrite !bool_decide_eq_false_2 by assumption. simpl. eauto.
Qed.

Lemma handleAddHolding_rejects sel h open :
  sel = None \/ sel = Some "" \/
  PortfolioView.ticker h = "" \/ PortfolioView.shares h = "" ->
  PortfolioView.handleAddHolding sel h open = ([], h, open).
Proof.
  unfold PortfolioView.handleAddHolding.
  intros [->|[->|[H|H]]]; try reflexivity; destruct sel as [id|]; try reflexivity;
    rewrite H; change (nonempty "") with false; simpl;
    now rewrite ?andb_false_r.
Qed.

Lemma handleAddHolding_accepts id h open :
  id <> "" -> PortfolioView.ticker h <> "" -> PortfolioView.shares h <> "" ->
  exists price,
    PortfolioView.handleAddHolding (Some id) h open =
    ([ PortfolioView.onAddHolding id
         {| usePortfolios.ticker := toUpperCase (PortfolioView.ticker h);
            usePortfolios.shares := parseFloat (PortfolioView.shares h);
            usePortfolios.buyPrice := price |} ],
     {| PortfolioView.ticker := ""; PortfolioView.shares := "";
        PortfolioView.buyPrice := "" |}, false).
Proof.
  intros Hi Ht Hs. unfold PortfolioView.handleAddHolding, nonempty.
  rewrite !bool_decide_eq_false_2 by assumption. simpl. eauto.
Qed.

(** The shares field of the modal only ever holds what its number input
    reported, or the "1" it starts with: the effect does not write it. *)
Lemma modal_step_shares toFixed s e :
  HoldingModal.from_number_input e ->
  number_input_value (AddHoldingModal.shares (HoldingModal.form s)) ->
  number_input_value
    (AddHoldingModal.shares (HoldingModal.form (HoldingModal.step toFixed s e))).
Proof.
  intros He Hs.
  destruct e as [ |ev|ids|t p|ctx]; simpl;
    unfold HoldingModal.run_effect; repeat (destruct (deps_changed _ _); simpl);
    try exact Hs.
  all: destruct ev as [v|v|v|id]; simpl in *; solve [exact Hs | exact He].
Qed.

Lemma modal_run_shares toFixed es : forall s,
  Forall HoldingModal.from_number_input es ->
  number_input_value (AddHoldingModal.shares (HoldingModal.form s)) ->
  number_input_value
    (AddHoldingModal.shares
       (HoldingModal.form (HoldingModal.run toFixed s es))).
Proof.
  unfold HoldingModal.run. induction es as [|e es IH]; intros s Hes Hs; [exact Hs|].
  simpl. inversion Hes as [|? ? He Hes']; subst.
  apply IH; [exact Hes'|]. now apply modal_step_shares.
Qed.

(** The [newHolding] of the view only ever holds the shares "" or "1". *)
Lemma view_step_shares s e :
  PortfolioView.shares (PortfolioViewForm.newHolding s) = "" \/
  PortfolioView.shares (PortfolioViewForm.newHolding s) = "1" ->
  PortfolioView.shares
    (PortfolioViewForm.newHolding (PortfolioViewForm.step s e)) = "" \/
  PortfolioView.shares
    (PortfolioViewForm.newHolding (PortfolioViewForm.step s e)) = "1".
Proof.
  intros Hs. destruct e as [id|t| | | ]; simpl; try exact Hs.
  - now right.
  - unfold PortfolioView.handleAddHolding.
    destruct (PortfolioViewForm.selectedPortfolio s) as [id|]; [|exact Hs].
    destruct (nonempty id && _ && _); simpl; [now left | exact Hs].
Qed.

Lemma view_run_shares es : forall s,
  PortfolioView.shares (PortfolioViewForm.newHolding s) = "" \/
  PortfolioView.shares (PortfolioViewForm.newHolding s) = "1" ->
  PortfolioView.shares
    (PortfolioViewForm.newHolding (PortfolioViewForm.run s es)) = "" \/
  PortfolioView.shares
    (PortfolioViewForm.newHolding (PortfolioViewForm.run s es)) = "1".
Proof.
  unfold PortfolioViewForm.run. induction es as [|e es IH]; intros s Hs; [exact Hs|].
  simpl. apply IH. now apply view_step_shares.
Qed.

Lemma parseFloat_1 : parseFloat "1" <> NaN.
Proof. apply parseFloat_valid. reflexivity. Qed.

(** C6.  The shares field of the modal is an input of type number, which
    reports the empty string for every entry that is not a number, and
    the [newHolding] of the view is only written with the shares "" and
    "1".  In every state the modal can reach, [handleAdd] returns without
    a call when the ticker is empty or the shares do not parse to a
    number; in every state the view can reach, so does
    [handleAddHolding].  Neither guard refuses everything: with a ticker,
    shares and a portfolio each handler calls back once, with the ticker
    in upper case and the parsed shares. *)
Theorem C6_add_holding_guard :
  (forall toFixed portfolios initialTicker initialPrice ctx es,
     Forall HoldingModal.from_number_input es ->
     let s := HoldingModal.run toFixed
                (HoldingModal.initial portfolios initialTicker initialPrice ctx)
                es in
     AddHoldingModal.ticker (HoldingModal.form s) = "" \/
     parseFloat (AddHoldingModal.shares (HoldingModal.form s)) = NaN ->
     HoldingModal.handleAdd s = []) /\
  (forall ctx s,
     AddHoldingModal.ticker s <> "" -> AddHoldingModal.shares s <> "" ->
     AddHoldingModal.selectedPortfolioId s <> "" ->
     exists price,
       AddHoldingModal.handleAdd ctx s =
       [ AddHoldingModal.onAdd (AddHoldingModal.selectedPortfolioId s)
           {| usePortfolios.ticker := toUpperCase (AddHoldingModal.ticker s);
              usePortfolios.shares := parseFloat (AddHoldingModal.shares s);
              usePortfolios.buyPrice := price |};
         AddHoldingModal.onClose ]) /\
  (forall es,
     let s := PortfolioViewForm.run PortfolioViewForm.initial es in
     let h := PortfolioViewForm.newHolding s in
     PortfolioView.ticker h = "" \/ parseFloat (PortfolioView.shares h) = NaN ->
     PortfolioViewForm.step s PortfolioViewForm.HandleAddHolding = s) /\
  (forall id h open,
     id <> "" -> PortfolioView.ticker h <> "" -> PortfolioView.shares h <> "" ->
     exists price,
       PortfolioView.handleAddHolding (Some id) h open =
       ([ PortfolioView.onAddHolding id
            {| usePortfolios.ticker := toUpperCase (PortfolioView.ticker h);
               usePortfolios.shares := parseFloat (PortfolioView.shares h);
               usePortfolios.buyPrice := price |} ],
        {| PortfolioView.ticker := ""; PortfolioView.shares := "";
           PortfolioView.buyPrice := "" |}, false)).
Proof.
  split; [|split; [|split]].
  - intros toFixed portfolios initialTicker initialPrice ctx es Hes s H.
    apply handleAdd_rejects. destruct H as [H|H]; [now left|]. right. left.
    apply number_input_NaN; [|exact H].
    apply modal_run_shares; [exact Hes|]. right. reflexivity.
  - apply handleAdd_accepts.
  - intros es s h H.
    assert (Hrej : PortfolioView.handleAddHolding
                     (PortfolioViewForm.selectedPortfolio s) h
                     (PortfolioViewForm.showAddHoldingModal s) =
                   ([], h, PortfolioViewForm.showAddHoldingModal s)).
    { apply handleAddHolding_rejects. right. right.
      destruct H as [H|H]; [now left|]. right.
      destruct (view_run_shares es PortfolioViewForm.initial (or_introl eq_refl))
        as [E|E]; [exact E|].
      fold s in E. fold h in E. rewrite E in H. now elim parseFloat_1. }
    simpl. fold h. rewrite Hrej. rewrite app_nil_r. now destruct s.
  - apply handleAddHolding_accepts.
Qed.

Lemma C6_add_holding_guard_witness :
  (forall toFixed,
     HoldingModal.handleAdd
       (HoldingModal.run toFixed
          (HoldingModal.initial ["p1"] "AAPL" None (CurrencyContext.initial ∅))
          [HoldingModal.Mount;
           HoldingModal.Input (AddHoldingModal.TypeShares "")]) = []) /\
  (forall toFixed,
     HoldingModal.handleAdd
       (HoldingModal.run toFixed
          (HoldingModal.initial ["p1"] "" None (CurrencyContext.initial ∅))
          [HoldingModal.Mount;
           HoldingModal.Input (AddHoldingModal.TypeShares "10")]) = []) /\
  (exists price,
     AddHoldingModal.handleAdd (CurrencyContext.initial ∅)
       {| AddHoldingModal.ticker := "AAPL"; AddHoldingModal.shares := "10";
          AddHoldingModal.buyPrice := "150"; AddHoldingModal.selectedPortfolioId := "p1" |} =
     [ AddHoldingModal.onAdd "p1"
         {| usePortfolios.ticker := toUpperCase "AAPL";
            usePortfolios.shares := parseFloat "10";
            usePortfolios.buyPrice := price |};
       AddHoldingModal.onClose ]) /\
  (let s := PortfolioViewForm.run PortfolioViewForm.initial
              [PortfolioViewForm.SelectPortfolio (Some "p1");
               PortfolioViewForm.OpenModal] in
   PortfolioViewForm.step s PortfolioViewForm.HandleAddHolding = s) /\
  (exists price,
     PortfolioView.handleAddHolding (Some "p1")
       {| PortfolioView.ticker := "aapl"; PortfolioView.shares := "1";
          PortfolioView.buyPrice := "" |} true =
     ([ PortfolioView.onAddHolding "p1"
          {| usePortfolios.ticker := toUpperCase "aapl";
             usePortfolios.shares := parseFloat "1";
             usePortfolios.buyPrice := price |} ],
      {| PortfolioView.ticker := ""; PortfolioView.shares := "";
         PortfolioView.buyPrice := "" |}, false)).
Proof.
  destruct C6_add_holding_guard as (H1 & H2 & H3 & H4).
  split; [|split; [|split; [|split]]].
  - intros toFixed.
    apply (H1 toFixed ["p1"] "AAPL" None (CurrencyContext.initial ∅)
             [HoldingModal.Mount;
              HoldingModal.Input (AddHoldingModal.TypeShares "")]).
    + constructor; [exact I|]. constructor; [|constructor]. left. reflexivity.
    + right. reflexivity.
  - intros toFixed.
    apply (H1 toFixed ["p1"] "" None (CurrencyContext.initial ∅)
             [HoldingModal.Mount;
              HoldingModal.Input (AddHoldingModal.TypeShares "10")]).
    + constructor; [exact I|]. constructor; [|constructor]. right. reflexivity.
    + left. reflexivity.
  - apply (H2 (CurrencyContext.initial ∅)
             {| AddHoldingModal.ticker := "AAPL"; AddHoldingModal.shares := "10";
                AddHoldingModal.buyPrice := "150";
                AddHoldingModal.selectedPortfolioId := "p1" |}); discriminate.
  - apply (H3 [PortfolioViewForm.SelectPortfolio (Some "p1");
               PortfolioViewForm.OpenModal]).
    left. reflexivity.
  - apply (H4 "p1"
             {| PortfolioView.ticker := "aapl"; PortfolioView.shares := "1";
                PortfolioView.buyPrice := "" |} true); discriminate.
Defined.

(** What the number input keeps out: had the shares field held "abc",
    which no state the modal can reach does, the holding would have been
    passed on with [NaN] shares. *)
Example shares_abc_unreachable :
  ~ number_input_value "abc" /\
  parseFloat "abc" = NaN /\
  AddHoldingModal.handleAdd (CurrencyContext.initial ∅)
    {| AddHoldingModal.ticker := "AAPL"; AddHoldingModal.shares := "abc";
       AddHoldingModal.buyPrice := ""; AddHoldingModal.selectedPortfolioId := "p1" |} =
    [ AddHoldingModal.onAdd "p1"
        {| usePortfolios.ticker := "AAPL"; usePortfolios.shares := NaN;
           usePortfolios.buyPrice := None |};
      AddHoldingModal.onClose ].
Proof.
  split; [|split; reflexivity].
  intros [H|H]; discriminate H.
Qed.

(** Ten shares at 150 EUR with a rate of 0.92 are stored at 150/0.92 USD. *)
Example handleAdd_in_EUR :
  AddHoldingModal.handleAdd
    (CurrencyContext.setCurrency CurrencyContext.EUR (CurrencyContext.initial ∅))
    {| AddHoldingModal.ticker := "aapl"; AddHoldingModal.shares := "10";
       AddHoldingModal.buyPrice := "150"; AddHoldingModal.selectedPortfolioId := "p1" |} =
    [ AddHoldingModal.onAdd "p1"
        {| usePortfolios.ticker := "AAPL"; usePortfolios.shares := num 10;
           usePortfolios.buyPrice := Some (frac 15000 92) |};
      AddHoldingModal.onClose ].
Proof. num_eq. Qed.

(** ** The sentiment heatmap *)

Lemma gt0_sub_true (a b : number) :
  is_nan a = false -> is_nan b = false ->
  gt0 (b - a)%js = true -> num_le a b.
Proof.
  destruct a as [p| | |], b as [q| | |]; simpl; try discriminate; try tauto.
  intros _ _. unfold gt0. simpl.
  destruct (Qc_sign (q + - p)) eqn:E; try discriminate. intros _.
  apply Qc_sign_Pos in E. apply Qclt_le_weak. now apply Qclt_minus_iff.
Qed.

Lemma gt0_sub_false (a b : number) :
  is_nan a = false -> is_nan b = false ->
  gt0 (b - a)%js = false -> num_le b a.
Proof.
  destruct a as [p| | |], b as [q| | |]; simpl; try discriminate; try tauto.
  intros _ _. unfold gt0. simpl.
  destruct (Qc_sign (q + - p)) eqn:E; try discriminate; intros _.
  all: apply Qcnot_lt_le; intros Hlt; apply Qclt_minus_iff, Qc_sign_Pos in Hlt;
    congruence.
Qed.

Section InsertionSort.
Context {A : Type} (cmp : A -> A -> number) (R : A -> A -> Prop) (ok : A -> Prop).
Hypothesis cmp_gt : forall x y, ok x -> ok y -> gt0 (cmp x y) = true -> R y x.
Hypothesis cmp_le : forall x y, ok x -> ok y -> gt0 (cmp x y) = false -> R x y.

Lemma insert_by_perm x l : Permutation (insert_by cmp x l) (x :: l).
Proof.
  induction l as [|y l IH]; simpl; [reflexivity|].
  destruct (gt0 (cmp x y)); [|reflexivity].
  rewrite IH. apply perm_swap.
Qed.

Lemma insert_by_HdRel a x l :
  R a x -> HdRel R a l -> HdRel R a (insert_by cmp x l).
Proof.
  intros Hax Hl. destruct l as [|y l]; simpl; [now constructor|].
  destruct (gt0 (cmp x y)); constructor; [now inversion Hl | exact Hax].
Qed.

Lemma insert_by_sorted x l :
  ok x -> Forall ok l -> Sorted R l -> Sorted R (insert_by cmp x l).
Proof.
  intros Hx Hok Hs. induction l as [|y l IH]; simpl.
  - repeat constructor.
  - inversion Hok as [|? ? Hy Hl]; subst. inversion Hs as [|? ? Hs' Hhd]; subst.
    destruct (gt0 (cmp x y)) eqn:E.
    + constructor; [now apply IH|].
      apply insert_by_HdRel; [now apply cmp_gt | exact Hhd].
    + constructor; [exact Hs|]. constructor. now apply cmp_le.
Qed.

Lemma Array_sort_perm l : Permutation (Array_sort cmp l) l.
Proof.
  induction l as [|x l IH]; simpl; [reflexivity|].
  rewrite insert_by_perm. now constructor.
Qed.

Lemma Array_sort_sorted l : Forall ok l -> Sorted R (Array_sort cmp l).
Proof.
  induction l as [|x l IH]; simpl; intros Hok; [constructor|].
  inversion Hok as [|? ? Hx Hl]; subst.
  apply insert_by_sorted; [exact Hx| |now apply IH].
  rewrite Forall_forall in *. intros y Hy. apply Hl.
  now rewrite <- (Array_sort_perm l).
Qed.
End InsertionSort.

Lemma sort_by_strength (l : list MarketSentiment.HeatmapItem) :
  Forall (fun i => is_nan (MarketSentiment.strength i) = false) l ->
  Sorted MarketSentiment.strength_ge (Array_sort MarketSentiment.by_strength l).
Proof.
  apply Array_sort_sorted; intros x y Hx Hy H;
    unfold MarketSentiment.strength_ge, MarketSentiment.by_strength in *.
  - now apply gt0_sub_true.
  - now apply gt0_sub_false.
Qed.

Lemma sort_by_change (l : list MarketSentiment.HotStock) :
  Forall (fun x => is_nan (MarketSentiment.change_1w x) = false) l ->
  Sorted MarketSentiment.change_ge (Array_sort MarketSentiment.by_change l).
Proof.
  apply Array_sort_sorted; intros x y Hx Hy H;
    unfold MarketSentiment.change_ge, MarketSentiment.by_change in *.
  - now apply gt0_sub_true.
  - now apply gt0_sub_false.
Qed.

(** The copy lives at a location of its own. *)
Lemma spread_spec src (h : gmap MarketSentiment.loc (list MarketSentiment.HotStock)) :
  let l := fst (MarketSentiment.spread src h) in
  let h' := snd (MarketSentiment.spread src h) in
  h !! l = None /\
  h' = <[l := match src with
              | Some l0 => default [] (h !! l0)
              | None => []
              end]> h.
Proof.
  simpl. split; [|reflexivity].
  apply not_elem_of_dom. apply is_fresh.
Qed.

(** Sorting the copy and drawing the remaining cards leaves every array
    that existed before as it was. *)
Lemma render_items_frame items :
  forall (h h' : gmap MarketSentiment.loc (list MarketSentiment.HotStock)) cards,
  MarketSentiment.render_items items h = (cards, h') ->
  forall l xs, h !! l = Some xs -> h' !! l = Some xs.
Proof.
  induction items as [|i items IH]; intros h h' cards Hr l xs Hl.
  - simpl in Hr. now injection Hr as <- <-.
  - cbn [MarketSentiment.render_items] in Hr.
    destruct (spread_spec (MarketSentiment.hot_stocks i) h) as [Hfresh Hh1].
    destruct (MarketSentiment.spread (MarketSentiment.hot_stocks i) h) as [l1 h1].
    simpl in Hfresh, Hh1.
    destruct (MarketSentiment.render_items items (MarketSentiment.sort_in_place l1 h1))
      as [cs h3] eqn:Hrest.
    injection Hr as <- <-.
    apply (IH _ _ _ Hrest).
    assert (l <> l1) by congruence.
    unfold MarketSentiment.sort_in_place. subst h1.
    rewrite lookup_insert_eq. rewrite lookup_insert_ne by congruence.
    now rewrite lookup_insert_ne by congruence.
Qed.

Lemma render_items_cards items :
  forall (h h' : gmap MarketSentiment.loc (list MarketSentiment.HotStock)) cards,
  MarketSentiment.render_items items h = (cards, h') ->
  (forall i l, i ∈ items -> MarketSentiment.hot_stocks i = Some l -> is_Some (h !! l)) ->
  map MarketSentiment.item cards = items /\
  Forall (fun c =>
            h' !! MarketSentiment.sortedStocks c =
            Some (Array_sort MarketSentiment.by_change
                    (match MarketSentiment.hot_stocks (MarketSentiment.item c) with
                     | Some l0 => default [] (h !! l0)
                     | None => []
                     end))) cards.
Proof.
  induction items as [|i items IH]; intros h h' cards Hr Hrefs.
  - simpl in Hr. injection Hr as <- <-. split; constructor.
  - cbn [MarketSentiment.render_items] in Hr.
    destruct (spread_spec (MarketSentiment.hot_stocks i) h) as [Hfresh Hh1].
    destruct (MarketSentiment.spread (MarketSentiment.hot_stocks i) h) as [l1 h1].
    simpl in Hfresh, Hh1.
    destruct (MarketSentiment.render_items items (MarketSentiment.sort_in_place l1 h1))
      as [cs h3] eqn:Hrest.
    injection Hr as <- <-.
    assert (Hsorted : MarketSentiment.sort_in_place l1 h1 !! l1 =
              Some (Array_sort MarketSentiment.by_change
                      (match MarketSentiment.hot_stocks i with
                       | Some l0 => default [] (h !! l0)
                       | None => []
                       end))).
    { unfold MarketSentiment.sort_in_place. subst h1.
      rewrite lookup_insert_eq. now rewrite lookup_insert_eq. }
    assert (Hkeep : forall l xs, h !! l = Some xs ->
              MarketSentiment.sort_in_place l1 h1 !! l = Some xs).
    { intros l xs Hl. assert (l <> l1) by congruence.
      unfold MarketSentiment.sort_in_place. subst h1.
      rewrite lookup_insert_eq. rewrite lookup_insert_ne by congruence.
      now rewrite lookup_insert_ne by congruence. }
    destruct (IH _ _ _ Hrest) as [Hmap Hall].
    { intros j l Hj Hl. destruct (Hrefs j l) as [xs Hxs]; [now right|exact Hl|].
      exists xs. now apply Hkeep. }
    split; [simpl; now rewrite Hmap|].
    constructor.
    + simpl. now apply (render_items_frame _ _ _ _ Hrest).
    + rewrite Forall_forall in *. intros c Hc. rewrite (Hall c Hc).
      destruct (MarketSentiment.hot_stocks (MarketSentiment.item c)) as [l0|] eqn:E;
        [|reflexivity].
      assert (Hin : MarketSentiment.item c ∈ items).
      { rewrite <- Hmap. apply list_elem_of_fmap. eauto. }
      destruct (Hrefs (MarketSentiment.item c) l0) as [xs Hxs]; [now right|exact E|].
      now rewrite (Hkeep _ _ Hxs), Hxs.
Qed.

(** C10. One render of a fetched heatmap draws the sector cards in
    non-increasing order of [strength] (the state array itself ends up in
    that order), and for each sector lists its hot stocks in
    non-increasing order of [change_1w].  The stocks are sorted in a
    fresh array: every array that existed before the render, and with it
    the [hot_stocks] of every fetched entry, holds what it held. *)
Theorem C10_heatmap_order s cards s' :
  MarketSentiment.well_formed s ->
  MarketSentiment.render s = (cards, s') ->
  Sorted MarketSentiment.strength_ge (map MarketSentiment.item cards) /\
  Permutation (map MarketSentiment.item cards) (MarketSentiment.heatmap s) /\
  MarketSentiment.heatmap s' = map MarketSentiment.item cards /\
  Forall (fun c =>
            exists xs,
              MarketSentiment.arrays s' !! MarketSentiment.sortedStocks c = Some xs /\
              Sorted MarketSentiment.change_ge xs /\
              Permutation xs (MarketSentiment.stocks_of s (MarketSentiment.item c)))
         cards /\
  (forall l xs,
     MarketSentiment.arrays s !! l = Some xs ->
     MarketSentiment.arrays s' !! l = Some xs) /\
  (forall i,
     i ∈ MarketSentiment.heatmap s ->
     MarketSentiment.stocks_of s' i = MarketSentiment.stocks_of s i).
Proof.
  intros (Hstr & Hchg & Hrefs) Hr. unfold MarketSentiment.render in Hr.
  set (sorted := Array_sort MarketSentiment.by_strength (MarketSentiment.heatmap s)) in *.
  destruct (MarketSentiment.render_items sorted (MarketSentiment.arrays s))
    as [cs h] eqn:Hitems.
  injection Hr as <- <-. cbn [MarketSentiment.heatmap MarketSentiment.arrays].
  assert (Hperm : Permutation sorted (MarketSentiment.heatmap s))
    by apply Array_sort_perm.
  destruct (render_items_cards _ _ _ _ Hitems) as [Hmap Hall].
  { intros i l Hi. apply Hrefs. now rewrite <- Hperm. }
  assert (Hframe := render_items_frame _ _ _ _ Hitems).
  rewrite Hmap. repeat split.
  - apply sort_by_strength. rewrite Forall_forall. intros i Hi.
    now apply Hstr.
  - exact Hperm.
  - rewrite Forall_forall in *. intros c Hc. rewrite (Hall c Hc).
    eexists. split; [reflexivity|]. split.
    + apply sort_by_change.
      destruct (MarketSentiment.hot_stocks (MarketSentiment.item c)) as [l0|];
        [|constructor].
      destruct (MarketSentiment.arrays s !! l0) as [xs|] eqn:E; [|constructor].
      rewrite Forall_forall. intros x Hx. now apply (Hchg l0 xs x E).
    + apply Array_sort_perm.
  - exact Hframe.
  - intros i Hi. unfold MarketSentiment.stocks_of. simpl.
    destruct (MarketSentiment.hot_stocks i) as [l|] eqn:E; [|reflexivity].
    destruct (Hrefs i l Hi E) as [xs Hxs].
    now rewrite (Hframe l xs Hxs), Hxs.
Qed.

Lemma sample_heatmap_well_formed : MarketSentiment.well_formed sample_heatmap.
Proof.
  split; [|split].
  - intros i Hi. unfold sample_heatmap in Hi. simpl in Hi.
    repeat (apply elem_of_cons in Hi as [->|Hi]); try reflexivity.
    now apply elem_of_nil in Hi.
  - intros l xs x Hl Hx. unfold sample_heatmap in Hl. simpl in Hl.
    apply lookup_insert_Some in Hl as [[<- <-]|[_ Hl]].
    + repeat (apply elem_of_cons in Hx as [->|Hx]); try reflexivity.
      now apply elem_of_nil in Hx.
    + apply lookup_singleton_Some in Hl as [<- <-].
      repeat (apply elem_of_cons in Hx as [->|Hx]); try reflexivity.
      now apply elem_of_nil in Hx.
  - intros i l Hi Hl. unfold sample_heatmap in Hi. simpl in Hi.
    repeat (apply elem_of_cons in Hi as [->|Hi]);
      try (now apply elem_of_nil in Hi);
      simpl in Hl; try discriminate; injection Hl as <-; eexists; reflexivity.
Qed.

Lemma C10_heatmap_order_witness :
  MarketSentiment.well_formed sample_heatmap /\
  let cards := fst (MarketSentiment.render sample_heatmap) in
  let s' := snd (MarketSentiment.render sample_heatmap) in
  Sorted MarketSentiment.strength_ge (map MarketSentiment.item cards) /\
  Permutation (map MarketSentiment.item cards) (MarketSentiment.heatmap sample_heatmap) /\
  MarketSentiment.heatmap s' = map MarketSentiment.item cards /\
  Forall (fun c =>
            exists xs,
              MarketSentiment.arrays s' !! MarketSentiment.sortedStocks c = Some xs /\
              Sorted MarketSentiment.change_ge xs /\
              Permutation xs
                (MarketSentiment.stocks_of sample_heatmap (MarketSentiment.item c)))
         cards /\
  (forall l xs,
     MarketSentiment.arrays sample_heatmap !! l = Some xs ->
     MarketSentiment.arrays s' !! l = Some xs) /\
  (forall i,
     i ∈ MarketSentiment.heatmap sample_heatmap ->
     MarketSentiment.stocks_of s' i = MarketSentiment.stocks_of sample_heatmap i).
Proof.
  split; [exact sample_heatmap_well_formed|].
  apply (C10_heatmap_order sample_heatmap _ _ sample_heatmap_well_formed).
  apply surjective_pairing.
Defined.

(** The sample heatmap: the cards come out as Tech, Utilities, Energy;
    Tech lists MSFT, AAPL, NVDA; the fetched array of Tech still reads
    NVDA, MSFT, AAPL. *)
Example sample_heatmap_render :
  let cards := fst (MarketSentiment.render sample_heatmap) in
  let s' := snd (MarketSentiment.render sample_heatmap) in
  map (fun c => MarketSentiment.sector (MarketSentiment.item c)) cards =
    ["Tech"; "Utilities"; "Energy"] /\
  map (fun c => map MarketSentiment.ticker
                  (default [] (MarketSentiment.arrays s' !! MarketSentiment.sortedStocks c)))
      cards = [["MSFT"; "AAPL"; "NVDA"]; []; ["CVX"; "XOM"]] /\
  map MarketSentiment.ticker (default [] (MarketSentiment.arrays s' !! 1%nat)) =
    ["NVDA"; "MSFT"; "AAPL"] /\
  map MarketSentiment.sector (MarketSentiment.heatmap s') =
    ["Tech"; "Utilities"; "Energy"].
Proof. vm_compute. repeat split. Qed.

(** * Further properties *)

(** ** Charts: responses that bring no statistics *)

(** X1. A response with fewer than two points replaces the series and leaves
    the displayed change and percentage as they were, with no
    [onStatsUpdate]; a failed fetch replaces nothing.  Both end the
    loading state. *)
Theorem PriceChart_stale_stats s n c r :
  PriceChart.pending s !! n = Some c ->
  match r with
  | Fulfilled hist => (length hist <= 1)%nat
  | Rejected => True
  end ->
  let s' := PriceChart.step s (PriceChart.Settle n r) in
  PriceChart.stats s' = PriceChart.stats s /\
  PriceChart.out s' = PriceChart.out s /\
  PriceChart.loading s' = false /\
  PriceChart.period s' = PriceChart.period s /\
  PriceChart.data s' =
    match r with
    | Fulfilled hist => hist
    | Rejected => PriceChart.data s
    end.
Proof.
  intros Hc Hr. simpl. rewrite Hc. destruct r as [hist|]; simpl.
  - unfold PriceChart.compute_stats.
    rewrite bool_decide_eq_false_2 by lia. simpl.
    now rewrite app_nil_r.
  - repeat split.
Qed.

Lemma PriceChart_stale_stats_witness :
  let s := PriceChart.run (PriceChart.initial "AAPL")
             [PriceChart.Mount; PriceChart.Settle 0 (Fulfilled series_5d);
              PriceChart.SetPeriod PriceChart.P_1d] in
  let s' := PriceChart.step s (PriceChart.Settle 0 (Fulfilled [chart_point 12])) in
  PriceChart.stats s' = PriceChart.stats s /\
  PriceChart.out s' = PriceChart.out s /\
  PriceChart.loading s' = false /\
  PriceChart.period s' = PriceChart.period s /\
  PriceChart.data s' = [chart_point 12].
Proof.
  apply (PriceChart_stale_stats
           (PriceChart.run (PriceChart.initial "AAPL")
              [PriceChart.Mount; PriceChart.Settle 0 (Fulfilled series_5d);
               PriceChart.SetPeriod PriceChart.P_1d])
           0%nat
           {| PriceChart.url := "/api/history/AAPL?period=1d&interval=5m";
              PriceChart.captured := PriceChart.P_1d |}
           (Fulfilled [chart_point 12])).
  - reflexivity.
  - simpl. lia.
Defined.





(** ** Currency: what [convert] can return *)

(** X3. With the rates the provider can have stored from finite answers,
    converting never gives [NaN], whatever the amount: a missing amount
    ([NaN]) and 0 come out as 0, and the stored rate is never 0, so that
    neither an infinite amount times the rate nor an amount over the rate
    is undefined. *)
Theorem convert_never_NaN ls es amount from :
  Forall CurrencyContext.finite_rate es ->
  let s := CurrencyContext.run (CurrencyContext.initial ls) es in
  is_nan (CurrencyContext.convert s amount from) = false /\
  (truthy amount = false -> CurrencyContext.convert s amount from = num 0).
Proof.
  intros Hes s.
  pose proof (stored_rate_truthy ls es) as Ht.
  pose proof (stored_rate_finite ls es Hes) as Hf.
  fold s in Ht, Hf. unfold CurrencyContext.convert.
  destruct (CurrencyContext.exchangeRate s) as [r| | |]; try discriminate.
  split; [|now intros ->].
  destruct (truthy amount) eqn:Ea; [|reflexivity]. cbn [negb].
  assert (Hn : is_nan amount = false) by now destruct amount.
  repeat (case_bool_decide; cbn [andb]; try exact Hn).
  all: simpl in Ht; destruct amount as [a| | |]; try discriminate; simpl.
  all: destruct (Qc_sign r) eqn:E; try discriminate; try reflexivity.
  all: try apply binary64_not_nan.
  all: unfold sign_mul; simpl; try rewrite E; try reflexivity.
  all: destruct (Qc_sign a); reflexivity.
Qed.

Lemma convert_never_NaN_witness :
  let s := CurrencyContext.run (CurrencyContext.initial ∅)
             [CurrencyContext.RateSettled (Fulfilled (Some (num 0)));
              CurrencyContext.SetCurrency CurrencyContext.EUR] in
  is_nan (CurrencyContext.convert s PosInf CurrencyContext.USD) = false /\
  CurrencyContext.convert s NaN CurrencyContext.USD = num 0.
Proof.
  split.
  - refine (proj1 (convert_never_NaN ∅ _ PosInf CurrencyContext.USD _)).
    repeat constructor.
  - refine (proj2 (convert_never_NaN ∅ _ NaN CurrencyContext.USD _) _).
    + repeat constructor.
    + reflexivity.
Defined.

(** ** App: what is stored, and what a reload restores *)

Lemma mirrors_set_other B k v s :
  k <> "activeTab" -> k <> "preferred_currency" -> k <> "lastAnalysis" ->
  storage_mirrors B s -> storage_mirrors B (App.set_storage k v s).
Proof.
  intros H1 H2 H3 (Ha & Hc & Hl). unfold storage_mirrors. simpl.
  rewrite !lookup_insert_ne by congruence. auto.
Qed.

Lemma mirrors_setActiveTab B t s :
  storage_mirrors B s -> storage_mirrors B (App.setActiveTab t s).
Proof.
  intros (Ha & Hc & Hl). unfold App.setActiveTab, deps_changed.
  case_bool_decide as Hd; unfold storage_mirrors; simpl.
  - rewrite lookup_insert_eq, !lookup_insert_ne by discriminate. auto.
  - subst t. auto.
Qed.

Lemma mirrors_setProvider B p s :
  storage_mirrors B s -> storage_mirrors B (App.setProvider p s).
Proof.
  intros (Ha & Hc & Hl). unfold App.setProvider, deps_changed.
  case_bool_decide as Hd; unfold storage_mirrors; simpl.
  - rewrite lookup_insert_eq, !lookup_insert_ne by discriminate. auto.
  - rewrite <- Hd. auto.
Qed.

Lemma mirrors_setAnalysis B v s :
  storage_mirrors B s -> storage_mirrors B (App.setAnalysis B v s).
Proof.
  intros (Ha & Hc & Hl). unfold App.setAnalysis, App.effect_analysis. simpl.
  destruct (json_truthy v) eqn:E; unfold storage_mirrors; simpl.
  - rewrite lookup_insert_eq, !lookup_insert_ne by discriminate. auto.
  - rewrite E. repeat split; auto. discriminate.
Qed.

Lemma mirrors_same B s s' :
  App.activeTab s' = App.activeTab s -> App.analysis s' = App.analysis s ->
  App.provider s' = App.provider s -> App.localStorage s' = App.localStorage s ->
  storage_mirrors B s -> storage_mirrors B s'.
Proof.
  unfold storage_mirrors. intros -> -> -> ->. auto.
Qed.

Lemma mirrors_handleSearch B t s :
  storage_mirrors B s -> storage_mirrors B (App.handleSearch B t s).
Proof.
  intros H. unfold App.handleSearch.
  eapply mirrors_same; [| | | |apply mirrors_setActiveTab, mirrors_setAnalysis;
    eapply mirrors_same; [| | | |exact H]]; reflexivity.
Qed.

Lemma mirrors_handleSearch_resume B r s :
  storage_mirrors B s -> storage_mirrors B (App.handleSearch_resume B r s).
Proof.
  intros H. unfold App.handleSearch_resume.
  eapply mirrors_same; [reflexivity..|].
  destruct r as [resp|m]; [|eapply mirrors_same; [reflexivity..|exact H]].
  destruct (ok resp); [|eapply mirrors_same; [reflexivity..|exact H]].
  destruct (snd _);
    [now apply mirrors_setAnalysis | eapply mirrors_same; [reflexivity..|exact H]].
Qed.

Lemma mirrors_Mount B s : storage_mirrors B (App.step B s App.Mount).
Proof.
  simpl. unfold App.effect_currency, App.effect_analysis, App.effect_activeTab.
  unfold storage_mirrors, App.set_storage. cbn.
  destruct (json_truthy (App.analysis s)) eqn:E; cbn; rewrite ?E;
    (split; [|split]); try (intros; discriminate); try intros _;
    now simplify_map_eq.
Qed.

Lemma mirrors_step B s e :
  storage_mirrors B s -> storage_mirrors B (App.step B s e).
Proof.
  intros H. destruct e as [ |t|c|r|b|t|t|n r]; simpl.
  - apply mirrors_Mount.
  - now apply mirrors_setActiveTab.
  - now apply mirrors_setProvider.
  - now apply mirrors_setProvider.
  - eapply mirrors_same; [reflexivity..|exact H].
  - now apply mirrors_handleSearch.
  - now apply mirrors_handleSearch, mirrors_setActiveTab.
  - destruct (App.pending s !! n); [|exact H].
    apply mirrors_handleSearch_resume.
    eapply mirrors_same; [reflexivity..|exact H].
Qed.

Lemma mirrors_run B es : forall s,
  storage_mirrors B s -> storage_mirrors B (App.run B s es).
Proof.
  unfold App.run. induction es as [|e es IH]; intros s Hs; [exact Hs|].
  simpl. apply IH. now apply mirrors_step.
Qed.

(** X4. Once the application is mounted, the storage always holds the
    current tab and the current currency, and whenever an analysis is on
    screen the stored blob is the serialisation of that analysis. *)
Theorem App_storage_mirrors_state B s0 es :
  storage_mirrors B (App.run B (App.step B s0 App.Mount) es).
Proof.
  pose proof (mirrors_Mount B s0) as H0. revert H0. unfold App.run.
  generalize (App.step B s0 App.Mount) as s.
  induction es as [|e es IH]; intros s Hs; [exact Hs|].
  simpl. apply IH. now apply mirrors_step.
Qed.

Lemma named_step B s e : named s -> named (App.step B s e).
Proof.
  intros [Ht Hc].
  assert (Htab : forall t s, named s -> t <> "" -> named (App.setActiveTab t s)).
  { intros t s1 [? ?] ?. unfold App.setActiveTab.
    destruct (deps_changed _ _); split; simpl; assumption. }
  assert (Hprov : forall p s, named s -> CurrencyContext.currency p <> "" ->
                              named (App.setProvider p s)).
  { intros p s1 [? ?] ?. unfold App.setProvider.
    destruct (deps_changed _ _); split; simpl; assumption. }
  assert (Hana : forall v s, named s -> named (App.setAnalysis B v s)).
  { intros v s1 [? ?]. unfold App.setAnalysis, App.effect_analysis. simpl.
    destruct (json_truthy v); split; simpl; assumption. }
  assert (Hsearch : forall t s, named s -> named (App.handleSearch B t s)).
  { intros t s1 Hn. unfold App.handleSearch.
    assert (H2 : named (App.setActiveTab "analyze"
                  (App.setAnalysis B JNull (App.setError None (App.setLoading true s1))))).
    { apply Htab; [|discriminate]. apply Hana. exact Hn. }
    destruct H2. split; assumption. }
  destruct e as [ |t|c|r|b|t|t|n r]; simpl.
  - unfold App.effect_currency, App.effect_analysis, App.effect_activeTab.
    destruct (json_truthy _); split; simpl; assumption.
  - apply Htab; [now split|]. destruct t; discriminate.
  - apply Hprov; [now split|]. destruct c; discriminate.
  - apply Hprov; [now split|].
    destruct r as [[rate|]|]; simpl; try exact Hc.
    destruct (truthy rate); simpl; exact Hc.
  - now split.
  - apply Hsearch. now split.
  - apply Hsearch, Htab; [now split | discriminate].
  - destruct (App.pending s !! n); [|now split].
    unfold App.handleSearch_resume.
    destruct r as [resp|m]; [|now split].
    destruct (ok resp); [|now split].
    destruct (snd _); [|now split].
    assert (H2 := Hana v
      {| App.activeTab := App.activeTab s; App.analysis := App.analysis s;
         App.loading := App.loading s; App.error := App.error s;
         App.isChatOpen := App.isChatOpen s; App.provider := App.provider s;
         App.localStorage := App.localStorage s;
         App.pending := delete n (App.pending s); App.out := App.out s |}
      (conj Ht Hc)).
    destruct H2. split; assumption.
Qed.

Lemma named_initial B ls s0 : App.initial B ls = Normal s0 -> named s0.
Proof.
  unfold App.initial. intros H.
  assert (Hne : forall o d, d <> "" ->
            or_else (fun s => negb (bool_decide (s = ""))) o d <> "").
  { intros [x|] d Hd; simpl; [|exact Hd]. case_bool_decide; simpl; assumption. }
  destruct (match ls !! "lastAnalysis" with Some _ => _ | None => _ end);
    [|discriminate].
  injection H as <-. split; simpl; apply Hne; discriminate.
Qed.

Lemma named_run B es : forall s, named s -> named (App.run B s es).
Proof.
  unfold App.run. induction es as [|e es IH]; intros s Hs; [exact Hs|].
  simpl. apply IH. now apply named_step.
Qed.

(** X5. Reloading the page: the state initialised from the storage the
    application left behind opens on the same tab with the same currency;
    it shows the same analysis if one was on screen and the browser parses
    back what it serialised; it starts idle, and with the built-in rate,
    which is not stored. *)
Theorem App_reload_restores B ls0 s0 es s1 :
  App.initial B ls0 = Normal s0 ->
  let s := App.run B s0 (App.Mount :: es) in
  App.initial B (App.localStorage s) = Normal s1 ->
  App.activeTab s1 = App.activeTab s /\
  CurrencyContext.currency (App.provider s1) =
    CurrencyContext.currency (App.provider s) /\
  CurrencyContext.exchangeRate (App.provider s1) = frac 92 100 /\
  App.loading s1 = false /\ App.error s1 = None /\ App.pending s1 = [] /\
  (json_truthy (App.analysis s) = true ->
   JSON_stringify B (App.analysis s) <> "" ->
   JSON_parse B (JSON_stringify B (App.analysis s)) = Some (App.analysis s) ->
   App.analysis s1 = App.analysis s).
Proof.
  intros H0 s H1.
  assert (Hm : storage_mirrors B s)
    by apply (mirrors_run B es (App.step B s0 App.Mount)), mirrors_Mount.
  assert (Hn : named s).
  { apply (named_run B (App.Mount :: es)). exact (named_initial B ls0 s0 H0). }
  destruct Hm as (Ha & Hc & Hl). destruct Hn as [Hta Hcu].
  unfold App.initial in H1. rewrite Ha in H1. unfold CurrencyContext.initial in H1.
  rewrite Hc in H1. simpl in H1.
  rewrite !bool_decide_eq_false_2 in H1 by assumption. simpl in H1.
  destruct (json_truthy (App.analysis s)) eqn:E.
  - rewrite (Hl eq_refl) in H1.
    case_bool_decide as Hempty.
    + injection H1 as <-. simpl. repeat split. intros _ Hne. contradiction.
    + destruct (JSON_parse B (JSON_stringify B (App.analysis s))) as [v|] eqn:Hp;
        [|discriminate].
      injection H1 as <-. simpl. repeat split. intros _ _ [= ->]. reflexivity.
  - destruct (match App.localStorage s !! "lastAnalysis" with
              | Some _ => _ | None => _ end); [|discriminate].
    injection H1 as <-. simpl. repeat split. discriminate.
Qed.

Lemma App_reload_restores_witness :
  let s := App.run test_browser fresh_app
             [App.Mount; App.ClickCurrency CurrencyContext.EUR;
              App.Search "AAPL"; App.AnalyzeSettled 0 (Http ok_empty_object);
              App.ClickTab App.portfolio] in
  App.initial test_browser ∅ = Normal fresh_app /\
  App.initial test_browser (App.localStorage s) = Normal reloaded_app /\
  App.activeTab reloaded_app = App.activeTab s /\
  CurrencyContext.currency (App.provider reloaded_app) =
    CurrencyContext.currency (App.provider s) /\
  App.analysis reloaded_app = App.analysis s.
Proof.
  assert (H0 : App.initial test_browser ∅ = Normal fresh_app) by reflexivity.
  assert (H1 : App.initial test_browser
                 (App.localStorage
                    (App.run test_browser fresh_app
                       (App.Mount ::
                        [App.ClickCurrency CurrencyContext.EUR;
                         App.Search "AAPL";
                         App.AnalyzeSettled 0 (Http ok_empty_object);
                         App.ClickTab App.portfolio]))) = Normal reloaded_app)
    by (vm_compute; reflexivity).
  destruct (App_reload_restores test_browser ∅ fresh_app
              [App.ClickCurrency CurrencyContext.EUR;
               App.Search "AAPL"; App.AnalyzeSettled 0 (Http ok_empty_object);
               App.ClickTab App.portfolio] reloaded_app H0 H1)
    as (Ha & Hc & _ & _ & _ & _ & Han).
  split; [exact H0|]. split; [exact H1|]. split; [exact Ha|]. split; [exact Hc|].
  apply Han; [reflexivity | discriminate | reflexivity].
Defined.

(** ** App: how an analysis request can end *)

(** X6. Every way the request can end clears the loading state.  A request
    that could not be made shows the message of the failure, and a
    successful response whose body is not JSON shows the parser's
    message; both leave the analysis and the storage alone.  A successful
    JSON response becomes the analysis and leaves the error alone. *)
Theorem handleSearch_outcomes B s n t :
  App.pending s !! n = Some t ->
  (forall r,
     let s' := App.step B s (App.AnalyzeSettled n r) in
     App.loading s' = false /\ App.pending s' = delete n (App.pending s) /\
     App.out s' = App.out s /\ App.activeTab s' = App.activeTab s) /\
  (forall m,
     let s' := App.step B s (App.AnalyzeSettled n (NetworkError m)) in
     App.error s' = Some m /\ App.analysis s' = App.analysis s /\
     App.localStorage s' = App.localStorage s) /\
  (forall resp,
     ok resp = true -> JSON_parse B (body resp) = None ->
     let s' := App.step B s (App.AnalyzeSettled n (Http resp)) in
     App.error s' = Some (syntax_error_message B) /\
     App.analysis s' = App.analysis s /\
     App.localStorage s' = App.localStorage s) /\
  (forall resp data,
     ok resp = true -> JSON_parse B (body resp) = Some data ->
     let s' := App.step B s (App.AnalyzeSettled n (Http resp)) in
     App.analysis s' = data /\ App.error s' = App.error s) /\
  (forall resp,
     ok resp = false ->
     let s' := App.step B s (App.AnalyzeSettled n (Http resp)) in
     App.error s' = Some (App.error_of_response B (received resp)) /\
     App.analysis s' = App.analysis s /\
     App.localStorage s' = App.localStorage s).
Proof.
  intros Hp. split; [|split; [|split; [|split]]].
  - intros r. simpl. rewrite Hp. unfold App.handleSearch_resume.
    destruct r as [resp|m]; [|repeat split].
    destruct (ok resp); [|repeat split].
    destruct (snd _); [|repeat split].
    unfold App.setAnalysis, App.effect_analysis. simpl.
    destruct (json_truthy v); repeat split.
  - intros m. simpl. rewrite Hp. repeat split.
  - intros resp Hok Hparse. simpl. rewrite Hp. unfold App.handleSearch_resume.
    rewrite Hok. unfold Response_json, received. simpl. rewrite Hparse.
    repeat split.
  - intros resp data Hok Hparse. simpl. rewrite Hp. unfold App.handleSearch_resume.
    rewrite Hok. unfold Response_json, received. simpl. rewrite Hparse.
    unfold App.setAnalysis, App.effect_analysis. simpl.
    destruct (json_truthy data); repeat split.
  - intros resp Hok. simpl. rewrite Hp. unfold App.handleSearch_resume.
    rewrite Hok. repeat split.
Qed.

Lemma handleSearch_outcomes_witness :
  let s := App.step test_browser fresh_app (App.Search "AAPL") in
  App.loading (App.step test_browser s
                 (App.AnalyzeSettled 0 (NetworkError "Failed to fetch"))) = false /\
  App.error (App.step test_browser s
               (App.AnalyzeSettled 0 (NetworkError "Failed to fetch"))) =
    Some "Failed to fetch" /\
  App.error (App.step test_browser s (App.AnalyzeSettled 0 (Http ok_html_page))) =
    Some "Unexpected token '<'" /\
  App.analysis (App.step test_browser s (App.AnalyzeSettled 0 (Http ok_empty_object))) =
    JObj [] /\
  App.error (App.step test_browser s (App.AnalyzeSettled 0 (Http error_404_json))) =
    Some "Ticker not found".
Proof.
  destruct (handleSearch_outcomes test_browser
              (App.step test_browser fresh_app (App.Search "AAPL")) 0%nat "AAPL"
              eq_refl) as (H1 & H2 & H3 & H4 & H5).
  split; [|split; [|split; [|split]]].
  - apply (H1 (NetworkError "Failed to fetch")).
  - apply (H2 "Failed to fetch").
  - apply (H3 ok_html_page); reflexivity.
  - apply (H4 ok_empty_object (JObj [])); reflexivity.
  - apply (H5 error_404_json). reflexivity.
Defined.

Lemma handleSearch_sends B t s :
  App.pending (App.handleSearch B t s) = App.pending s ++ [t] /\
  App.out (App.handleSearch B t s) = App.out s ++ [App.analyze_url t].
Proof.
  unfold App.handleSearch. cbn [App.pending App.out].
  unfold App.setActiveTab. destruct (deps_changed _ _); split; reflexivity.
Qed.

Lemma App_two_searches B s t1 t2 :
  App.pending s = [] ->
  App.pending (App.run B s [App.Search t1; App.Search t2]) = [t1; t2] /\
  App.out (App.run B s [App.Search t1; App.Search t2]) =
    App.out s ++ [App.analyze_url t1; App.analyze_url t2].
Proof.
  intros Hp. unfold App.run. cbn [foldl App.step].
  destruct (handleSearch_sends B t1 s) as [P1 O1].
  destruct (handleSearch_sends B t2 (App.handleSearch B t1 s)) as [P2 O2].
  rewrite P2, O2, P1, O1, Hp. split; [reflexivity|]. now rewrite <- app_assoc.
Qed.

Lemma settled_with_data B x n t resp d :
  App.pending x !! n = Some t ->
  ok resp = true -> JSON_parse B (body resp) = Some d ->
  let y := App.step B x (App.AnalyzeSettled n (Http resp)) in
  App.pending y = delete n (App.pending x) /\
  App.analysis y = d /\ App.loading y = false /\ App.error y = App.error x /\
  (json_truthy d = true ->
   App.localStorage y !! "lastAnalysis" = Some (JSON_stringify B d)).
Proof.
  intros Hx Hok Hp. simpl. rewrite Hx. unfold App.handleSearch_resume.
  rewrite Hok. unfold Response_json, received. simpl. rewrite Hp.
  unfold App.setAnalysis, App.effect_analysis. simpl.
  destruct (json_truthy d); simpl; repeat split; try discriminate.
  intros _. apply lookup_insert_eq.
Qed.

Lemma settled_with_failure B x n t m :
  App.pending x !! n = Some t ->
  let y := App.step B x (App.AnalyzeSettled n (NetworkError m)) in
  App.analysis y = App.analysis x /\ App.error y = Some m.
Proof.
  intros Hx. simpl. rewrite Hx. split; reflexivity.
Qed.

(** X7. Two analyses requested one after the other, the answers arriving in
    the opposite order: the analysis on screen, and the blob in storage,
    are those of the ticker asked for first.  If the first request fails
    after the second has succeeded, its error is shown together with the
    analysis of the second. *)
Theorem App_stale_analysis B s t1 t2 resp1 resp2 d1 d2 m :
  App.pending s = [] ->
  ok resp1 = true -> JSON_parse B (body resp1) = Some d1 ->
  ok resp2 = true -> JSON_parse B (body resp2) = Some d2 ->
  json_truthy d1 = true ->
  let s2 := App.run B s [App.Search t1; App.Search t2] in
  let late := App.run B s2 [App.AnalyzeSettled 1 (Http resp2);
                            App.AnalyzeSettled 0 (Http resp1)] in
  let failed := App.run B s2 [App.AnalyzeSettled 1 (Http resp2);
                              App.AnalyzeSettled 0 (NetworkError m)] in
  App.out s2 = App.out s ++ [App.analyze_url t1; App.analyze_url t2] /\
  App.analysis late = d1 /\ App.loading late = false /\
  App.localStorage late !! "lastAnalysis" = Some (JSON_stringify B d1) /\
  App.analysis failed = d2 /\ App.error failed = Some m.
Proof.
  intros Hp Hok1 Hp1 Hok2 Hp2 Ht s2 late failed.
  destruct (App_two_searches B s t1 t2 Hp) as [Hpend Hout]. fold s2 in Hpend, Hout.
  split; [exact Hout|].
  subst late failed. unfold App.run. cbn [foldl].
  generalize dependent s2. intros s2 Hpend _.
  assert (H2 : App.pending s2 !! 1%nat = Some t2) by now rewrite Hpend.
  destruct (settled_with_data B s2 1 t2 resp2 d2 H2 Hok2 Hp2)
    as (Hpend' & Hana' & _).
  set (x := App.step B s2 (App.AnalyzeSettled 1 (Http resp2))) in *.
  clearbody x. rewrite Hpend in Hpend'. simpl in Hpend'.
  assert (H1 : App.pending x !! 0%nat = Some t1) by now rewrite Hpend'.
  destruct (settled_with_data B x 0 t1 resp1 d1 H1 Hok1 Hp1)
    as (_ & Ha & Hl & _ & Hs).
  destruct (settled_with_failure B x 0 t1 m H1) as [Hfa Hfe].
  split; [exact Ha|]. split; [exact Hl|]. split; [exact (Hs Ht)|].
  split; [now rewrite Hfa | exact Hfe].
Qed.

Lemma App_stale_analysis_witness :
  let s2 := App.run test_browser fresh_app [App.Search "AAPL"; App.Search "MSFT"] in
  let late := App.run test_browser s2
                [App.AnalyzeSettled 1 (Http ok_empty_object);
                 App.AnalyzeSettled 0 (Http ok_not_found_object)] in
  let failed := App.run test_browser s2
                  [App.AnalyzeSettled 1 (Http ok_empty_object);
                   App.AnalyzeSettled 0 (NetworkError "Failed to fetch")] in
  App.out s2 = [App.analyze_url "AAPL"; App.analyze_url "MSFT"] /\
  App.analysis late = JObj [("detail", JStr "Ticker not found")] /\
  App.loading late = false /\
  App.localStorage late !! "lastAnalysis" =
    Some (JSON_stringify test_browser (JObj [("detail", JStr "Ticker not found")])) /\
  App.analysis failed = JObj [] /\ App.error failed = Some "Failed to fetch".
Proof.
  apply (App_stale_analysis test_browser fresh_app "AAPL" "MSFT"
           ok_not_found_object ok_empty_object
           (JObj [("detail", JStr "Ticker not found")]) (JObj [])
           "Failed to fetch"); reflexivity.
Defined.

(** ** usePortfolios: deleting and loading *)

(** X8. Once the DELETE request has been answered, with whatever status, no
    entry with that id is left in the local list, and the other entries
    are kept in their order.  A request that could not be made leaves the
    list as it was.  (The list is one without [null] entries, on which
    reading [p.id] would throw.) *)
Theorem deletePortfolio_removes s id reply :
  JNull ∉ usePortfolios.portfolios s ->
  let n := length (usePortfolios.pending s) in
  let s1 := usePortfolios.step s (usePortfolios.DeletePortfolio id) in
  let s2 := usePortfolios.step s1 (usePortfolios.Settle n (usePortfolios.Answer reply)) in
  Forall (fun p => usePortfolios.id_differs id p = true) (usePortfolios.portfolios s2) /\
  usePortfolios.portfolios s2 `sublist_of` usePortfolios.portfolios s /\
  (forall p, p ∈ usePortfolios.portfolios s ->
             usePortfolios.id_differs id p = true ->
             p ∈ usePortfolios.portfolios s2) /\
  usePortfolios.portfolios
    (usePortfolios.step s1 (usePortfolios.Settle n usePortfolios.NetworkFailure)) =
    usePortfolios.portfolios s.
Proof.
  intros _ n s1 s2. subst s2 s1 n.
  rewrite step_DeletePortfolio, !usePortfolios_settle_sent. simpl.
  repeat split.
  - rewrite Forall_forall. intros p Hp. apply list_elem_of_filter in Hp as [Hp _].
    now apply Is_true_true.
  - apply sublist_filter.
  - intros p Hp Hd. apply list_elem_of_filter. split; [|exact Hp].
    now apply Is_true_true.
Qed.

Lemma deletePortfolio_removes_witness :
  let s1 := usePortfolios.step one_portfolio_loaded (usePortfolios.DeletePortfolio "p1") in
  let s2 := usePortfolios.step s1 (usePortfolios.Settle 0 (usePortfolios.Answer None)) in
  Forall (fun p => usePortfolios.id_differs "p1" p = true) (usePortfolios.portfolios s2) /\
  usePortfolios.portfolios s2 `sublist_of` usePortfolios.portfolios one_portfolio_loaded /\
  (forall p, p ∈ usePortfolios.portfolios one_portfolio_loaded ->
             usePortfolios.id_differs "p1" p = true ->
             p ∈ usePortfolios.portfolios s2) /\
  usePortfolios.portfolios
    (usePortfolios.step s1 (usePortfolios.Settle 0 usePortfolios.NetworkFailure)) =
    usePortfolios.portfolios one_portfolio_loaded.
Proof.
  apply (deletePortfolio_removes one_portfolio_loaded "p1" None).
  intros H. apply list_elem_of_singleton in H. discriminate H.
Defined.

(** X9. Loading the list: an array replaces the local list; any other JSON
    value, such as an error object, empties it; a body that is not JSON
    or a request that could not be made leaves it alone.  Every outcome
    ends the loading state. *)
Theorem fetchPortfolios_outcomes s :
  let n := length (usePortfolios.pending s) in
  let s1 := usePortfolios.step s usePortfolios.Refresh in
  let after r := usePortfolios.step s1 (usePortfolios.Settle n r) in
  (forall r, usePortfolios.loading (after r) = false /\
             usePortfolios.out (after r) =
               usePortfolios.out s ++ [usePortfolios.list_request]) /\
  (forall data,
     usePortfolios.portfolios (after (usePortfolios.Answer (Some (JArr data)))) = data) /\
  (forall v,
     (forall data, v <> JArr data) ->
     usePortfolios.portfolios (after (usePortfolios.Answer (Some v))) = []) /\
  usePortfolios.portfolios (after (usePortfolios.Answer None)) =
    usePortfolios.portfolios s /\
  usePortfolios.portfolios (after usePortfolios.NetworkFailure) =
    usePortfolios.portfolios s.
Proof.
  intros n s1 after. subst after s1 n.
  change (usePortfolios.step s usePortfolios.Refresh) with
    (usePortfolios.send usePortfolios.list_request usePortfolios.InFetchPortfolios s).
  repeat split.
  - rewrite usePortfolios_settle_sent. destruct r as [|[[]|]]; reflexivity.
  - rewrite usePortfolios_settle_sent. destruct r as [|[[]|]]; reflexivity.
  - intros data. now rewrite usePortfolios_settle_sent.
  - intros v Hv. rewrite usePortfolios_settle_sent.
    destruct v; try reflexivity. now elim (Hv items).
  - now rewrite usePortfolios_settle_sent.
  - now rewrite usePortfolios_settle_sent.
Qed.

Lemma fetchPortfolios_outcomes_witness :
  let s1 := usePortfolios.step one_portfolio_loaded usePortfolios.Refresh in
  usePortfolios.portfolios one_portfolio_loaded = [tech_portfolio] /\
  usePortfolios.portfolios
    (usePortfolios.step s1
       (usePortfolios.Settle 0
          (usePortfolios.Answer (Some (JObj [("detail", JStr "Not authenticated")]))))) = [].
Proof.
  split; [reflexivity|].
  destruct (fetchPortfolios_outcomes one_portfolio_loaded) as (_ & _ & H & _).
  apply (H (JObj [("detail", JStr "Not authenticated")])).
  discriminate.
Defined.

(** ** ETF selection: no fund twice, and toggling *)

Lemma isSelected_false t s :
  DiscoveryPanel.isSelected t s = false <->
  t ∉ map DiscoveryPanel.ticker (DiscoveryPanel.selectedEtfs s).
Proof.
  unfold DiscoveryPanel.isSelected.
  induction (DiscoveryPanel.selectedEtfs s) as [|e l IH]; simpl.
  - split; [intros _; apply not_elem_of_nil | reflexivity].
  - rewrite not_elem_of_cons, orb_false_iff, IH.
    rewrite bool_decide_eq_false. split; intros [H1 H2]; split; auto.
Qed.

Lemma map_filter_elem {A B} (f : A -> B) (P : A -> bool) (l : list A) y :
  y ∈ map f (filter (fun x => P x) l) -> y ∈ map f l.
Proof.
  induction l as [|x l IH]; simpl; [trivial|].
  rewrite filter_cons. destruct (decide (P x)); simpl.
  - rewrite !elem_of_cons. intros [->|H]; auto.
  - rewrite elem_of_cons. auto.
Qed.

Lemma NoDup_map_filter {A B} (f : A -> B) (P : A -> bool) (l : list A) :
  NoDup (map f l) -> NoDup (map f (filter (fun x => P x) l)).
Proof.
  induction l as [|x l IH]; simpl; [trivial|].
  rewrite NoDup_cons. intros [Hx Hl]. rewrite filter_cons.
  destruct (decide (P x)); simpl; [|now apply IH].
  apply NoDup_cons. split; [|now apply IH].
  intros Hin. apply Hx. now apply map_filter_elem in Hin.
Qed.

Lemma NoDup_map_snoc {A B} (f : A -> B) (l : list A) x :
  NoDup (map f l) -> f x ∉ map f l -> NoDup (map f (l ++ [x])).
Proof.
  intros Hl Hx. rewrite map_app. simpl. apply NoDup_app.
  split; [exact Hl|]. split; [|apply NoDup_singleton].
  intros y Hy Hy'. apply list_elem_of_singleton in Hy'. now subst y.
Qed.

Lemma distinct_step s e :
  distinct_tickers s -> distinct_tickers (DiscoveryPanel.step s e).
Proof.
  intros [Hsel Hpend]. destruct e as [etf|res| | |text|n r|n r]; simpl.
  - unfold DiscoveryPanel.click_card.
    destruct (DiscoveryPanel.isSelected _ s) eqn:E.
    + split; [|exact Hpend]. simpl. now apply NoDup_map_filter.
    + case_bool_decide; [|now split]. split; [|exact Hpend]. simpl.
      apply NoDup_map_snoc; [exact Hsel|]. now apply isSelected_false.
  - unfold DiscoveryPanel.click_result.
    destruct (DiscoveryPanel.isSelected _ s) eqn:E; simpl; [now split|].
    split; [exact Hsel|]. apply Forall_app. split; [exact Hpend|].
    constructor; [|constructor]. split; [exact Hsel|]. now apply isSelected_false.
  - split; [constructor | exact Hpend].
  - unfold DiscoveryPanel.click_compare.
    destruct (DiscoveryPanel.compare_disabled s); now split.
  - unfold DiscoveryPanel.handleSearch. case_bool_decide; simpl; [now split|].
    split; [exact Hsel|]. apply Forall_app. split; [exact Hpend|].
    constructor; [exact I|constructor].
  - destruct (DiscoveryPanel.pending s !! n) as [[|res captured]|]; try now split.
    unfold DiscoveryPanel.handleSearch_resume.
    destruct r; simpl; (split; [exact Hsel | now apply Forall_delete]).
  - destruct (DiscoveryPanel.pending s !! n) as [[|res captured]|] eqn:E;
      try now split.
    assert (Hk : addition_ok (DiscoveryPanel.InAddSearchedEtf res captured)).
    { rewrite Forall_forall in Hpend. apply Hpend.
      apply list_elem_of_lookup. eauto. }
    destruct Hk as [Hc Hres].
    unfold DiscoveryPanel.addSearchedEtf_resume.
    destruct r; case_bool_decide; simpl;
      (split; [|now apply Forall_delete]); try exact Hsel;
      now apply NoDup_map_snoc.
Qed.

(** X10. Whatever is clicked and in whatever order the answers arrive, the
    selection never holds two funds with the same ticker. *)
Theorem selection_has_no_duplicates explorer es :
  NoDup (map DiscoveryPanel.ticker
           (DiscoveryPanel.selectedEtfs
              (DiscoveryPanel.run (DiscoveryPanel.initial explorer) es))).
Proof.
  assert (H : distinct_tickers (DiscoveryPanel.initial explorer))
    by (split; constructor).
  revert H. unfold DiscoveryPanel.run.
  generalize (DiscoveryPanel.initial explorer) as s.
  induction es as [|e es IH]; intros s Hs; [exact (proj1 Hs)|].
  simpl. apply IH. now apply distinct_step.
Qed.

Lemma filter_all {A} (P : A -> bool) (l : list A) :
  (forall x, x ∈ l -> P x = true) -> filter (fun x => P x) l = l.
Proof.
  induction l as [|x l IH]; intros H; [reflexivity|].
  rewrite filter_cons_True by (apply Is_true_true, H; left).
  f_equal. apply IH. intros y Hy. apply H. now right.
Qed.

(** X11. Clicking the card of an unselected fund while there is room, and
    clicking it again, leaves the panel exactly as it was. *)
Theorem click_card_twice s etf :
  (length (DiscoveryPanel.selectedEtfs s) < 3)%nat ->
  DiscoveryPanel.isSelected (DiscoveryPanel.ticker etf) s = false ->
  DiscoveryPanel.step (DiscoveryPanel.step s (DiscoveryPanel.ClickCard etf))
    (DiscoveryPanel.ClickCard etf) = s.
Proof.
  intros Hlen Hsel. simpl. unfold DiscoveryPanel.click_card at 2.
  rewrite Hsel. rewrite bool_decide_eq_true_2 by exact Hlen.
  unfold DiscoveryPanel.click_card.
  assert (Hnow : DiscoveryPanel.isSelected (DiscoveryPanel.ticker etf)
            (DiscoveryPanel.setSelectedEtfs (DiscoveryPanel.selectedEtfs s ++ [etf]) s)
          = true).
  { unfold DiscoveryPanel.isSelected. simpl. rewrite existsb_app. simpl.
    rewrite bool_decide_eq_true_2 by reflexivity. now rewrite orb_true_r. }
  rewrite Hnow. simpl. rewrite filter_app.
  rewrite (filter_all (fun e => negb (bool_decide
             (DiscoveryPanel.ticker e = DiscoveryPanel.ticker etf)))).
  - rewrite filter_cons_False, filter_nil, app_nil_r.
    + now destruct s.
    + simpl. rewrite bool_decide_eq_true_2 by reflexivity. simpl. tauto.
  - intros x Hx. apply negb_true_iff, bool_decide_eq_false. intros Heq.
    apply isSelected_false in Hsel. apply Hsel. rewrite <- Heq.
    apply list_elem_of_In, in_map, list_elem_of_In, Hx.
Qed.

Lemma click_card_twice_witness :
  DiscoveryPanel.step
    (DiscoveryPanel.step (DiscoveryPanel.initial [fund "IWDA"])
       (DiscoveryPanel.ClickCard (fund "IWDA")))
    (DiscoveryPanel.ClickCard (fund "IWDA")) =
  DiscoveryPanel.initial [fund "IWDA"].
Proof.
  apply (click_card_twice (DiscoveryPanel.initial [fund "IWDA"]) (fund "IWDA")).
  - simpl. lia.
  - reflexivity.
Defined.

(** ** The search form and the debounce timer *)

Lemma is_space_upper a : is_space (upper_ascii a) = is_space a.
Proof. destruct a as [[] [] [] [] [] [] [] []]; vm_compute; reflexivity. Qed.

Lemma upper_upper a : upper_ascii (upper_ascii a) = upper_ascii a.
Proof. destruct a as [[] [] [] [] [] [] [] []]; vm_compute; reflexivity. Qed.

Lemma toUpperCase_idem s : toUpperCase (toUpperCase s) = toUpperCase s.
Proof. induction s as [|a r IH]; simpl; [reflexivity|]. now rewrite upper_upper, IH. Qed.

Lemma toUpperCase_length s : String.length (toUpperCase s) = String.length s.
Proof. induction s as [|a r IH]; simpl; [reflexivity|]. now rewrite IH. Qed.

Lemma trim_start_upper s : trim_start (toUpperCase s) = toUpperCase (trim_start s).
Proof.
  induction s as [|a r IH]; simpl; [reflexivity|].
  rewrite is_space_upper. destruct (is_space a); [exact IH | reflexivity].
Qed.

Lemma trim_end_upper s : trim_end (toUpperCase s) = toUpperCase (trim_end s).
Proof.
  induction s as [|a r IH]; simpl; [reflexivity|].
  rewrite IH, is_space_upper.
  destruct (trim_end r); simpl; [destruct (is_space a)|]; reflexivity.
Qed.

Lemma trim_upper s : trim (toUpperCase s) = toUpperCase (trim s).
Proof. unfold trim. now rewrite trim_start_upper, trim_end_upper. Qed.

Lemma trim_end_idem s : trim_end (trim_end s) = trim_end s.
Proof.
  induction s as [|a r IH]; simpl; [reflexivity|].
  destruct (trim_end r) as [|b k] eqn:E.
  - destruct (is_space a) eqn:Ea; simpl; [reflexivity|]. now rewrite Ea.
  - change (trim_end (String a (String b k))) with
      (match trim_end (String b k) with
       | EmptyString => if is_space a then EmptyString else String a EmptyString
       | kept => String a kept
       end).
    now rewrite IH.
Qed.

Lemma trim_start_head s a r :
  trim_start s = String a r -> is_space a = false.
Proof.
  induction s as [|b k IH]; simpl; [discriminate|].
  destruct (is_space b) eqn:E; [exact IH|]. intros [= <- <-]. exact E.
Qed.

Lemma trim_end_head s a r :
  trim_end s = String a r -> exists r', s = String a r'.
Proof.
  destruct s as [|b k]; simpl; [discriminate|].
  destruct (trim_end k); [destruct (is_space b); [discriminate|]|];
    intros [= <- <-]; eauto.
Qed.

Lemma trim_idem s : trim (trim s) = trim s.
Proof.
  unfold trim.
  assert (H : trim_start (trim_end (trim_start s)) = trim_end (trim_start s)).
  { destruct (trim_end (trim_start s)) as [|a r] eqn:E; [reflexivity|].
    destruct (trim_end_head _ _ _ E) as [r' E'].
    simpl. now rewrite (trim_start_head _ _ _ E'). }
  now rewrite H, trim_end_idem.
Qed.

(** X12. A submitted form calls [onSearch] at most once; it does not for a
    blank input, and otherwise passes a ticker that is not empty, has no
    white space around it and no letter a-z in it, is as long as the
    trimmed input, and would be passed on unchanged if submitted itself. *)
Theorem handleSubmit_ticker query :
  ascii_only query = true ->
  (trim query = "" -> SearchBarForm.handleSubmit query = []) /\
  (trim query <> "" ->
   exists t, SearchBarForm.handleSubmit query = [t] /\
     t <> "" /\ trim t = t /\ toUpperCase t = t /\
     String.length t = String.length (trim query) /\
     SearchBarForm.handleSubmit t = [t]).
Proof.
  intros _. unfold SearchBarForm.handleSubmit, nonempty. split.
  - intros H. now rewrite bool_decide_eq_true_2.
  - intros H. rewrite bool_decide_eq_false_2 by exact H. simpl.
    exists (toUpperCase (trim query)).
    assert (Hne : toUpperCase (trim query) <> "").
    { intros E. apply H. apply (f_equal String.length) in E.
      rewrite toUpperCase_length in E. now destruct (trim query). }
    assert (Htrim : trim (toUpperCase (trim query)) = toUpperCase (trim query))
      by now rewrite trim_upper, trim_idem.
    repeat split; auto using toUpperCase_idem, toUpperCase_length.
    rewrite Htrim, bool_decide_eq_false_2 by exact Hne. simpl.
    now rewrite toUpperCase_idem.
Qed.

Lemma handleSubmit_ticker_witness :
  SearchBarForm.handleSubmit "   " = [] /\
  exists t, SearchBarForm.handleSubmit " btc-usd " = [t] /\
    t <> "" /\ trim t = t /\ toUpperCase t = t /\
    String.length t = String.length (trim " btc-usd ") /\
    SearchBarForm.handleSubmit t = [t].
Proof.
  split.
  - apply (proj1 (handleSubmit_ticker "   " eq_refl)). reflexivity.
  - apply (proj2 (handleSubmit_ticker " btc-usd " eq_refl)). discriminate.
Defined.

Lemma long_text_nonempty text : long_text text -> text <> "".
Proof. intros H ->. vm_compute in H. lia. Qed.

Lemma typing_long s text :
  long_text text -> SearchBar.query s <> text ->
  SearchBar.step s (SearchBar.Type_ text) =
  {| SearchBar.query := text; SearchBar.suggestions := SearchBar.suggestions s;
     SearchBar.showDropdown := SearchBar.showDropdown s;
     SearchBar.debounceTimer := Some (trim text);
     SearchBar.pending := SearchBar.pending s; SearchBar.out := SearchBar.out s |}.
Proof.
  intros Hl Hd. simpl. unfold deps_changed.
  rewrite bool_decide_eq_true_2 by exact Hd.
  rewrite SearchBar_query_effect_long by exact Hl. reflexivity.
Qed.

Lemma last_cons_default {A} (ts : list A) : forall t d,
  List.last (t :: ts) d = List.last ts t.
Proof.
  induction ts as [|u us IH]; intros t d; [reflexivity|].
  change (List.last (t :: u :: us) d) with (List.last (u :: us) d).
  rewrite (IH u d). symmetry. apply IH.
Qed.

Lemma typing_burst texts : forall s,
  Forall long_text texts ->
  SearchBar.debounceTimer s = Some (trim (SearchBar.query s)) ->
  let s' := SearchBar.run s (map SearchBar.Type_ texts) in
  SearchBar.debounceTimer s' = Some (trim (SearchBar.query s')) /\
  SearchBar.query s' = List.last texts (SearchBar.query s) /\
  SearchBar.out s' = SearchBar.out s /\ SearchBar.pending s' = SearchBar.pending s.
Proof.
  unfold SearchBar.run.
  induction texts as [|t ts IH]; intros s Hl Ht; [simpl; auto|].
  inversion Hl as [|? ? Hlt Hlts]; subst.
  cbn [map foldl]. rewrite last_cons_default.
  destruct (decide (SearchBar.query s = t)) as [E|E].
  - assert (Hsame : SearchBar.step s (SearchBar.Type_ t) = s).
    { simpl. unfold deps_changed. now rewrite bool_decide_eq_false_2 by tauto. }
    rewrite Hsame. destruct (IH s Hlts Ht) as (H1 & H2 & H3 & H4).
    rewrite E in H2. auto.
  - rewrite typing_long by assumption.
    set (x := {| SearchBar.query := t |}).
    destruct (IH x Hlts eq_refl) as (H1 & H2 & H3 & H4). auto.
Qed.

(** X13. Debounce.  From a state whose input is shorter than two characters
    after trimming, a burst of inputs of two or more characters with no
    timer firing in between sends nothing; when the timer then fires, one
    request goes out, for the trimmed last input, and the timer is off. *)
Theorem debounce_sends_last_only s texts final :
  (String.length (trim (SearchBar.query s)) < 2)%nat ->
  Forall long_text (texts ++ [final]) ->
  let typed := SearchBar.run s (map SearchBar.Type_ (texts ++ [final])) in
  let fired := SearchBar.step typed SearchBar.TimerFires in
  SearchBar.out typed = SearchBar.out s /\
  SearchBar.out fired = SearchBar.out s ++ [SearchBar.Query (trim final)] /\
  SearchBar.debounceTimer fired = None /\
  SearchBar.out (SearchBar.step fired SearchBar.TimerFires) = SearchBar.out fired.
Proof.
  intros Hshort Hl typed fired.
  assert (Htyped : SearchBar.debounceTimer typed = Some (trim final) /\
                   SearchBar.out typed = SearchBar.out s).
  { subst typed fired. destruct texts as [|t ts].
    - simpl in Hl. inversion Hl as [|? ? Hf _]; subst.
      unfold SearchBar.run. cbn [app map foldl].
      rewrite typing_long; [now split| exact Hf |].
      intros E. unfold long_text in Hf. rewrite E in Hshort. lia.
    - inversion Hl as [|? ? Hlt Hlts]; subst.
      unfold SearchBar.run. cbn [app map foldl].
      rewrite typing_long; [| exact Hlt |].
      2:{ intros E. unfold long_text in Hlt. rewrite E in Hshort. lia. }
      set (x := {| SearchBar.query := t |}).
      destruct (typing_burst (ts ++ [final]) x Hlts eq_refl) as (H1 & H2 & H3 & _).
      unfold SearchBar.run in H1, H2, H3. rewrite H1, H2, H3.
      rewrite last_last. now split. }
  destruct Htyped as [Ht Ho]. split; [exact Ho|].
  subst fired. simpl. unfold SearchBar.timer_fires. rewrite Ht. simpl.
  rewrite Ho. repeat split.
Qed.

Lemma debounce_sends_last_only_witness :
  SearchBar.out
    (SearchBar.run (SearchBar.step SearchBar.initial SearchBar.Mount)
       [SearchBar.Type_ "aa"; SearchBar.Type_ "aap"; SearchBar.Type_ "aapl";
        SearchBar.TimerFires]) =
  [SearchBar.Defaults; SearchBar.Defaults; SearchBar.Query "aapl"].
Proof.
  refine (proj1 (proj2 (debounce_sends_last_only
            (SearchBar.step SearchBar.initial SearchBar.Mount)
            ["aa"; "aap"] "aapl" _ _))).
  - vm_compute. lia.
  - repeat constructor; vm_compute; lia.
Defined.

(** X14. The timer is not cancelled when the input becomes short.  After an
    input of two or more characters the field is emptied: the default
    suggestions are requested at once, and when the timer fires the
    request for the abandoned query still goes out, after it. *)
Theorem cleared_input_still_queries s text blank :
  long_text text -> SearchBar.query s <> text -> trim blank = "" ->
  SearchBar.out
    (SearchBar.run s [SearchBar.Type_ text; SearchBar.Type_ blank;
                      SearchBar.TimerFires]) =
  SearchBar.out s ++ [SearchBar.Defaults; SearchBar.Query (trim text)].
Proof.
  intros Hl Hd Hb. unfold SearchBar.run. cbn [foldl].
  rewrite (typing_long s text) by assumption.
  assert (Hne : text <> blank).
  { intros ->. unfold long_text in Hl. rewrite Hb in Hl. simpl in Hl. lia. }
  cbn [SearchBar.step SearchBar.query]. unfold deps_changed.
  rewrite bool_decide_eq_true_2 by exact Hne.
  rewrite SearchBar_query_effect_empty
    by (cbn [SearchBar.query]; now rewrite Hb).
  cbn. now rewrite <- app_assoc.
Qed.

Lemma cleared_input_still_queries_witness :
  SearchBar.out
    (SearchBar.run (SearchBar.step SearchBar.initial SearchBar.Mount)
       [SearchBar.Type_ "aapl"; SearchBar.Type_ ""; SearchBar.TimerFires]) =
  [SearchBar.Defaults; SearchBar.Defaults] ++
  [SearchBar.Defaults; SearchBar.Query (trim "aapl")].
Proof.
  apply (cleared_input_still_queries
           (SearchBar.step SearchBar.initial SearchBar.Mount) "aapl" "").
  - vm_compute. lia.
  - discriminate.
  - reflexivity.
Defined.

(** ** The allocation heatmap *)

Lemma gt0_not_nan x : gt0 x = true -> is_nan x = false.
Proof. now destruct x. Qed.

Lemma sort_by_size (l : list PortfolioHeatmap.Tile) :
  Forall (fun t => gt0 (PortfolioHeatmap.size t) = true) l ->
  Sorted PortfolioHeatmap.size_ge (Array_sort PortfolioHeatmap.by_size l).
Proof.
  apply Array_sort_sorted; intros x y Hx Hy H;
    unfold PortfolioHeatmap.size_ge, PortfolioHeatmap.by_size in *.
  - apply gt0_sub_true; auto using gt0_not_nan.
  - apply gt0_sub_false; auto using gt0_not_nan.
Qed.

Lemma positive_tiles (holdings : list PortfolioHeatmap.Holding) :
  Forall (fun t => gt0 (PortfolioHeatmap.size t) = true)
    (map PortfolioHeatmap.tile
       (List.filter (fun h => gt0 (PortfolioHeatmap.position_value h)) holdings)).
Proof.
  induction holdings as [|h hs IH]; simpl; [constructor|].
  destruct (gt0 (PortfolioHeatmap.position_value h)) eqn:E; [|exact IH].
  simpl. constructor; [exact E | exact IH].
Qed.

Lemma no_positive_value (holdings : list PortfolioHeatmap.Holding) :
  length (List.filter (fun h => gt0 (PortfolioHeatmap.position_value h)) holdings)
    = 0%nat <->
  Forall (fun h => gt0 (PortfolioHeatmap.position_value h) = false) holdings.
Proof.
  induction holdings as [|h hs IH]; simpl.
  - split; [constructor | reflexivity].
  - destruct (gt0 (PortfolioHeatmap.position_value h)) eqn:E; simpl.
    + split; [discriminate|]. intros H. inversion H; congruence.
    + rewrite IH. split; [now constructor | intros H; now inversion H].
Qed.

(** X15. The tiles of the heatmap are the holdings whose position value is
    above zero, each once, the largest first; a holding whose value is
    zero, negative or not a number has no tile; and nothing at all is
    drawn exactly when no holding has a value above zero. *)
Theorem heatmap_tiles (holdings : list PortfolioHeatmap.Holding) :
  let data := PortfolioHeatmap.data holdings in
  Permutation data
    (map PortfolioHeatmap.tile
       (List.filter (fun h => gt0 (PortfolioHeatmap.position_value h)) holdings)) /\
  Sorted PortfolioHeatmap.size_ge data /\
  Forall (fun t => gt0 (PortfolioHeatmap.size t) = true /\
                   PortfolioHeatmap.tile_position_value t = PortfolioHeatmap.size t)
         data /\
  (forall h, PortfolioHeatmap.tile h ∈ data ->
             gt0 (PortfolioHeatmap.position_value h) = true) /\
  (forall h, h ∈ holdings -> gt0 (PortfolioHeatmap.position_value h) = true ->
             PortfolioHeatmap.tile h ∈ data) /\
  (PortfolioHeatmap.render holdings = None <->
   Forall (fun h => gt0 (PortfolioHeatmap.position_value h) = false) holdings) /\
  (PortfolioHeatmap.render holdings <> None ->
   PortfolioHeatmap.render holdings = Some data).
Proof.
  intros data.
  assert (Hperm : Permutation data
            (map PortfolioHeatmap.tile
               (List.filter (fun h => gt0 (PortfolioHeatmap.position_value h))
                  holdings)))
    by apply Array_sort_perm.
  pose proof (positive_tiles holdings) as Hpos.
  split; [exact Hperm|]. split; [apply sort_by_size, Hpos|].
  split; [|split; [|split; [|split]]].
  - rewrite Forall_forall. intros t Ht. rewrite Hperm in Ht.
    apply list_elem_of_In, in_map_iff in Ht. destruct Ht as (h & <- & Hh).
    apply filter_In in Hh. now split.
  - intros h Hh. rewrite Hperm in Hh. rewrite Forall_forall in Hpos.
    apply (Hpos _ Hh).
  - intros h Hh Hv. rewrite Hperm.
    apply list_elem_of_In, in_map, filter_In. split; [|exact Hv].
    now apply list_elem_of_In.
  - unfold PortfolioHeatmap.render. fold data.
    pose proof (no_positive_value holdings) as Hnone.
    rewrite <- (length_map PortfolioHeatmap.tile), <- (Permutation_length Hperm)
      in Hnone.
    destruct (Nat.eqb_spec (length data) 0) as [E|E].
    + split; [intros _; now apply Hnone | reflexivity].
    + split; [discriminate | intros H; now apply Hnone in H].
  - unfold PortfolioHeatmap.render. fold data.
    destruct (Nat.eqb (length data) 0); [congruence | reflexivity].
Qed.

(** ** The chat *)

Lemma chat_resume_shape B r s :
  exists m,
    BrokerChat.role m = BrokerChat.oracle /\
    BrokerChat.handleSend_resume B r s =
    BrokerChat.setLoading false
      (BrokerChat.setMessages (fun prev => prev ++ [m]) s).
Proof.
  unfold BrokerChat.handleSend_resume.
  destruct r as [resp|msg]; [|eexists; split; [|reflexivity]; reflexivity].
  destruct (snd (Response_json B (received resp))) as [data|msg];
    [|eexists; split; [|reflexivity]; reflexivity].
  destruct (get_property B data "response") as [v|msg];
    eexists; (split; [|reflexivity]); reflexivity.
Qed.

Lemma chat_send_accepted s :
  trim (BrokerChat.input s) <> "" -> BrokerChat.loading s = false ->
  BrokerChat.handleSend s =
  BrokerChat.send
    {| BrokerChat.message := BrokerChat.input s;
       BrokerChat.context_ticker := BrokerChat.context_of (BrokerChat.currentTicker s) |}
    (BrokerChat.setLoading true
       (BrokerChat.setMessages
          (fun prev => prev ++ [BrokerChat.says BrokerChat.user (trim (BrokerChat.input s))])
          (BrokerChat.setInput "" s))).
Proof.
  intros Hi Hl. unfold BrokerChat.handleSend, nonempty.
  now rewrite bool_decide_eq_false_2, Hl by exact Hi.
Qed.

Lemma chat_send_refused s :
  trim (BrokerChat.input s) = "" \/ BrokerChat.loading s = true ->
  BrokerChat.handleSend s = s.
Proof.
  unfold BrokerChat.handleSend, nonempty. intros [H|H]; rewrite H.
  - reflexivity.
  - now rewrite orb_true_r.
Qed.

Lemma chat_send_cases s :
  BrokerChat.handleSend s = s \/
  (trim (BrokerChat.input s) <> "" /\ BrokerChat.loading s = false).
Proof.
  destruct (decide (trim (BrokerChat.input s) = "")) as [E|E];
    [left; apply chat_send_refused; now left|].
  destruct (BrokerChat.loading s) eqn:L;
    [left; apply chat_send_refused; now right|]. now right.
Qed.

Lemma one_at_a_time_effect s :
  BrokerChat.one_at_a_time s ->
  BrokerChat.one_at_a_time (BrokerChat.effect_initialMessage s).
Proof.
  unfold BrokerChat.effect_initialMessage.
  destruct (BrokerChat.initialMessage s) as [m|]; [destruct (nonempty m)|];
    intros H; exact H.
Qed.

Lemma one_at_a_time_step B s e :
  BrokerChat.one_at_a_time s -> BrokerChat.one_at_a_time (BrokerChat.step B s e).
Proof.
  intros Hs. destruct e as [ |m c|text| |n r]; simpl.
  - now apply one_at_a_time_effect.
  - destruct (deps_changed _ _); [apply one_at_a_time_effect|]; exact Hs.
  - exact Hs.
  - destruct (chat_send_cases s) as [->|[Hi Hl]]; [exact Hs|].
    rewrite chat_send_accepted by assumption.
    destruct Hs as [[Hl' _]|[_ Hp]]; [congruence|].
    left. simpl. rewrite Hp. eauto.
  - destruct (BrokerChat.pending s !! n) eqn:E; [|exact Hs].
    destruct Hs as [[Hl [q Hp]]|[_ Hp]]; [|now rewrite Hp in E].
    rewrite Hp in E. destruct n as [|n]; [|discriminate].
    destruct (chat_resume_shape B r
      {| BrokerChat.initialMessage := BrokerChat.initialMessage s;
         BrokerChat.currentTicker := BrokerChat.currentTicker s;
         BrokerChat.messages := BrokerChat.messages s;
         BrokerChat.input := BrokerChat.input s;
         BrokerChat.loading := BrokerChat.loading s;
         BrokerChat.pending := delete 0%nat (BrokerChat.pending s);
         BrokerChat.out := BrokerChat.out s |}) as (m & _ & ->).
    right. simpl. now rewrite Hp.
Qed.

Lemma nonblank_step B s e :
  Forall (fun r => trim (BrokerChat.message r) <> "") (BrokerChat.out s) ->
  Forall (fun r => trim (BrokerChat.message r) <> "")
    (BrokerChat.out (BrokerChat.step B s e)).
Proof.
  intros Hs. destruct e as [ |m c|text| |n r]; simpl.
  - unfold BrokerChat.effect_initialMessage.
    destruct (BrokerChat.initialMessage s) as [m|]; [destruct (nonempty m)|];
      exact Hs.
  - unfold BrokerChat.effect_initialMessage. simpl.
    destruct (deps_changed _ _); [|exact Hs].
    destruct m as [m|]; [destruct (nonempty m)|]; exact Hs.
  - exact Hs.
  - destruct (chat_send_cases s) as [->|[Hi Hl]]; [exact Hs|].
    rewrite chat_send_accepted by assumption. simpl.
    apply Forall_app. split; [exact Hs|]. now repeat constructor.
  - destruct (BrokerChat.pending s !! n) eqn:E; [|exact Hs].
    match goal with |- context [BrokerChat.handleSend_resume B r ?x] =>
      destruct (chat_resume_shape B r x) as (m & _ & ->) end.
    exact Hs.
Qed.

(** X16. Whatever is typed and clicked, however the props change and whenever
    the answers arrive: at most one request is under way, [loading] is set
    exactly while it is, and no request carries a blank message. *)
Theorem chat_one_request_under_way B m c es :
  let s := BrokerChat.run B (BrokerChat.initial m c) es in
  BrokerChat.one_at_a_time s /\
  (length (BrokerChat.pending s) <= 1)%nat /\
  Forall (fun r => trim (BrokerChat.message r) <> "") (BrokerChat.out s).
Proof.
  intros s.
  assert (H : BrokerChat.one_at_a_time s /\
              Forall (fun r => trim (BrokerChat.message r) <> "") (BrokerChat.out s)).
  { subst s. unfold BrokerChat.run.
    assert (H0 : BrokerChat.one_at_a_time (BrokerChat.initial m c) /\
                 Forall (fun r => trim (BrokerChat.message r) <> "")
                   (BrokerChat.out (BrokerChat.initial m c)))
      by (split; [right; split; reflexivity | constructor]).
    revert H0. generalize (BrokerChat.initial m c) as s.
    induction es as [|e es IH]; intros s Hs; [exact Hs|].
    simpl. apply IH. destruct Hs as [H1 H2].
    split; [now apply one_at_a_time_step | now apply nonblank_step]. }
  destruct H as [H1 H2]. split; [exact H1|]. split; [|exact H2].
  destruct H1 as [[_ [r ->]]|[_ ->]]; simpl; lia.
Qed.

Lemma said_by_snoc who ms m :
  BrokerChat.said_by who (ms ++ [m]) =
  BrokerChat.said_by who ms ++
  (if bool_decide (BrokerChat.role m = who) then [BrokerChat.content m] else []).
Proof.
  unfold BrokerChat.said_by. rewrite List.filter_app, map_app. simpl.
  now destruct (bool_decide (BrokerChat.role m = who)).
Qed.

Lemma turns_answer n r :
  BrokerChat.turns n [r] ++ [BrokerChat.oracle] = BrokerChat.turns (S n) [].
Proof.
  unfold BrokerChat.turns. simpl. rewrite app_nil_r. f_equal.
  rewrite <- app_assoc. simpl.
  induction n as [|n IH]; simpl; [reflexivity|]. now rewrite IH.
Qed.

Lemma turns_ask n r :
  BrokerChat.turns n [] ++ [BrokerChat.user] = BrokerChat.turns n [r].
Proof. unfold BrokerChat.turns. simpl. now rewrite app_nil_r. Qed.

Lemma transcript_step B s e :
  BrokerChat.chatting e ->
  BrokerChat.one_at_a_time s ->
  BrokerChat.said_by BrokerChat.user (BrokerChat.messages s) =
    map BrokerChat.shown (BrokerChat.out s) ->
  map BrokerChat.role (BrokerChat.messages s) =
    BrokerChat.turns (length (BrokerChat.out s) - length (BrokerChat.pending s))
      (BrokerChat.pending s) ->
  (length (BrokerChat.pending s) <= length (BrokerChat.out s))%nat ->
  let s' := BrokerChat.step B s e in
  BrokerChat.said_by BrokerChat.user (BrokerChat.messages s') =
    map BrokerChat.shown (BrokerChat.out s') /\
  map BrokerChat.role (BrokerChat.messages s') =
    BrokerChat.turns (length (BrokerChat.out s') - length (BrokerChat.pending s'))
      (BrokerChat.pending s') /\
  (length (BrokerChat.pending s') <= length (BrokerChat.out s'))%nat.
Proof.
  intros He Hone Hsaid Hroles Hlen.
  destruct e as [ |m c|text| |n r]; simpl in He; try contradiction; simpl.
  - auto.
  - destruct (chat_send_cases s) as [->|[Hi Hl]]; [auto|].
    rewrite chat_send_accepted by assumption.
    destruct Hone as [[Hl' _]|[_ Hp]]; [congruence|]. simpl.
    rewrite Hp in *. simpl in *.
    rewrite said_by_snoc, Hsaid, !map_app, Hroles, !length_app. simpl.
    replace (length (BrokerChat.out s) + 1 - 1)%nat
      with (length (BrokerChat.out s) - 0)%nat by lia.
    split; [reflexivity|]. split; [apply turns_ask | lia].
  - destruct (BrokerChat.pending s !! n) eqn:E; [|auto].
    destruct Hone as [[Hl [q Hp]]|[_ Hp]]; [|now rewrite Hp in E].
    rewrite Hp in E. destruct n as [|n]; [|discriminate].
    match goal with |- context [BrokerChat.handleSend_resume B r ?x] =>
      destruct (chat_resume_shape B r x) as (m & Hm & ->) end.
    simpl. rewrite Hp in *. simpl in *.
    rewrite said_by_snoc, Hm, Hsaid, !map_app, Hroles. simpl. rewrite Hm.
    rewrite app_nil_r. split; [reflexivity|]. split; [|lia].
    replace (length (BrokerChat.out s) - 0)%nat
      with (S (length (BrokerChat.out s) - 1)) by lia.
    rewrite <- (turns_answer _ q). reflexivity.
Qed.

(** Typing, sending and answers leave the props alone. *)
Lemma chatting_keeps_ticker B s e :
  BrokerChat.chatting e ->
  BrokerChat.currentTicker (BrokerChat.step B s e) = BrokerChat.currentTicker s.
Proof.
  intros He. destruct e as [ |m c|text| |n r]; simpl in He; try contradiction; simpl.
  - reflexivity.
  - destruct (chat_send_cases s) as [->|[Hi Hl]]; [reflexivity|].
    now rewrite chat_send_accepted by assumption.
  - destruct (BrokerChat.pending s !! n) eqn:E; [|reflexivity].
    match goal with |- context [BrokerChat.handleSend_resume B r ?x] =>
      destruct (chat_resume_shape B r x) as (m & _ & ->) end.
    reflexivity.
Qed.

Lemma chatting_run_keeps_ticker B es : forall s,
  Forall BrokerChat.chatting es ->
  BrokerChat.currentTicker (BrokerChat.run B s es) = BrokerChat.currentTicker s.
Proof.
  unfold BrokerChat.run. induction es as [|e es IH]; intros s Hes; [reflexivity|].
  inversion Hes as [|? ? He Hes']; subst. simpl.
  rewrite IH by exact Hes'. now apply chatting_keeps_ticker.
Qed.

Lemma mount_keeps_ticker B m c :
  BrokerChat.currentTicker
    (BrokerChat.step B (BrokerChat.initial m c) BrokerChat.Mount) = c.
Proof.
  simpl. unfold BrokerChat.effect_initialMessage. simpl.
  destruct m as [m|]; [destruct (nonempty m)|]; reflexivity.
Qed.

(** A text typed and sent while no request is under way. *)
Lemma typed_and_sent B s text :
  trim text <> "" -> BrokerChat.loading s = false ->
  let s' := BrokerChat.run B s [BrokerChat.Type_ text; BrokerChat.Send] in
  BrokerChat.out s' =
    BrokerChat.out s ++
    [{| BrokerChat.message := text;
        BrokerChat.context_ticker :=
          BrokerChat.context_of (BrokerChat.currentTicker s) |}] /\
  BrokerChat.messages s' =
    BrokerChat.messages s ++ [BrokerChat.says BrokerChat.user (trim text)] /\
  BrokerChat.input s' = "" /\ BrokerChat.loading s' = true.
Proof.
  intros Ht Hl. simpl. rewrite chat_send_accepted by assumption.
  repeat split.
Qed.

(** A blank text, or a text sent while a request is under way, stays in
    the field and nothing else happens. *)
Lemma typed_and_refused B s text :
  trim text = "" \/ BrokerChat.loading s = true ->
  BrokerChat.run B s [BrokerChat.Type_ text; BrokerChat.Send] =
  BrokerChat.step B s (BrokerChat.Type_ text).
Proof. intros H. simpl. now apply chat_send_refused. Qed.

(** Only [Send] posts a request. *)
Lemma out_only_by_send B s e :
  e <> BrokerChat.Send ->
  BrokerChat.out (BrokerChat.step B s e) = BrokerChat.out s.
Proof.
  intros He. destruct e as [ |m c|text| |n r]; simpl.
  - unfold BrokerChat.effect_initialMessage.
    destruct (BrokerChat.initialMessage s) as [m|]; [destruct (nonempty m)|];
      reflexivity.
  - unfold BrokerChat.effect_initialMessage. simpl.
    destruct (deps_changed _ _); [|reflexivity].
    destruct m as [m|]; [destruct (nonempty m)|]; reflexivity.
  - reflexivity.
  - now elim He.
  - destruct (BrokerChat.pending s !! n) eqn:E; [|reflexivity].
    match goal with |- context [BrokerChat.handleSend_resume B r ?x] =>
      destruct (chat_resume_shape B r x) as (m & _ & ->) end.
    reflexivity.
Qed.

(** X17. From the mounted chat, under fixed props: the bubbles open with the
    oracle's greeting and then alternate, one of the user for every
    request sent and one of the oracle for every request answered or
    failed; and the user's bubbles show, in order, the trimmed messages
    of the requests, which carry the input as typed.  That is: a text
    typed and sent while no request is under way is posted as it was
    typed, with the ticker of the props, shown trimmed in a new bubble
    of the user, and the field is emptied; a blank text, or one sent
    while a request is under way, posts nothing and changes nothing; and
    nothing but sending posts a request. *)
Theorem chat_transcript B m c es :
  Forall BrokerChat.chatting es ->
  let s := BrokerChat.run B (BrokerChat.step B (BrokerChat.initial m c) BrokerChat.Mount) es in
  BrokerChat.said_by BrokerChat.user (BrokerChat.messages s) =
    map BrokerChat.shown (BrokerChat.out s) /\
  map BrokerChat.role (BrokerChat.messages s) =
    BrokerChat.turns (length (BrokerChat.out s) - length (BrokerChat.pending s))
      (BrokerChat.pending s) /\
  length (BrokerChat.messages s) =
    (1 + 2 * length (BrokerChat.out s) - length (BrokerChat.pending s))%nat /\
  (forall text,
     trim text <> "" -> BrokerChat.loading s = false ->
     let s' := BrokerChat.run B s [BrokerChat.Type_ text; BrokerChat.Send] in
     BrokerChat.out s' =
       BrokerChat.out s ++
       [{| BrokerChat.message := text;
           BrokerChat.context_ticker := BrokerChat.context_of c |}] /\
     BrokerChat.messages s' =
       BrokerChat.messages s ++ [BrokerChat.says BrokerChat.user (trim text)] /\
     BrokerChat.input s' = "" /\ BrokerChat.loading s' = true) /\
  (forall text,
     trim text = "" \/ BrokerChat.loading s = true ->
     BrokerChat.run B s [BrokerChat.Type_ text; BrokerChat.Send] =
     BrokerChat.step B s (BrokerChat.Type_ text)) /\
  (forall e,
     e <> BrokerChat.Send ->
     BrokerChat.out (BrokerChat.step B s e) = BrokerChat.out s).
Proof.
  intros Hes s.
  set (s0 := BrokerChat.step B (BrokerChat.initial m c) BrokerChat.Mount) in *.
  assert (H0 : BrokerChat.one_at_a_time s0 /\
    BrokerChat.said_by BrokerChat.user (BrokerChat.messages s0) =
      map BrokerChat.shown (BrokerChat.out s0) /\
    map BrokerChat.role (BrokerChat.messages s0) =
      BrokerChat.turns (length (BrokerChat.out s0) - length (BrokerChat.pending s0))
        (BrokerChat.pending s0) /\
    (length (BrokerChat.pending s0) <= length (BrokerChat.out s0))%nat).
  { subst s0. simpl. unfold BrokerChat.effect_initialMessage. simpl.
    destruct m as [m|]; [destruct (nonempty m)|];
      (split; [right; split; reflexivity|]); repeat split; simpl; lia. }
  assert (Hc : BrokerChat.currentTicker s = c).
  { subst s. rewrite chatting_run_keeps_ticker by exact Hes.
    apply mount_keeps_ticker. }
  assert (H : BrokerChat.one_at_a_time s /\
    BrokerChat.said_by BrokerChat.user (BrokerChat.messages s) =
      map BrokerChat.shown (BrokerChat.out s) /\
    map BrokerChat.role (BrokerChat.messages s) =
      BrokerChat.turns (length (BrokerChat.out s) - length (BrokerChat.pending s))
        (BrokerChat.pending s) /\
    (length (BrokerChat.pending s) <= length (BrokerChat.out s))%nat).
  { clear Hc. subst s. unfold BrokerChat.run. clearbody s0. revert s0 H0.
    induction Hes as [|e es He Hes IH]; intros s0 H0; [exact H0|].
    simpl. apply IH. destruct H0 as (H1 & H2 & H3 & H4).
    split; [now apply one_at_a_time_step|]. now apply transcript_step. }
  destruct H as (H1 & H2 & H3 & H4). split; [exact H2|]. split; [exact H3|].
  split; [|split; [|split]].
  - apply (f_equal (@length _)) in H3. rewrite length_map in H3. rewrite H3.
    unfold BrokerChat.turns. simpl. rewrite length_app, length_map.
    assert (Hn : forall n, length (concat (replicate n [BrokerChat.user; BrokerChat.oracle]))
                           = (2 * n)%nat).
    { induction n as [|n IHn]; simpl; [reflexivity|]. rewrite IHn. lia. }
    rewrite Hn. lia.
  - intros text Ht Hl. rewrite <- Hc. now apply typed_and_sent.
  - intros text. apply typed_and_refused.
  - intros e. apply out_only_by_send.
Qed.

Lemma chat_transcript_witness :
  let s := BrokerChat.run test_browser
             (BrokerChat.step test_browser
                (BrokerChat.initial None (BrokerChat.Single "AAPL")) BrokerChat.Mount)
             [BrokerChat.Type_ " buy? "; BrokerChat.Send;
              BrokerChat.Type_ "again"; BrokerChat.Send;
              BrokerChat.Settle 0 (NetworkError "offline")] in
  (BrokerChat.said_by BrokerChat.user (BrokerChat.messages s) =
     map BrokerChat.shown (BrokerChat.out s) /\
   map BrokerChat.role (BrokerChat.messages s) =
     BrokerChat.turns (length (BrokerChat.out s) - length (BrokerChat.pending s))
       (BrokerChat.pending s) /\
   length (BrokerChat.messages s) =
     (1 + 2 * length (BrokerChat.out s) - length (BrokerChat.pending s))%nat) /\
  (let s' := BrokerChat.run test_browser s
               [BrokerChat.Type_ " sell? "; BrokerChat.Send] in
   BrokerChat.out s' =
     BrokerChat.out s ++
     [{| BrokerChat.message := " sell? ";
         BrokerChat.context_ticker := Some "AAPL" |}] /\
   BrokerChat.messages s' =
     BrokerChat.messages s ++ [BrokerChat.says BrokerChat.user "sell?"]) /\
  BrokerChat.run test_browser s [BrokerChat.Type_ "   "; BrokerChat.Send] =
    BrokerChat.step test_browser s (BrokerChat.Type_ "   ").
Proof.
  intros s.
  destruct (chat_transcript test_browser None (BrokerChat.Single "AAPL")
              [BrokerChat.Type_ " buy? "; BrokerChat.Send;
               BrokerChat.Type_ "again"; BrokerChat.Send;
               BrokerChat.Settle 0 (NetworkError "offline")])
    as (H1 & H2 & H3 & H4 & H5 & _).
  - repeat constructor.
  - fold s in H1, H2, H3, H4, H5. split; [auto|]. split.
    + destruct (H4 " sell? ") as (Ho & Hm & _); [discriminate | reflexivity |].
      split; [exact Ho | exact Hm].
    + apply H5. left. reflexivity.
Defined.
(** ** Rendering the sentiment heatmap again *)

Lemma Array_sort_of_sorted {A} (cmp : A -> A -> number) (R : A -> A -> Prop)
    (l : list A) :
  (forall x y, R x y -> gt0 (cmp x y) = false) ->
  Sorted R l -> Array_sort cmp l = l.
Proof.
  intros Hcmp. induction 1 as [|x l Hs IH Hhd]; [reflexivity|].
  simpl. fold (Array_sort cmp l). rewrite IH.
  destruct Hhd as [|y l' Hxy]; simpl; [reflexivity|].
  now rewrite (Hcmp x y Hxy).
Qed.

Lemma strength_ge_keeps a b :
  MarketSentiment.strength_ge a b -> gt0 (MarketSentiment.by_strength a b) = false.
Proof.
  unfold MarketSentiment.strength_ge, MarketSentiment.by_strength.
  destruct (MarketSentiment.strength a) as [p| | |],
           (MarketSentiment.strength b) as [q| | |]; simpl; try tauto.
  intros Hle. unfold gt0. simpl.
  destruct (Qc_sign (q + - p)) eqn:E; try reflexivity.
  apply Qc_sign_Pos in E. apply Qclt_minus_iff in E.
  exfalso. now apply (Qclt_not_le _ _ E).
Qed.

Lemma drawn_render_items items h h' cards :
  MarketSentiment.render_items items h = (cards, h') ->
  (forall i l, i ∈ items -> MarketSentiment.hot_stocks i = Some l -> is_Some (h !! l)) ->
  map (fun c => (MarketSentiment.item c,
                 default [] (h' !! MarketSentiment.sortedStocks c))) cards =
  map (fun i => (i, Array_sort MarketSentiment.by_change
                      (match MarketSentiment.hot_stocks i with
                       | Some l0 => default [] (h !! l0)
                       | None => []
                       end))) items.
Proof.
  intros Hr Hrefs.
  destruct (render_items_cards _ _ _ _ Hr Hrefs) as [Hmap Hall].
  rewrite <- Hmap, map_map. apply map_ext_in. intros c Hc.
  rewrite Forall_forall in Hall. apply list_elem_of_In in Hc.
  now rewrite (Hall c Hc).
Qed.

(** X18. A second render of the heatmap shows what the first one showed: the
    same sectors in the same order with the same stocks in the same
    order, and the state array, sorted in place by the first render, is
    left as it is. *)
Theorem render_again_shows_the_same s :
  MarketSentiment.well_formed s ->
  let first := MarketSentiment.render s in
  let second := MarketSentiment.render (snd first) in
  drawn second = drawn first /\
  MarketSentiment.heatmap (snd second) = MarketSentiment.heatmap (snd first).
Proof.
  intros (Hstr & Hchg & Hrefs) first second.
  subst first second. unfold MarketSentiment.render.
  set (sorted := Array_sort MarketSentiment.by_strength (MarketSentiment.heatmap s)).
  assert (Hperm : Permutation sorted (MarketSentiment.heatmap s))
    by apply Array_sort_perm.
  assert (Hsorted : Sorted MarketSentiment.strength_ge sorted).
  { apply sort_by_strength. rewrite Forall_forall. intros i Hi. now apply Hstr. }
  destruct (MarketSentiment.render_items sorted (MarketSentiment.arrays s))
    as [cs h] eqn:H1.
  cbn [snd MarketSentiment.heatmap MarketSentiment.arrays].
  rewrite (Array_sort_of_sorted _ _ sorted strength_ge_keeps Hsorted).
  destruct (MarketSentiment.render_items sorted h) as [cs2 h2] eqn:H2.
  split; [|reflexivity]. unfold drawn.
  cbn [fst snd MarketSentiment.arrays].
  assert (Hrefs1 : forall i l, i ∈ sorted ->
            MarketSentiment.hot_stocks i = Some l ->
            is_Some (MarketSentiment.arrays s !! l)).
  { intros i l Hi. apply Hrefs. now rewrite <- Hperm. }
  pose proof (render_items_frame _ _ _ _ H1) as Hframe.
  rewrite (drawn_render_items _ _ _ _ H1 Hrefs1).
  rewrite (drawn_render_items _ _ _ _ H2).
  - apply map_ext_in. intros i Hi. apply list_elem_of_In in Hi.
    destruct (MarketSentiment.hot_stocks i) as [l|] eqn:E; [|reflexivity].
    destruct (Hrefs1 i l Hi E) as [xs Hxs].
    now rewrite (Hframe l xs Hxs), Hxs.
  - intros i l Hi E. destruct (Hrefs1 i l Hi E) as [xs Hxs].
    exists xs. now apply Hframe.
Qed.

Lemma render_again_shows_the_same_witness :
  let first := MarketSentiment.render sample_heatmap in
  let second := MarketSentiment.render (snd first) in
  drawn second = drawn first /\
  MarketSentiment.heatmap (snd second) = MarketSentiment.heatmap (snd first).
Proof.
  apply (render_again_shows_the_same sample_heatmap).
  exact sample_heatmap_well_formed.
Defined.

(** ** The panels of a portfolio *)

(** X19. A panel that is never given a portfolio id stays exactly as it was
    created: it requests nothing and [loading] remains set, so that the
    risk matrix and the suggestions draw nothing and the dividend
    dashboard keeps its placeholder. *)
Theorem panel_without_portfolio_keeps_loading B p es :
  Forall PortfolioPanels.no_portfolio es ->
  PortfolioPanels.run B (PortfolioPanels.initial p "") es =
  PortfolioPanels.initial p "".
Proof.
  unfold PortfolioPanels.run. induction 1 as [|e es He Hes IH]; [reflexivity|].
  simpl. replace (PortfolioPanels.step B (PortfolioPanels.initial p "") e)
    with (PortfolioPanels.initial p ""); [exact IH|].
  destruct e as [ |pid|n r]; simpl in *; [reflexivity|now subst pid|reflexivity].
Qed.

Lemma panel_without_portfolio_keeps_loading_witness :
  PortfolioPanels.run test_browser
    (PortfolioPanels.initial PortfolioPanels.DividendDashboard "")
    [PortfolioPanels.Mount; PortfolioPanels.SetProps "";
     PortfolioPanels.Settle 0 (NetworkError "offline")] =
  PortfolioPanels.initial PortfolioPanels.DividendDashboard "".
Proof.
  apply (panel_without_portfolio_keeps_loading test_browser
           PortfolioPanels.DividendDashboard).
  repeat constructor.
Defined.

Lemma panel_effect_fetches s :
  PortfolioPanels.portfolioId s <> "" ->
  PortfolioPanels.effect s = PortfolioPanels.fetchData s.
Proof.
  intros H. unfold PortfolioPanels.effect, nonempty.
  now rewrite bool_decide_eq_false_2 by exact H.
Qed.

(** X20. The panel of portfolio [a] is given portfolio [b] before the answer
    for [a] has arrived.  When it arrives, whatever its status, what it
    parses to is stored and [loading] is cleared while the request for
    [b] is still under way: the panel now shows [a]'s data under [b].
    If the request for [b] then fails, that remains so. *)
Theorem panel_shows_previous_portfolio B p a b resp d m :
  a <> "" -> b <> "" -> a <> b ->
  JSON_parse B (body resp) = Some d ->
  let s := PortfolioPanels.run B (PortfolioPanels.initial p a)
             [PortfolioPanels.Mount; PortfolioPanels.SetProps b;
              PortfolioPanels.Settle 0 (Http resp)] in
  let s' := PortfolioPanels.step B s (PortfolioPanels.Settle 0 (NetworkError m)) in
  PortfolioPanels.out s = [PortfolioPanels.url p a; PortfolioPanels.url p b] /\
  PortfolioPanels.pending s = [PortfolioPanels.url p b] /\
  PortfolioPanels.portfolioId s = b /\
  PortfolioPanels.data s = d /\ PortfolioPanels.loading s = false /\
  PortfolioPanels.pending s' = [] /\
  PortfolioPanels.portfolioId s' = b /\
  PortfolioPanels.data s' = d /\ PortfolioPanels.loading s' = false.
Proof.
  intros Ha Hb Hab Hd s s'. subst s' s. unfold PortfolioPanels.run.
  cbn [foldl]. cbn [PortfolioPanels.step].
  rewrite (panel_effect_fetches (PortfolioPanels.initial p a)) by exact Ha.
  unfold deps_changed. cbn [PortfolioPanels.fetchData PortfolioPanels.portfolioId
    PortfolioPanels.initial PortfolioPanels.panel PortfolioPanels.pending
    PortfolioPanels.out PortfolioPanels.data PortfolioPanels.loading].
  rewrite bool_decide_eq_true_2 by exact Hab.
  rewrite panel_effect_fetches by exact Hb.
  cbn. unfold PortfolioPanels.fetchData_resume, Response_json, received.
  cbn. rewrite Hd. cbn. repeat split.
Qed.

Lemma panel_shows_previous_portfolio_witness :
  let d := JObj [("detail", JStr "Ticker not found")] in
  let s := PortfolioPanels.run test_browser
             (PortfolioPanels.initial PortfolioPanels.AssetSuggestions "p1")
             [PortfolioPanels.Mount; PortfolioPanels.SetProps "p2";
              PortfolioPanels.Settle 0 (Http error_404_json)] in
  let s' := PortfolioPanels.step test_browser s
              (PortfolioPanels.Settle 0 (NetworkError "offline")) in
  PortfolioPanels.out s =
    [PortfolioPanels.url PortfolioPanels.AssetSuggestions "p1";
     PortfolioPanels.url PortfolioPanels.AssetSuggestions "p2"] /\
  PortfolioPanels.pending s =
    [PortfolioPanels.url PortfolioPanels.AssetSuggestions "p2"] /\
  PortfolioPanels.portfolioId s = "p2" /\
  PortfolioPanels.data s = d /\ PortfolioPanels.loading s = false /\
  PortfolioPanels.pending s' = [] /\
  PortfolioPanels.portfolioId s' = "p2" /\
  PortfolioPanels.data s' = d /\ PortfolioPanels.loading s' = false.
Proof.
  apply (panel_shows_previous_portfolio test_browser
           PortfolioPanels.AssetSuggestions "p1" "p2" error_404_json
           (JObj [("detail", JStr "Ticker not found")]) "offline").
  - discriminate.
  - discriminate.
  - discriminate.
  - reflexivity.
Defined.

(** ** The modal: the effect overwrites what was typed *)

Lemma modal_effect_idem toFixed s :
  HoldingModal.effect toFixed (HoldingModal.effect toFixed s) =
  HoldingModal.effect toFixed s.
Proof.
  unfold HoldingModal.effect, HoldingModal.with_form, HoldingModal.display_price.
  simpl. f_equal. f_equal.
  - now destruct (nonempty (HoldingModal.initialTicker s)).
  - destruct (HoldingModal.portfolios s) as [|first rest]; [reflexivity|].
    destruct (nonempty (AddHoldingModal.selectedPortfolioId (HoldingModal.form s)))
      eqn:E; simpl; [now rewrite E|].
    destruct (nonempty first) eqn:E'; simpl; [reflexivity|].
    reflexivity.
Qed.

Lemma modal_run_effect toFixed s :
  HoldingModal.run_effect toFixed s = HoldingModal.effect toFixed s.
Proof.
  unfold HoldingModal.run_effect.
  destruct (deps_changed _ _); [apply modal_effect_idem | reflexivity].
Qed.

Lemma modal_step_effect toFixed s e :
  HoldingModal.reruns_effect s e ->
  exists s0,
    HoldingModal.step toFixed s e = HoldingModal.effect toFixed s0 /\
    AddHoldingModal.shares (HoldingModal.form s0) =
      AddHoldingModal.shares (HoldingModal.form s) /\
    (forall id, e = HoldingModal.Input (AddHoldingModal.SelectPortfolio id) ->
       AddHoldingModal.selectedPortfolioId (HoldingModal.form s0) = id /\
       HoldingModal.portfolios s0 = HoldingModal.portfolios s).
Proof.
  intros He. destruct e as [ |ev|ids|t p|ctx]; simpl in *.
  - exists s. rewrite modal_run_effect. repeat split; discriminate.
  - destruct ev as [v|v|v|id]; try contradiction.
    unfold deps_changed. simpl.
    rewrite bool_decide_eq_true_2 by (intros E; now apply He).
    rewrite modal_run_effect. eexists. split; [reflexivity|].
    split; [reflexivity|]. intros id' [= <-]. split; reflexivity.
  - rewrite modal_run_effect. eexists. split; [reflexivity|].
    split; [reflexivity|]. discriminate.
  - unfold deps_changed. rewrite bool_decide_eq_true_2 by exact He.
    rewrite modal_run_effect. eexists. split; [reflexivity|].
    split; [reflexivity|]. discriminate.
  - unfold deps_changed. rewrite bool_decide_eq_true_2 by exact He.
    rewrite modal_run_effect. eexists. split; [reflexivity|].
    split; [reflexivity|]. discriminate.
Qed.

(** X21. Whenever the effect runs (on mount, when the parent passes a new
    list of portfolios, a new initial ticker or price, when the currency
    changes, and when another portfolio is picked in the form) the price
    field is overwritten with the initial price, or emptied when there is
    none, and the ticker field with the initial ticker when there is one;
    the number of shares is kept.  With no initial price, the holding
    added next without touching the price field again has no buy price,
    whatever had been typed before. *)
Theorem modal_effect_overwrites_fields toFixed s e :
  HoldingModal.reruns_effect s e ->
  let s' := HoldingModal.step toFixed s e in
  AddHoldingModal.buyPrice (HoldingModal.form s') =
    HoldingModal.display_price toFixed s' /\
  (HoldingModal.initialTicker s' <> "" ->
   AddHoldingModal.ticker (HoldingModal.form s') = HoldingModal.initialTicker s') /\
  AddHoldingModal.shares (HoldingModal.form s') =
    AddHoldingModal.shares (HoldingModal.form s) /\
  (forall id, e = HoldingModal.Input (AddHoldingModal.SelectPortfolio id) ->
     id <> "" -> AddHoldingModal.selectedPortfolioId (HoldingModal.form s') = id) /\
  (HoldingModal.initialPrice s' = None ->
   forall pid h, AddHoldingModal.onAdd pid h ∈ HoldingModal.handleAdd s' ->
                 usePortfolios.buyPrice h = None).
Proof.
  intros He s'. subst s'.
  destruct (modal_step_effect toFixed s e He) as (s0 & -> & Hsh & Hsel).
  split; [reflexivity|]. split; [|split; [exact Hsh|split]].
  - intros Hne. simpl in *. unfold nonempty.
    now rewrite bool_decide_eq_false_2 by exact Hne.
  - intros id Hid Hne. destruct (Hsel id Hid) as [Hs0 _]. simpl.
    rewrite Hs0. unfold nonempty. rewrite bool_decide_eq_false_2 by exact Hne.
    simpl. now destruct (HoldingModal.portfolios s0).
  - intros Hnone pid h Hin.
    unfold HoldingModal.handleAdd, AddHoldingModal.handleAdd in Hin.
    simpl in Hnone. cbn [HoldingModal.form HoldingModal.effect HoldingModal.with_form
      AddHoldingModal.buyPrice] in Hin.
    unfold HoldingModal.display_price in Hin. rewrite Hnone in Hin.
    change (nonempty "") with false in Hin. cbv iota in Hin.
    destruct (_ || _) in Hin; [now apply elem_of_nil in Hin|].
    apply elem_of_cons in Hin as [[= _ ->]|Hin]; [reflexivity|].
    apply list_elem_of_singleton in Hin. discriminate Hin.
Qed.

Lemma modal_effect_overwrites_fields_witness :
  let toFixed := fun (_ : number) (_ : nat) => "0.00" in
  let s := HoldingModal.run toFixed
             (HoldingModal.initial ["p1"; "p2"] "" None (CurrencyContext.initial ∅))
             [HoldingModal.Mount;
              HoldingModal.Input (AddHoldingModal.TypeTicker "aapl");
              HoldingModal.Input (AddHoldingModal.TypeBuyPrice "150")] in
  let s' := HoldingModal.step toFixed s
              (HoldingModal.Input (AddHoldingModal.SelectPortfolio "p2")) in
  AddHoldingModal.buyPrice (HoldingModal.form s) = "150" /\
  AddHoldingModal.buyPrice (HoldingModal.form s') = "" /\
  HoldingModal.handleAdd s' =
    [AddHoldingModal.onAdd "p2"
       {| usePortfolios.ticker := "AAPL"; usePortfolios.shares := parseFloat "1";
          usePortfolios.buyPrice := None |};
     AddHoldingModal.onClose].
Proof.
  intros toFixed s s'.
  assert (He : HoldingModal.reruns_effect s
                 (HoldingModal.Input (AddHoldingModal.SelectPortfolio "p2")))
    by (simpl; discriminate).
  destruct (modal_effect_overwrites_fields toFixed s _ He) as (Hp & _).
  split; [reflexivity|]. split; [exact Hp | reflexivity].
Defined.

